(** * Streaming tool-call extraction: a shallow embedding

    The development follows three source files:
    - [vllm/entrypoints/openai/tool_parsers.py] (diff utilities, the Mistral
      and Hermes-2-Pro parsers),
    - [vllm/entrypoints/openai/tool_parsers/mistral_tool_parser.py] (the
      split-out copy of the Mistral parser; same control flow),
    - [vllm/entrypoints/openai/serving_chat.py] (request validation and the
      stream driver).

    Python [str] values are lists of characters; Python [int]s are [Z];
    Python lists are Rocq lists; exceptions are explicit results. *)

From Stdlib Require Import ZArith Ascii String List Lia DecimalString.
From Stdlib Require Import Floats.SpecFloat.
From stdpp Require Import base list strings gmap sorting.

Set Warnings "-register-all".

Local Open Scope Z_scope.
Local Open Scope nat_scope.

(** ** Python strings *)

Abbreviation str := (list ascii).

(** A string literal of the source. *)
Definition py (s : string) : str := list_ascii_of_string s.

(** The double quote, code point 34, and the single quote, 39. *)
Definition dquote : ascii := ascii_of_nat 34.
Definition squote : ascii := ascii_of_nat 39.

(** JSON text written with single quotes in place of double quotes. *)
Definition pyq (s : string) : str :=
  (fun c => if bool_decide (c = squote) then dquote else c) <$> py s.

Module PyStr.

(** [sub == s[:len(sub)]], the test behind [str.find] and [str.replace]. *)
Fixpoint startswith (sub s : str) : bool :=
  match sub, s with
  | [], _ => true
  | _ :: _, [] => false
  | a :: sub', b :: s' => bool_decide (a = b) && startswith sub' s'
  end.

(** [s.find(sub)] counted from offset [i]; [None] stands for [-1]. *)
Fixpoint find_from (sub s : str) (i : nat) : option nat :=
  if startswith sub s then Some i
  else match s with
       | [] => None
       | _ :: s' => find_from sub s' (S i)
       end.

Definition find (s sub : str) : option nat := find_from sub s 0.

(** [sub in s]. *)
Definition contains (s sub : str) : bool :=
  match find s sub with Some _ => true | None => false end.

(** [s.find(sub, start)] for [start >= 0]: past the end of [s] nothing is
    found, not even the empty string. *)
Definition find_at (s sub : str) (start : nat) : option nat :=
  if bool_decide (start ≤ length s) then find_from sub (drop start s) start
  else None.

(** The optional [count] argument of [str.replace]: [None] is "all". *)
Definition count_allows (count : option nat) : bool :=
  match count with Some 0 => false | _ => true end.

Definition count_dec (count : option nat) : option nat :=
  match count with Some (S n) => Some n | c => c end.

(** [s.replace(old, new, count)] for a non-empty [old]: a left-to-right scan
    over non-overlapping occurrences; [skip] counts the characters of a
    matched occurrence still to be dropped. *)
Fixpoint replace_go (old new : str) (skip : nat) (count : option nat)
    (s : str) : str :=
  match s with
  | [] => []
  | c :: s' =>
    match skip with
    | S k => replace_go old new k count s'
    | 0 =>
      if count_allows count && startswith old s
      then new ++ replace_go old new (length old - 1) (count_dec count) s'
      else c :: replace_go old new 0 count s'
    end
  end.

(** [s.replace('', new, count)]: [new] goes before every character and at the
    end, as far as [count] allows. *)
Fixpoint interleave (new : str) (count : option nat) (s : str) : str :=
  if count_allows count then
    match s with
    | [] => new
    | c :: s' => new ++ c :: interleave new (count_dec count) s'
    end
  else s.

Definition replace (s old new : str) (count : option nat) : str :=
  match old with
  | [] => interleave new count s
  | _ :: _ => replace_go old new 0 count s
  end.

(** [s.split(sep)] for a non-empty separator. *)
Fixpoint split_go (sep : str) (skip : nat) (cur : str) (s : str) : list str :=
  match s with
  | [] => [cur]
  | c :: s' =>
    match skip with
    | S k => split_go sep k cur s'
    | 0 =>
      if startswith sep s
      then cur :: split_go sep (length sep - 1) [] s'
      else split_go sep 0 (cur ++ [c]) s'
    end
  end.

Definition split (s sep : str) : list str := split_go sep 0 [] s.

(** [c.isalnum()] on the code points below 256. *)
Definition isalnum (c : ascii) : bool :=
  let n := N_of_ascii c in
  (((48 <=? n) && (n <=? 57)) || ((65 <=? n) && (n <=? 90))
   || ((97 <=? n) && (n <=? 122))
   || (n =? 170) || (n =? 178) || (n =? 179) || (n =? 181) || (n =? 185)
   || (n =? 186) || ((188 <=? n) && (n <=? 190))
   || ((192 <=? n) && (n <=? 214)) || ((216 <=? n) && (n <=? 246))
   || (248 <=? n))%N.

(** [s[-i]] for [i >= 1]. *)
Definition from_end (s : str) (i : nat) : option ascii :=
  if bool_decide (1 ≤ i ≤ length s) then s !! (length s - i) else None.

End PyStr.

(** ** Diff utilities ([tool_parsers.py], lines 19-93) *)

(** The [for i in range(0, min_length)] loop of [find_common_prefix]; [n] is
    the number of iterations left. *)
Fixpoint prefix_loop (s1 s2 : str) (i n : nat) (prefix : str) : str :=
  match n with
  | 0 => prefix
  | S n' =>
    match s1 !! i, s2 !! i with
    | Some c1, Some c2 =>
      if bool_decide (c1 = c2)
      then prefix_loop s1 s2 (S i) n' (prefix ++ [c1])
      else prefix
    | _, _ => prefix
    end
  end.

Definition find_common_prefix (s1 s2 : str) : str :=
  let min_length := min (length s1) (length s2) in
  prefix_loop s1 s2 0 min_length [].

(** The [for i in range(1, min_length + 1)] loop of [find_common_suffix]. *)
Fixpoint suffix_loop (s1 s2 : str) (i n : nat) (suffix : str) : str :=
  match n with
  | 0 => suffix
  | S n' =>
    match PyStr.from_end s1 i, PyStr.from_end s2 i with
    | Some c1, Some c2 =>
      if bool_decide (c1 = c2) && negb (PyStr.isalnum c1)
      then suffix_loop s1 s2 (S i) n' (c1 :: suffix)
      else suffix
    | _, _ => suffix
    end
  end.

Definition find_common_suffix (s1 s2 : str) : str :=
  let min_length := min (length s1) (length s2) in
  suffix_loop s1 s2 1 min_length [].

Definition extract_intermediate_diff (curr old : str) : str :=
  let suffix := find_common_suffix curr old in
  let old := reverse (PyStr.replace (reverse old) (reverse suffix) [] (Some 1)) in
  let prefix := find_common_prefix curr old in
  let diff := curr in
  let diff :=
    if bool_decide (length suffix ≠ 0)
    then reverse (PyStr.replace (reverse diff) (reverse suffix) [] (Some 1))
    else diff in
  let diff :=
    if bool_decide (length prefix ≠ 0)
    then PyStr.replace diff prefix [] (Some 1)
    else diff in
  diff.

(** The structural reading of both loops, used to state what they compute:
    the longest common prefix whose characters all satisfy [ok]. *)
Fixpoint common_while (ok : ascii -> bool) (s1 s2 : str) : str :=
  match s1, s2 with
  | c1 :: r1, c2 :: r2 =>
    if bool_decide (c1 = c2) && ok c1 then c1 :: common_while ok r1 r2 else []
  | _, _ => []
  end.

(** [find_all_indices] ([tool_parsers.py], lines 96-108). The [while True]
    loop runs on fuel; [start] is [index + 1], so it begins at 0 for the
    initial [index = -1]. [None] is a loop that has not ended within the
    fuel. *)
Fixpoint find_all_indices_loop (fuel : nat) (string substring : str)
    (start : nat) (indices : list nat) : option (list nat) :=
  match fuel with
  | 0 => None
  | S fuel' =>
    match PyStr.find_at string substring start with
    | None => Some indices
    | Some index =>
      find_all_indices_loop fuel' string substring (index + 1)
                            (indices ++ [index])
    end
  end.

Definition find_all_indices (string substring : str) : option (list nat) :=
  find_all_indices_loop (length string + 2) string substring 0 [].

(** ** Python exceptions and results *)

(** The exception classes the modelled code can meet. All of them derive from
    [Exception]; [ValidationError] (pydantic) and [JSONDecodeError] also
    derive from [ValueError]. *)
Inductive exn :=
| IndexError | KeyError | TypeError | AttributeError | ValueError
| RuntimeError | UnboundLocalError | JSONDecodeError | ValidationError
| MalformedJSON.

Definition is_ValueError (e : exn) : bool :=
  match e with
  | ValueError | JSONDecodeError | ValidationError => true
  | _ => false
  end.

Inductive result (A : Type) :=
| Ok (a : A)
| Raise (e : exn).
Arguments Ok {A} a.
Arguments Raise {A} e.

Definition result_bind {A B} (m : result A) (k : A -> result B) : result B :=
  match m with
  | Ok a => k a
  | Raise e => Raise e
  end.

#[global] Instance result_ret : MRet result := fun A a => Ok a.
#[global] Instance result_mbind : MBind result :=
  fun A B k m => result_bind m k.

(** [try: body except Exception: handler]. *)
Definition try_except {A} (body : result A) (handler : exn -> result A)
    : result A :=
  match body with
  | Ok a => Ok a
  | Raise e => handler e
  end.

(** [l[i]] on a Python list, negative indices counted from the end. *)
Definition norm_index (len : nat) (i : Z) : option nat :=
  let j := (if i <? 0 then i + Z.of_nat len else i)%Z in
  if ((0 <=? j) && (j <? Z.of_nat len))%Z then Some (Z.to_nat j) else None.

Definition list_getitem {A} (l : list A) (i : Z) : result A :=
  match norm_index (length l) i with
  | Some j => match l !! j with Some x => Ok x | None => Raise IndexError end
  | None => Raise IndexError
  end.

(** [l[i] = x]. *)
Definition list_setitem {A} (l : list A) (i : Z) (x : A) : result (list A) :=
  match norm_index (length l) i with
  | Some j => Ok (<[j:=x]> l)
  | None => Raise IndexError
  end.

(** [l.count(x)] and [x in l] on token-id lists. *)
Definition count_occ_Z (l : list Z) (x : Z) : nat :=
  length (filter (λ y, y = x) l).

Definition mem_Z (x : Z) (l : list Z) : bool := bool_decide (x ∈ l).

(** ** JSON values as Python objects *)

(** A Python float is kept by its [repr] and by whether it is zero. *)
Record pyfloat := { float_repr : str; float_is_zero : bool }.

(** What [json.loads] and [partial_json_parser.loads] return. A [dict] is an
    association list in insertion order; [JNull] is [None]. *)
Inductive json :=
| JNull
| JBool (b : bool)
| JInt (n : Z)
| JFloat (f : pyfloat)
| JStr (s : str)
| JArr (l : list json)
| JObj (kvs : list (str * json)).

Module Py.

(** Truth value of an object, as tested by [if x:] and [not x]. *)
Definition truthy (v : json) : bool :=
  match v with
  | JNull => false
  | JBool b => b
  | JInt n => negb (n =? 0)%Z
  | JFloat f => negb (float_is_zero f)
  | JStr s => negb (bool_decide (s = []))
  | JArr l => negb (bool_decide (length l = 0))
  | JObj kvs => negb (bool_decide (length kvs = 0))
  end.

Fixpoint assoc (k : str) (kvs : list (str * json)) : option json :=
  match kvs with
  | [] => None
  | (k', v) :: rest => if bool_decide (k' = k) then Some v else assoc k rest
  end.

(** [v.get(k)]: only a [dict] has the method. *)
Definition get (v : json) (k : str) : result json :=
  match v with
  | JObj kvs => Ok (default JNull (assoc k kvs))
  | _ => Raise AttributeError
  end.

(** [v.get(k, d)]. *)
Definition get_default (v : json) (k : str) (d : json) : result json :=
  match v with
  | JObj kvs => Ok (default d (assoc k kvs))
  | _ => Raise AttributeError
  end.

(** [v[k]] with a string key. *)
Definition getitem_key (v : json) (k : str) : result json :=
  match v with
  | JObj kvs =>
    match assoc k kvs with Some x => Ok x | None => Raise KeyError end
  | _ => Raise TypeError
  end.

(** [v[i]] with an integer subscript. The keys of a parsed JSON object are
    strings, so an integer is never among them. *)
Definition getitem (v : json) (i : Z) : result json :=
  match v with
  | JArr l => list_getitem l i
  | JStr s => c ← list_getitem s i; Ok (JStr [c])
  | JObj _ => Raise KeyError
  | _ => Raise TypeError
  end.

(** [len(v)]. *)
Definition len (v : json) : result Z :=
  match v with
  | JArr l => Ok (Z.of_nat (length l))
  | JStr s => Ok (Z.of_nat (length s))
  | JObj kvs => Ok (Z.of_nat (length kvs))
  | _ => Raise TypeError
  end.

(** The elements a [for x in v] loop visits. *)
Definition iter (v : json) : result (list json) :=
  match v with
  | JArr l => Ok l
  | JStr s => Ok ((λ c, JStr [c]) <$> s)
  | JObj kvs => Ok ((λ kv, JStr kv.1) <$> kvs)
  | _ => Raise TypeError
  end.

(** A list comprehension whose element expression may raise. *)
Fixpoint mapM {A B} (f : A -> result B) (l : list A) : result (list B) :=
  match l with
  | [] => Ok []
  | x :: rest => y ← f x; ys ← mapM f rest; Ok (y :: ys)
  end.

(** [sep.join(parts)]. *)
Fixpoint join (sep : str) (parts : list str) : str :=
  match parts with
  | [] => []
  | [p] => p
  | p :: rest => p ++ sep ++ join sep rest
  end.

Definition hex_digit (n : N) : ascii :=
  ascii_of_N (if (n <? 10)%N then 48 + n else 87 + n)%N.

(** One character inside a JSON string literal, [ensure_ascii=True]. *)
Definition escape_char (c : ascii) : str :=
  let n := N_of_ascii c in
  if (n =? 34)%N then py "\" ++ [dquote]
  else if (n =? 92)%N then py "\\"
  else if (n =? 10)%N then py "\n"
  else if (n =? 13)%N then py "\r"
  else if (n =? 9)%N then py "\t"
  else if (n =? 8)%N then py "\b"
  else if (n =? 12)%N then py "\f"
  else if ((n <? 32) || (126 <? n))%N
       then py "\u00" ++ [hex_digit (n / 16)%N; hex_digit (n mod 16)%N]
  else [c].

Definition encode_str (s : str) : str :=
  [dquote] ++ concat (escape_char <$> s) ++ [dquote].

Definition int_repr (n : Z) : str :=
  py (NilZero.string_of_int (Z.to_int n)).

End Py.

(** [json.dumps(v)] with the default separators [', '] and [': ']. *)
Fixpoint json_dumps (v : json) : str :=
  match v with
  | JNull => py "null"
  | JBool true => py "true"
  | JBool false => py "false"
  | JInt n => Py.int_repr n
  | JFloat f => float_repr f
  | JStr s => Py.encode_str s
  | JArr l => py "[" ++ Py.join (py ", ") (map json_dumps l) ++ py "]"
  | JObj kvs =>
    py "{" ++
    Py.join (py ", ")
      (map (λ kv, Py.encode_str (fst kv) ++ py ": " ++ json_dumps (snd kv)) kvs)
    ++ py "}"
  end.

(** ** External libraries and protocol objects *)

(** [json.loads], [partial_json_parser.loads] and the [Allow] bit masks of
    [partial_json_parser] are libraries outside the repository: the
    development is parametric in them. *)
Class JsonLib := {
  json_loads : str -> result json;
  partial_json_loads : str -> Z -> result json;
  Allow_ALL : Z;
  Allow_STR : Z
}.

(** Modelled from the spec: the objects of [vllm.entrypoints.openai.protocol]
    (the module is not among the sources), after the spec's envelope entities
    [ToolCall], [ExtractedToolCalls], [DeltaMessage] and [DeltaToolCall]. A
    [dtc_stub] delta is the one carrying the generated [id] and
    [type: "function"]. String-typed fields reject other values. *)
Record FunctionCall := { fc_name : str; fc_arguments : str }.

Record ToolCall := { tc_type : str; tc_function : FunctionCall }.

Record ExtractedToolCallInformation := {
  tools_called : bool;
  tool_calls : list ToolCall;
  content : option str
}.

Record DeltaFunctionCall := {
  dfc_name : option str;
  dfc_arguments : option str
}.

Record DeltaToolCall := {
  dtc_index : option Z;
  dtc_stub : bool;
  dtc_function : option DeltaFunctionCall
}.

Record DeltaMessage := {
  dm_role : option str;
  dm_content : option str;
  dm_tool_calls : list DeltaToolCall
}.

Definition as_str (v : json) : result str :=
  match v with
  | JStr s => Ok s
  | _ => Raise ValidationError
  end.

(** [DeltaMessage(content=text)]. *)
Definition content_delta (text : str) : DeltaMessage :=
  {| dm_role := None; dm_content := Some text; dm_tool_calls := [] |}.

(** [DeltaMessage(tool_calls=[InitialDeltaToolCall(index=i)])]. *)
Definition initial_delta (i : Z) : DeltaMessage :=
  {| dm_role := None; dm_content := None;
     dm_tool_calls :=
       [ {| dtc_index := Some i; dtc_stub := true; dtc_function := None |} ] |}.

(** [DeltaMessage(tool_calls=[DeltaToolCall(index=i,
    function=DeltaFunctionCall(name=n))])]. *)
Definition name_delta (i : Z) (n : str) : DeltaMessage :=
  {| dm_role := None; dm_content := None;
     dm_tool_calls :=
       [ {| dtc_index := Some i; dtc_stub := false;
            dtc_function :=
              Some {| dfc_name := Some n; dfc_arguments := None |} |} ] |}.

(** [DeltaMessage(tool_calls=[DeltaToolCall(index=i,
    function=DeltaFunctionCall(arguments=a))])]. *)
Definition arguments_delta (i : Z) (a : str) : DeltaMessage :=
  {| dm_role := None; dm_content := None;
     dm_tool_calls :=
       [ {| dtc_index := Some i; dtc_stub := false;
            dtc_function :=
              Some {| dfc_name := None; dfc_arguments := Some a |} |} ] |}.

(** ** Parser state ([ToolParser.__init__]) and one streaming step *)

Record ParserState := {
  prev_tool_call_arr : json;
  current_tool_id : Z;
  current_tool_name_sent : bool;
  current_tool_initial_sent : bool;
  streamed_args_for_tool : list str
}.

Definition initial_state : ParserState :=
  {| prev_tool_call_arr := JArr [];
     current_tool_id := (-1)%Z;
     current_tool_name_sent := false;
     current_tool_initial_sent := false;
     streamed_args_for_tool := [] |}.

Definition set_prev_tool_call_arr (v : json) (st : ParserState) :=
  {| prev_tool_call_arr := v;
     current_tool_id := current_tool_id st;
     current_tool_name_sent := current_tool_name_sent st;
     current_tool_initial_sent := current_tool_initial_sent st;
     streamed_args_for_tool := streamed_args_for_tool st |}.

Definition set_current_tool_id (i : Z) (st : ParserState) :=
  {| prev_tool_call_arr := prev_tool_call_arr st;
     current_tool_id := i;
     current_tool_name_sent := current_tool_name_sent st;
     current_tool_initial_sent := current_tool_initial_sent st;
     streamed_args_for_tool := streamed_args_for_tool st |}.

Definition set_current_tool_name_sent (b : bool) (st : ParserState) :=
  {| prev_tool_call_arr := prev_tool_call_arr st;
     current_tool_id := current_tool_id st;
     current_tool_name_sent := b;
     current_tool_initial_sent := current_tool_initial_sent st;
     streamed_args_for_tool := streamed_args_for_tool st |}.

Definition set_current_tool_initial_sent (b : bool) (st : ParserState) :=
  {| prev_tool_call_arr := prev_tool_call_arr st;
     current_tool_id := current_tool_id st;
     current_tool_name_sent := current_tool_name_sent st;
     current_tool_initial_sent := b;
     streamed_args_for_tool := streamed_args_for_tool st |}.

Definition set_streamed_args_for_tool (l : list str) (st : ParserState) :=
  {| prev_tool_call_arr := prev_tool_call_arr st;
     current_tool_id := current_tool_id st;
     current_tool_name_sent := current_tool_name_sent st;
     current_tool_initial_sent := current_tool_initial_sent st;
     streamed_args_for_tool := l |}.

(** The arguments of [extract_tool_calls_streaming]. *)
Record Step := {
  previous_text : str;
  current_text : str;
  delta_text : str;
  previous_token_ids : list Z;
  current_token_ids : list Z;
  delta_token_ids : list Z
}.

(** Code that reads and writes [self] and may raise: the state reached so far
    survives an exception. *)
Definition M (A : Type) : Type := ParserState -> ParserState * result A.

Definition m_ret {A} (a : A) : M A := fun st => (st, Ok a).

Definition m_bind {A B} (m : M A) (k : A -> M B) : M B :=
  fun st =>
    match m st with
    | (st', Ok a) => k a st'
    | (st', Raise e) => (st', Raise e)
    end.

Definition m_get : M ParserState := fun st => (st, Ok st).

Definition m_modify (f : ParserState -> ParserState) : M unit :=
  fun st => (f st, Ok tt).

Definition m_lift {A} (r : result A) : M A := fun st => (st, r).

Declare Scope parser_scope.
Delimit Scope parser_scope with parser.
Notation "x <- m ;; k" := (m_bind m (fun x => k))
  (at level 100, m at next level, right associativity) : parser_scope.
Notation "m ;;; k" := (m_bind m (fun _ => k))
  (at level 100, right associativity) : parser_scope.

(** [try: body except Exception: return None] around a step. *)
Definition run_try (body : M (option DeltaMessage))
    : ParserState -> ParserState * option DeltaMessage :=
  fun st =>
    match body st with
    | (st', Ok d) => (st', d)
    | (st', Raise _) => (st', None)
    end.

(** [self.streamed_args_for_tool[i] += s]. *)
Definition streamed_args_add (i : Z) (s : str) : M unit :=
  (st <- m_get ;;
   old <- m_lift (list_getitem (streamed_args_for_tool st) i) ;;
   l <- m_lift (list_setitem (streamed_args_for_tool st) i (old ++ s)) ;;
   m_modify (set_streamed_args_for_tool l))%parser.

(** [self.streamed_args_for_tool.append('')]. *)
Definition streamed_args_append_empty : M unit :=
  m_modify (fun st =>
    set_streamed_args_for_tool (streamed_args_for_tool st ++ [[]]) st).

(** [s.index(sub)]. *)
Definition str_index (s sub : str) : result nat :=
  match PyStr.find s sub with
  | Some i => Ok i
  | None => Raise ValueError
  end.

(** The four-way case split on the previous and current [arguments], shared
    by both dialects; [needle] is the text searched for in the first
    arguments chunk. *)
Definition stream_arguments (needle : str) (prev_arguments cur_arguments : json)
    : M (option DeltaMessage) :=
  (st <- m_get ;;
   if negb (Py.truthy cur_arguments) && negb (Py.truthy prev_arguments) then
     m_ret None
   else if negb (Py.truthy cur_arguments) && Py.truthy prev_arguments then
     m_ret None
   else if Py.truthy cur_arguments && negb (Py.truthy prev_arguments) then
     let cur_arguments_json := json_dumps cur_arguments in
     i <- m_lift (str_index cur_arguments_json needle) ;;
     let arguments_delta_text := take (i + length needle) cur_arguments_json in
     let delta := arguments_delta (current_tool_id st) arguments_delta_text in
     streamed_args_add (current_tool_id st) arguments_delta_text ;;;
     m_ret (Some delta)
   else if Py.truthy cur_arguments && Py.truthy prev_arguments then
     let cur_args_json := json_dumps cur_arguments in
     let prev_args_json := json_dumps prev_arguments in
     let argument_diff := extract_intermediate_diff cur_args_json prev_args_json in
     let delta := arguments_delta (current_tool_id st) argument_diff in
     streamed_args_add (current_tool_id st) argument_diff ;;;
     m_ret (Some delta)
   else m_ret None)%parser.

(** ** The Mistral dialect ([MistralToolParser]) *)

Module Mistral.

Definition bot_token : str := py "[TOOL_CALLS]".
Definition bot_token_id : Z := 5%Z.

(** [tool_call_regex.findall(s)] for the pattern [\[{.*?}\]] with [DOTALL]:
    the non-overlapping matches from left to right, each running from an
    opening ["[{"] to the first ["}]"] behind it. *)
Fixpoint findall_go (skip : nat) (s : str) : list str :=
  match s with
  | [] => []
  | _ :: s' =>
    match skip with
    | S k => findall_go k s'
    | 0 =>
      if PyStr.startswith (py "[{") s then
        match PyStr.find (drop 2 s) (py "}]") with
        | Some j => take (j + 4) s :: findall_go (j + 3) s'
        | None => findall_go 0 s'
        end
      else findall_go 0 s'
    end
  end.

Definition tool_call_regex_findall (s : str) : list str := findall_go 0 s.

Definition fallback (model_output : str) : ExtractedToolCallInformation :=
  {| tools_called := false; tool_calls := []; content := Some model_output |}.

Section WithLibs.
Context `{JsonLib}.

(** One element of the list comprehension building the [ToolCall]s. *)
Definition build_tool_call (raw_function_call : json) : result ToolCall :=
  name_v ← Py.getitem_key raw_function_call (py "name");
  args_v ← Py.getitem_key raw_function_call (py "arguments");
  name ← as_str name_v;
  Ok {| tc_type := py "function";
        tc_function :=
          {| fc_name := name; fc_arguments := json_dumps args_v |} |}.

(** The body of the [try] in [extract_tool_calls]. *)
Definition extract_tool_calls_body (model_output : str)
    : result ExtractedToolCallInformation :=
  raw_tool_call ←
    list_getitem
      (tool_call_regex_findall
         (PyStr.replace (PyStr.replace model_output bot_token [] None)
            [squote] [dquote] None)) 0%Z;
  function_call_arr ← json_loads raw_tool_call;
  elements ← Py.iter function_call_arr;
  calls ← Py.mapM build_tool_call elements;
  content_text ← list_getitem (PyStr.split model_output bot_token) 0%Z;
  Ok {| tools_called := true;
        tool_calls := calls;
        content := if bool_decide (0 < length content_text)
                   then Some content_text else None |}.

Definition extract_tool_calls (model_output : str)
    : result ExtractedToolCallInformation :=
  if negb (PyStr.contains model_output bot_token) then
    Ok (fallback model_output)
  else
    try_except (extract_tool_calls_body model_output)
               (fun _ => Ok (fallback model_output)).

(** The new-tool branch: flush what is left of the previous tool's
    arguments, then move the cursor. *)
Definition start_new_tool (current_tool_call : json) (n : Z)
    : M (option DeltaMessage) :=
  (st <- m_get ;;
   delta <-
     (if (0 <=? current_tool_id st)%Z then
        diff <- m_lift (Py.get current_tool_call (py "arguments")) ;;
        if Py.truthy diff then
          streamed <- m_lift (list_getitem (streamed_args_for_tool st)
                                           (current_tool_id st)) ;;
          let diff := PyStr.replace (json_dumps diff) streamed [] None in
          let delta := arguments_delta (current_tool_id st) diff in
          streamed_args_add (current_tool_id st) diff ;;;
          m_ret (Some delta)
        else m_ret None
      else m_ret None) ;;
   m_modify (set_current_tool_id (n - 1)%Z) ;;;
   m_modify (set_current_tool_name_sent false) ;;;
   m_modify (set_current_tool_initial_sent false) ;;;
   streamed_args_append_empty ;;;
   m_ret delta)%parser.

(** The same-tool branch: initial stub, then the name, then arguments. *)
Definition update_tool (x : Step) (current_tool_call : json)
    : M (option DeltaMessage) :=
  (st <- m_get ;;
   if negb (current_tool_initial_sent st) then
     m_modify (set_current_tool_initial_sent true) ;;;
     m_ret (Some (initial_delta (current_tool_id st)))
   else if negb (current_tool_name_sent st) then
     function_name <- m_lift (Py.get current_tool_call (py "name")) ;;
     if Py.truthy function_name then
       name <- m_lift (as_str function_name) ;;
       m_modify (set_current_tool_name_sent true) ;;;
       m_ret (Some (name_delta (current_tool_id st) name))
     else m_ret None
   else
     prev_call <- m_lift (Py.getitem (prev_tool_call_arr st)
                                     (current_tool_id st)) ;;
     prev_arguments <- m_lift (Py.get prev_call (py "arguments")) ;;
     cur_arguments <- m_lift (Py.get current_tool_call (py "arguments")) ;;
     let new_text := PyStr.replace (delta_text x) [squote] [dquote] None in
     stream_arguments new_text prev_arguments cur_arguments)%parser.

(** The body of the [try] in [extract_tool_calls_streaming]. *)
Definition streaming_body (x : Step) (flags : Z) : M (option DeltaMessage) :=
  (tool_call_message_portion <-
     m_lift (list_getitem (PyStr.split (current_text x) bot_token) 1%Z) ;;
   let parsable_arr :=
     PyStr.replace tool_call_message_portion [squote] [dquote] None in
   tool_call_arr <- m_lift (partial_json_loads parsable_arr flags) ;;
   st <- m_get ;;
   current_tool_call <-
     m_lift (Py.getitem tool_call_arr (current_tool_id st)) ;;
   n <- m_lift (Py.len tool_call_arr) ;;
   if (0 <? n)%Z && (current_tool_id st + 1 <? n)%Z then
     start_new_tool current_tool_call n
   else if (n - 1 =? current_tool_id st)%Z && (0 <=? current_tool_id st)%Z
   then
     delta <- update_tool x current_tool_call ;;
     m_modify (set_prev_tool_call_arr tool_call_arr) ;;;
     m_ret delta
   else m_ret None)%parser.

Definition extract_tool_calls_streaming (x : Step)
    : ParserState -> ParserState * option DeltaMessage :=
  fun st =>
    if negb (mem_Z bot_token_id (current_token_ids x)) then
      (st, Some (content_delta (delta_text x)))
    else if mem_Z bot_token_id (delta_token_ids x)
            && bool_decide (length (delta_token_ids x) = 1) then
      (st, None)
    else
      let flags :=
        if current_tool_name_sent st then Allow_ALL
        else Z.land Allow_ALL (Z.lnot Allow_STR) in
      run_try (streaming_body x flags) st.

End WithLibs.

End Mistral.

(** ** The Hermes-2-Pro dialect ([Hermes2ProToolParser]) *)

Module Hermes.

Definition tool_call_start_token : str := py "<tool_call>".
Definition tool_call_end_token : str := py "</tool_call>".

(** What the constructor reads of a tokenizer: its [vocab] dictionary and its
    [__len__], which decides the truth value of the object. *)
Record Tokenizer := {
  vocab : gmap str Z;
  tokenizer_len : nat
}.

Record Parser := {
  state : ParserState;
  tool_call_start_token_id : Z;
  tool_call_end_token_id : Z
}.

(** [d[k]] on the vocabulary. *)
Definition vocab_getitem (d : gmap str Z) (k : str) : result Z :=
  match d !! k with
  | Some v => Ok v
  | None => Raise KeyError
  end.

(** [Hermes2ProToolParser.__init__]. *)
Definition init (tokenizer : option Tokenizer) : result Parser :=
  match tokenizer with
  | None => Raise ValueError
  | Some t =>
    if bool_decide (tokenizer_len t = 0) then Raise ValueError
    else
      start_id ← vocab_getitem (vocab t) tool_call_start_token;
      end_id ← vocab_getitem (vocab t) tool_call_end_token;
      if (start_id =? 0)%Z || (end_id =? 0)%Z then Raise RuntimeError
      else Ok {| state := initial_state;
                 tool_call_start_token_id := start_id;
                 tool_call_end_token_id := end_id |}
  end.

(** [arr.append(x)] and [arr[i] = x] on [prev_tool_call_arr]. *)
Definition arr_append (arr x : json) : result json :=
  match arr with
  | JArr l => Ok (JArr (l ++ [x]))
  | _ => Raise AttributeError
  end.

Definition arr_setitem (arr : json) (i : Z) (x : json) : result json :=
  match arr with
  | JArr l => l' ← list_setitem l i x; Ok (JArr l')
  | _ => Raise TypeError
  end.

(** [tool_call_regex.findall(s)]. The pattern has two alternatives with one
    group each, under [DOTALL]: a start tag, a lazy run of any characters
    (group 1) and an end tag; or a start tag and a greedy run of any
    characters (group 2). The result holds one pair of groups per match, the
    group that takes no part being empty. A start tag with an end tag behind
    it is matched up to the first such end tag; a start tag with none is
    matched to the end of the string. *)
Fixpoint findall_go (skip : nat) (s : str) : list (str * str) :=
  match s with
  | [] => []
  | _ :: s' =>
    match skip with
    | S k => findall_go k s'
    | 0 =>
      if PyStr.startswith tool_call_start_token s then
        let body := drop (length tool_call_start_token) s in
        match PyStr.find body tool_call_end_token with
        | Some j =>
          (take j body, [])
          :: findall_go (length tool_call_start_token + j
                         + length tool_call_end_token - 1) s'
        | None => [([], body)]
        end
      else findall_go 0 s'
    end
  end.

Definition tool_call_regex_findall (s : str) : list (str * str) :=
  findall_go 0 s.

(** One element of the list comprehension building the [ToolCall]s. *)
Definition build_tool_call (function_call : json) : result ToolCall :=
  name_v ← Py.getitem_key function_call (py "name");
  args_v ← Py.getitem_key function_call (py "arguments");
  name ← as_str name_v;
  Ok {| tc_type := py "function";
        tc_function :=
          {| fc_name := name; fc_arguments := json_dumps args_v |} |}.

(** [match[0] if match[0] else match[1]], the text handed to [json.loads]. *)
Definition selected_group (m : str * str) : str :=
  if bool_decide (m.1 ≠ []) then m.1 else m.2.

(** [s[:s.find(sub)]]; a [find] of [-1] would cut the last character. *)
Definition before_first (s sub : str) : str :=
  match PyStr.find s sub with
  | Some i => take i s
  | None => take (length s - 1) s
  end.

(** How the classification of a step ends: with a [return], or with the
    local [tool_call_portion] bound for the code that follows. *)
Inductive classified :=
| Return (delta : option DeltaMessage)
| Portion (tool_call_portion : option str).

Section WithLibs.
Context `{JsonLib}.

(** The body of the [try] in [extract_tool_calls]. *)
Definition extract_tool_calls_body (model_output : str)
    : result ExtractedToolCallInformation :=
  let function_call_tuples := tool_call_regex_findall model_output in
  raw_function_calls ←
    Py.mapM (fun m => json_loads (selected_group m)) function_call_tuples;
  calls ← Py.mapM build_tool_call raw_function_calls;
  let content_text := before_first model_output tool_call_start_token in
  Ok {| tools_called := true;
        tool_calls := calls;
        content := if bool_decide (content_text ≠ [])
                   then Some content_text else None |}.

Definition extract_tool_calls (model_output : str)
    : result ExtractedToolCallInformation :=
  if negb (PyStr.contains model_output tool_call_start_token) then
    Ok {| tools_called := false; tool_calls := [];
          content := Some model_output |}
  else
    try_except (extract_tool_calls_body model_output)
               (fun _ => Ok {| tools_called := false; tool_calls := [];
                               content := Some model_output |}).

(** The [if / elif / elif / else] on the tag counts. *)
Definition classify (x : Step)
    (prev_tool_start_count prev_tool_end_count : nat)
    (cur_tool_start_count cur_tool_end_count : nat) : M classified :=
  (if bool_decide (cur_tool_end_count < cur_tool_start_count)
      && bool_decide (prev_tool_start_count < cur_tool_start_count) then
     portion <-
       (if bool_decide (1 < length (delta_token_ids x)) then
          p <- m_lift (list_getitem
                         (PyStr.split (current_text x) tool_call_start_token)
                         (-1)%Z) ;;
          m_ret (Some p)
        else m_ret None) ;;
     st <- m_get ;;
     m_modify (set_current_tool_id (current_tool_id st + 1)%Z) ;;;
     m_modify (set_current_tool_name_sent false) ;;;
     m_modify (set_current_tool_initial_sent false) ;;;
     streamed_args_append_empty ;;;
     m_ret (Portion portion)
   else if bool_decide (cur_tool_end_count < cur_tool_start_count)
           && bool_decide (cur_tool_start_count = prev_tool_start_count) then
     p <- m_lift (list_getitem
                    (PyStr.split (current_text x) tool_call_start_token)
                    (-1)%Z) ;;
     m_ret (Portion (Some p))
   else if bool_decide (cur_tool_start_count = cur_tool_end_count)
           && bool_decide (prev_tool_end_count < cur_tool_end_count) then
     st <- m_get ;;
     prev_call <- m_lift (Py.getitem (prev_tool_call_arr st)
                                     (current_tool_id st)) ;;
     diff <- m_lift (Py.get prev_call (py "arguments")) ;;
     if Py.truthy diff then
       streamed <- m_lift (list_getitem (streamed_args_for_tool st)
                                        (current_tool_id st)) ;;
       let diff := PyStr.replace (json_dumps diff) streamed [] None in
       m_ret (Return (Some (arguments_delta (current_tool_id st) diff)))
     else
       (* the code falls through to a use of [tool_call_portion], which no
          branch has assigned *)
       m_lift (Raise UnboundLocalError)
   else m_ret (Return None))%parser.

(** The arguments part, reached with [tool_call_portion] not [None]. *)
Definition update_arguments (x : Step) (current_tool_call : json)
    : M (option DeltaMessage) :=
  (st <- m_get ;;
   n <- m_lift (Py.len (prev_tool_call_arr st)) ;;
   (if (n <=? current_tool_id st)%Z then
      arr <- m_lift (arr_append (prev_tool_call_arr st) (JObj [])) ;;
      m_modify (set_prev_tool_call_arr arr)
    else m_ret tt) ;;;
   st <- m_get ;;
   prev_call <- m_lift (Py.getitem (prev_tool_call_arr st)
                                   (current_tool_id st)) ;;
   prev_arguments <- m_lift (Py.get prev_call (py "arguments")) ;;
   cur_arguments <- m_lift (Py.get current_tool_call (py "arguments")) ;;
   delta <- stream_arguments (delta_text x) prev_arguments cur_arguments ;;
   st <- m_get ;;
   n <- m_lift (Py.len (prev_tool_call_arr st)) ;;
   (if (current_tool_id st =? n - 1)%Z then
      arr <- m_lift (arr_setitem (prev_tool_call_arr st) (current_tool_id st)
                                 current_tool_call) ;;
      m_modify (set_prev_tool_call_arr arr)
    else
      arr <- m_lift (arr_append (prev_tool_call_arr st) current_tool_call) ;;
      m_modify (set_prev_tool_call_arr arr)) ;;;
   m_ret delta)%parser.

(** The code after the classification. *)
Definition emit (x : Step) (flags : Z) (tool_call_portion : option str)
    : M (option DeltaMessage) :=
  (current_tool_call <-
     (match tool_call_portion with
      | Some (c :: p) => m_lift (partial_json_loads (c :: p) flags)
      | _ => m_ret JNull
      end) ;;
   st <- m_get ;;
   if negb (current_tool_initial_sent st) then
     m_modify (set_current_tool_initial_sent true) ;;;
     m_ret (Some (initial_delta (current_tool_id st)))
   else if negb (current_tool_name_sent st) then
     function_name <- m_lift (Py.get current_tool_call (py "name")) ;;
     if Py.truthy function_name then
       m_modify (set_current_tool_name_sent true) ;;;
       name <- m_lift (as_str function_name) ;;
       m_ret (Some (name_delta (current_tool_id st) name))
     else m_ret None
   else
     match tool_call_portion with
     | None => m_ret None
     | Some _ => update_arguments x current_tool_call
     end)%parser.

(** The body of the [try] in [extract_tool_calls_streaming]. *)
Definition streaming_body (start_id end_id : Z) (x : Step)
    : M (option DeltaMessage) :=
  (let prev_tool_start_count := count_occ_Z (previous_token_ids x) start_id in
   let prev_tool_end_count := count_occ_Z (previous_token_ids x) end_id in
   let cur_tool_start_count := count_occ_Z (current_token_ids x) start_id in
   let cur_tool_end_count := count_occ_Z (current_token_ids x) end_id in
   if bool_decide (cur_tool_start_count = cur_tool_end_count)
      && bool_decide (prev_tool_end_count = cur_tool_end_count) then
     m_ret (Some (content_delta (delta_text x)))
   else
     st <- m_get ;;
     let flags :=
       if current_tool_name_sent st then Allow_ALL
       else Z.land Allow_ALL (Z.lnot Allow_STR) in
     c <- classify x prev_tool_start_count prev_tool_end_count
                   cur_tool_start_count cur_tool_end_count ;;
     match c with
     | Return delta => m_ret delta
     | Portion tool_call_portion => emit x flags tool_call_portion
     end)%parser.

Definition extract_tool_calls_streaming (start_id end_id : Z) (x : Step)
    : ParserState -> ParserState * option DeltaMessage :=
  fun st =>
    if negb (mem_Z start_id (current_token_ids x)) then
      (st, Some (content_delta (delta_text x)))
    else run_try (streaming_body start_id end_id x) st.

End WithLibs.

End Hermes.

(** ** The chat endpoint ([OpenAIServingChat], [serving_chat.py]) *)

Module Serving.

(** [request.tool_choice]: [None], a string, or a
    [ChatCompletionNamedToolChoiceParam] naming a function. *)
Inductive ToolChoice :=
| ChoiceNone
| ChoiceStr (s : str)
| ChoiceNamed (function_name : str).

(** [request.tool_choice == s] for a string literal [s]. *)
Definition choice_is (c : ToolChoice) (s : str) : bool :=
  match c with
  | ChoiceStr s' => bool_decide (s' = s)
  | _ => false
  end.

(** The fields of the request the modelled code reads; [tools] is the truth
    value of [request.tools]. *)
Record ChatCompletionRequest := {
  tool_choice : ToolChoice;
  tools : bool;
  stream : bool
}.

(** The parser class chosen by [__init__] and an instance of it. *)
Inductive ToolParserClass := MistralClass | HermesClass.

Inductive ToolParser :=
| MistralParser (st : ParserState)
| HermesParser (p : Hermes.Parser).

Definition parser_state (tp : ToolParser) : ParserState :=
  match tp with
  | MistralParser st => st
  | HermesParser p => Hermes.state p
  end.

Record OpenAIServingChat := {
  enable_auto_tools : bool;
  tool_parser : option ToolParserClass
}.

(** The tool-use part of [OpenAIServingChat.__init__] (lines 76-92), from the
    two keyword arguments [enable_auto_tools] and [tool_parser]. *)
Definition init (enable_auto_tools_arg : option bool)
    (tool_parser_arg : option str) : result OpenAIServingChat :=
  let enable := default false enable_auto_tools_arg in
  if enable then
    if bool_decide (tool_parser_arg = Some (py "mistral")) then
      Ok {| enable_auto_tools := enable; tool_parser := Some MistralClass |}
    else if bool_decide (tool_parser_arg = Some (py "hermes")) then
      Ok {| enable_auto_tools := enable; tool_parser := Some HermesClass |}
    else Raise TypeError
  else Ok {| enable_auto_tools := enable; tool_parser := None |}.

(** The text of an error response: a literal of the source or [str(e)]. *)
Inductive Message :=
| Literal (s : str)
| OfException (e : exn).

(** What [create_chat_completion] returns. *)
Inductive Response :=
| ErrorResponse (message : Message)
| StreamGenerator
| ChatCompletionResponse.

(** The outcomes of the collaborators [create_chat_completion] awaits, in the
    order it meets them: the model check, the first [try] block (message
    parsing and chat template, yielding the number of multi-modal futures),
    the awaited multi-modal datum, the [try] block that prepares the engine
    call, and the full (non-streaming) generator, which returns a response
    object or something else. *)
Record Collaborators := {
  check_model : option Message;
  apply_chat_template : result nat;
  await_mm_data : result unit;
  prepare_generation : result unit;
  full_generator : result bool
}.

Definition required_not_supported : str :=
  pyq "tool_choice = 'required' is not supported!".

Definition auto_requires_flags : str :=
  pyq "'auto' tool choice requires --enable-auto-tool-choice and --tool-parser to be set".

Definition multiple_images : str :=
  py "Multiple 'image_url' input is currently not supported.".

(** The second [try] block: at most one multi-modal datum is loaded. *)
Definition load_mm_data (env : Collaborators) (mm_futures : nat)
    : option Response :=
  if bool_decide (mm_futures ≠ 0) then
    if bool_decide (mm_futures ≠ 1)
    then Some (ErrorResponse (Literal multiple_images))
    else match await_mm_data env with
         | Ok _ => None
         | Raise e => Some (ErrorResponse (OfException e))
         end
  else None.

Definition has_parser (self : OpenAIServingChat) : bool :=
  match tool_parser self with Some _ => true | None => false end.

Definition create_chat_completion (self : OpenAIServingChat)
    (env : Collaborators) (request : ChatCompletionRequest) : result Response :=
  match check_model env with
  | Some m => Ok (ErrorResponse m)
  | None =>
    match apply_chat_template env with
    | Raise e => Ok (ErrorResponse (OfException e))
    | Ok mm_futures =>
      match load_mm_data env mm_futures with
      | Some r => Ok r
      | None =>
        (* validation for OpenAI tools *)
        if negb (choice_is (tool_choice request) (py "required")) then
          Ok (ErrorResponse (Literal required_not_supported))
        else if choice_is (tool_choice request) (py "auto")
                && negb (enable_auto_tools self && has_parser self) then
          Ok (ErrorResponse (Literal auto_requires_flags))
        else
          match prepare_generation env with
          | Raise e =>
            if is_ValueError e then Ok (ErrorResponse (OfException e))
            else Raise e
          | Ok _ =>
            if stream request then Ok StreamGenerator
            else
              match full_generator env with
              | Ok true => Ok ChatCompletionResponse
              | Ok false => Ok (ErrorResponse (OfException ValueError))
              | Raise e =>
                if is_ValueError e then Ok (ErrorResponse (OfException e))
                else Raise e
              end
          end
      end
    end
  end.

(** *** The stream generator, one engine output at a time *)

(** One [output] of [res.outputs]. *)
Record CompletionOutput := {
  index : nat;
  text : str;
  token_ids : list Z;
  finish_reason : option str;
  stop_reason : option json
}.

(** [ChatCompletionResponseStreamChoice], the payload of one chunk; the
    chunk's [id], [created], [model], [logprobs] and [usage] are left out. *)
Record StreamChoice := {
  choice_index : nat;
  delta : DeltaMessage;
  choice_finish_reason : option str;
  choice_stop_reason : option json
}.

(** The locals of [chat_completion_stream_generator] that live across engine
    steps. *)
Record StreamState := {
  previous_texts : list str;
  previous_num_tokens : list nat;
  finish_reason_sent : list bool;
  parser : option ToolParser
}.

(** [DeltaMessage(tool_calls=[ToolCall(function=FunctionCall(name=n,
    arguments=a))])], the delta of a named tool choice. *)
Definition named_delta (n a : str) : DeltaMessage :=
  {| dm_role := None; dm_content := None;
     dm_tool_calls :=
       [ {| dtc_index := None; dtc_stub := true;
            dtc_function :=
              Some {| dfc_name := Some n; dfc_arguments := Some a |} |} ] |}.

(** [l[:-1 * k]]. *)
Definition drop_last {A} (k : nat) (l : list A) : list A :=
  if bool_decide (k = 0) then [] else take (length l - k) l.

(** The condition guarding the "forgotten tokens" flush of the final chunk. *)
Definition flush_wanted (delta_message : DeltaMessage) (reason : str)
    (tool_parser : option ToolParser) : bool :=
  match dm_tool_calls delta_message with
  | [] => false
  | call :: _ =>
    match dtc_function call with
    | None => false
    | Some f =>
      (bool_decide (dfc_arguments f = Some [])
       || (match dfc_arguments f with
           | Some (_ :: _) => true
           | _ => false
           end
           && (bool_decide (reason = py "stop")
               || bool_decide (reason = py "tool_calls"))))
      && match tool_parser with Some _ => true | None => false end
    end
  end.

(** The delta of the final chunk. *)
Definition final_delta (delta_message : DeltaMessage) (reason : str)
    (tool_parser : option ToolParser) : result DeltaMessage :=
  match tool_parser with
  | Some tp =>
    if flush_wanted delta_message reason tool_parser then
      let st := parser_state tp in
      n ← Py.len (prev_tool_call_arr st);
      last_call ← Py.getitem (prev_tool_call_arr st) (n - 1)%Z;
      args ← Py.get_default last_call (py "arguments") (JObj []);
      let expected_call := json_dumps args in
      actual_call ← list_getitem (streamed_args_for_tool st) (n - 1)%Z;
      let remaining_call :=
        PyStr.replace expected_call actual_call [] (Some 1) in
      Ok (arguments_delta (n - 1)%Z remaining_call)
    else Ok delta_message
  | None => Ok delta_message
  end.

(** [output.finish_reason if not (tool_parser and
    len(tool_parser.prev_tool_call_arr)) else 'tool_calls']. *)
Definition final_finish_reason (reason : str) (tool_parser : option ToolParser)
    : result str :=
  match tool_parser with
  | Some tp =>
    n ← Py.len (prev_tool_call_arr (parser_state tp));
    Ok (if (n =? 0)%Z then reason else py "tool_calls")
  | None => Ok reason
  end.

(** The final chunk of a choice. *)
Definition final_choice (i : nat) (delta_message : DeltaMessage)
    (output : CompletionOutput) (reason : str)
    (tool_parser : option ToolParser) : result StreamChoice :=
  d ← final_delta delta_message reason tool_parser;
  r ← final_finish_reason reason tool_parser;
  Ok {| choice_index := i; delta := d;
        choice_finish_reason := Some r;
        choice_stop_reason := stop_reason output |}.

(** The locals at the start of the generator (lines 262-268):
    [previous_texts = [''] * num_choices] and the like. *)
Definition fresh_stream (num_choices : nat) (tool_parser : option ToolParser)
    : StreamState :=
  {| previous_texts := replicate num_choices [];
     previous_num_tokens := replicate num_choices 0;
     finish_reason_sent := replicate num_choices false;
     parser := tool_parser |}.




Section WithLibs.
Context `{JsonLib}.

(** [tool_parser.extract_tool_calls_streaming(...)], dispatched on the
    class of the instance. *)
Definition parser_step (tp : ToolParser) (x : Step)
    : ToolParser * option DeltaMessage :=
  match tp with
  | MistralParser st =>
    let '(st', d) := Mistral.extract_tool_calls_streaming x st in
    (MistralParser st', d)
  | HermesParser p =>
    let '(st', d) :=
      Hermes.extract_tool_calls_streaming
        (Hermes.tool_call_start_token_id p) (Hermes.tool_call_end_token_id p)
        x (Hermes.state p) in
    (HermesParser {| Hermes.state := st';
                     Hermes.tool_call_start_token_id :=
                       Hermes.tool_call_start_token_id p;
                     Hermes.tool_call_end_token_id :=
                       Hermes.tool_call_end_token_id p |}, d)
  end.

(** [self.tool_parser(tokenizer) if self.tool_parser else None]. *)
Definition make_parser (self : OpenAIServingChat)
    (tokenizer : option Hermes.Tokenizer) : result (option ToolParser) :=
  match tool_parser self with
  | None => Ok None
  | Some MistralClass => Ok (Some (MistralParser initial_state))
  | Some HermesClass => p ← Hermes.init tokenizer; Ok (Some (HermesParser p))
  end.

(** The delta of one output and the parser after it. *)
Definition output_delta (self : OpenAIServingChat)
    (request : ChatCompletionRequest) (output : CompletionOutput)
    (previous_text_i : str) (delta_text_i : str) (delta_token_ids_i : list Z)
    (tool_parser : option ToolParser)
    : option ToolParser * option DeltaMessage :=
  match tool_choice request, tool_parser with
  | ChoiceNamed name, _ => (tool_parser, Some (named_delta name delta_text_i))
  | choice, Some tp =>
    if tools request
       && (match choice with ChoiceNone => true | _ => false end
           || choice_is choice (py "auto"))
       && enable_auto_tools self
    then
      let '(tp', d) :=
        parser_step tp
          {| previous_text := previous_text_i;
             current_text := text output;
             delta_text := delta_text_i;
             previous_token_ids :=
               drop_last (length delta_token_ids_i) (token_ids output);
             current_token_ids := token_ids output;
             delta_token_ids := delta_token_ids_i |} in
      (Some tp', d)
    else (tool_parser, Some (content_delta delta_text_i))
  | _, None => (tool_parser, Some (content_delta delta_text_i))
  end.

(** The body of [for output in res.outputs]: the state after it and the
    choice of the chunk it yields, if any. *)
Definition handle_output (self : OpenAIServingChat)
    (request : ChatCompletionRequest) (output : CompletionOutput)
    (s : StreamState) : StreamState * result (option StreamChoice) :=
  let i := index output in
  match finish_reason_sent s !! i, previous_num_tokens s !! i,
        previous_texts s !! i with
  | Some true, _, _ => (s, Ok None)
  | Some false, Some num_tokens_i, Some text_i =>
    let delta_token_ids_i := drop num_tokens_i (token_ids output) in
    let delta_text_i := drop (length text_i) (text output) in
    let '(tool_parser', delta_message) :=
      output_delta self request output text_i delta_text_i delta_token_ids_i
                   (parser s) in
    let s' :=
      {| previous_texts := <[i := text output]> (previous_texts s);
         previous_num_tokens :=
           <[i := length (token_ids output)]> (previous_num_tokens s);
         finish_reason_sent := finish_reason_sent s;
         parser := tool_parser' |} in
    match delta_message with
    | None => (s', Ok None)
    | Some dm =>
      match finish_reason output with
      | None =>
        (s', Ok (Some {| choice_index := i; delta := dm;
                         choice_finish_reason := None;
                         choice_stop_reason := None |}))
      | Some reason =>
        match final_choice i dm output reason tool_parser' with
        | Raise e => (s', Raise e)
        | Ok c =>
          ({| previous_texts := previous_texts s';
              previous_num_tokens := previous_num_tokens s';
              finish_reason_sent := <[i := true]> (finish_reason_sent s');
              parser := tool_parser' |},
           Ok (Some c))
        end
      end
    end
  | _, _, _ => (s, Raise IndexError)
  end.

(** The outputs of the engine, handled in the order they arrive: the state
    at the end, the choices of the chunks yielded, and the exception that
    ended the loop, if one did. *)
Fixpoint run_outputs (self : OpenAIServingChat)
    (request : ChatCompletionRequest) (outputs : list CompletionOutput)
    (s : StreamState) : StreamState * list StreamChoice * option exn :=
  match outputs with
  | [] => (s, [], None)
  | output :: rest =>
    match handle_output self request output s with
    | (s', Raise e) => (s', [], Some e)
    | (s', Ok c) =>
      let '(s'', cs, e) := run_outputs self request rest s' in
      (s'', option_list c ++ cs, e)
    end
  end.

End WithLibs.

End Serving.

(** ** Running a parser over a stream *)

(** A [JsonLib] given by finite tables, to evaluate the code on a concrete
    stream: each loader answers on the listed texts and raises elsewhere.
    The masks are those of [partial_json_parser.Allow]: [STR] is bit 0 and
    [ALL] is the nine bits together. *)
Fixpoint table_find {K V} `{EqDecision K} (k : K) (t : list (K * V))
    : option V :=
  match t with
  | [] => None
  | (k', v) :: rest => if bool_decide (k' = k) then Some v else table_find k rest
  end.

Definition table_lib (complete : list (str * json))
    (partial : list (str * Z * json)) : JsonLib :=
  {| json_loads := fun s =>
       match table_find s complete with
       | Some v => Ok v
       | None => Raise JSONDecodeError
       end;
     partial_json_loads := fun s flags =>
       match table_find (s, flags) partial with
       | Some v => Ok v
       | None => Raise MalformedJSON
       end;
     Allow_ALL := 511%Z;
     Allow_STR := 1%Z |}.

(** Feed the steps in order, collecting what each returns. *)
Fixpoint run_steps
    (step : Step -> ParserState -> ParserState * option DeltaMessage)
    (xs : list Step) (st : ParserState)
    : ParserState * list (option DeltaMessage) :=
  match xs with
  | [] => (st, [])
  | x :: rest =>
    let '(st', d) := step x st in
    let '(st'', ds) := run_steps step rest st' in
    (st'', d :: ds)
  end.

(** The steps of a stream given as its successive (text, token ids) deltas,
    as the driver cuts them. *)
Fixpoint steps_of (prev_text : str) (prev_ids : list Z)
    (deltas : list (str * list Z)) : list Step :=
  match deltas with
  | [] => []
  | (t, ids) :: rest =>
    {| previous_text := prev_text;
       current_text := prev_text ++ t;
       delta_text := t;
       previous_token_ids := prev_ids;
       current_token_ids := prev_ids ++ ids;
       delta_token_ids := ids |}
    :: steps_of (prev_text ++ t) (prev_ids ++ ids) rest
  end.

(** The [function.arguments] texts of the deltas emitted for tool [i], in
    emission order, concatenated. *)
Definition arguments_of (i : Z) (d : option DeltaMessage) : str :=
  match d with
  | None => []
  | Some m =>
    concat
      ((fun call =>
          if bool_decide (dtc_index call = Some i) then
            match dtc_function call with
            | Some f => default [] (dfc_arguments f)
            | None => []
            end
          else []) <$> dm_tool_calls m)
  end.

Definition emitted_arguments (i : Z) (ds : list (option DeltaMessage)) : str :=
  concat (arguments_of i <$> ds).

(** ** Concrete streams *)

Module Streams.

Definition call (name : string) (arguments : option json) : json :=
  JObj ((py "name", JStr (py name))
        :: match arguments with
           | Some a => [(py "arguments", a)]
           | None => []
           end).

(** Hermes: [<tool_call>{"name": "f", "arguments": {"x": 1}}</tool_call>],
    with 7 and 8 the ids of the two tags. *)
Definition hermes_start_id : Z := 7%Z.
Definition hermes_end_id : Z := 8%Z.

Definition hermes_deltas : list (str * list Z) :=
  [ (py "<tool_call>", [7%Z]);
    (pyq "{'name': 'f'", [10%Z]);
    (pyq ", 'arguments': ", [11%Z]);
    (pyq "{'x': 1", [12%Z]);
    (pyq "}}", [13%Z]);
    (py "</tool_call>", [8%Z]) ].

Definition hermes_args : json := JObj [(py "x", JInt 1)].

(** The partial parses of the growing tool-call portion. *)
Definition hermes_partial : list (str * Z * json) :=
  [ (pyq "{'name': 'f'", 510%Z, call "f" None);
    (pyq "{'name': 'f', 'arguments': ", 511%Z, call "f" None);
    (pyq "{'name': 'f', 'arguments': {'x': 1", 511%Z,
     call "f" (Some hermes_args));
    (pyq "{'name': 'f', 'arguments': {'x': 1}}", 511%Z,
     call "f" (Some hermes_args)) ].

(** Mistral: the first tool's arguments are
    [{'a': 1, 'b': {'a': 1, 'c': 2}}]; the step that completes them also
    opens the second tool. *)
Definition mistral_deltas : list (str * list Z) :=
  [ (py "[TOOL_CALLS]", [5%Z]);
    (py "[{'name': 'f'", [10%Z]);
    (py ", ", [11%Z]);
    (py "'arguments': ", [12%Z]);
    (py "{'a': 1", [13%Z]);
    (py ", 'b': {'a': 1, 'c': 2}}}, {'name': 'g'", [14%Z; 15%Z]) ].

Definition mistral_args_partial : json := JObj [(py "a", JInt 1)].

Definition mistral_args : json :=
  JObj [(py "a", JInt 1);
        (py "b", JObj [(py "a", JInt 1); (py "c", JInt 2)])].

Definition mistral_partial : list (str * Z * json) :=
  [ (pyq "[{'name': 'f'", 510%Z, JArr [call "f" None]);
    (pyq "[{'name': 'f', ", 510%Z, JArr [call "f" None]);
    (pyq "[{'name': 'f', 'arguments': ", 510%Z, JArr [call "f" None]);
    (pyq "[{'name': 'f', 'arguments': {'a': 1", 511%Z,
     JArr [call "f" (Some mistral_args_partial)]);
    (pyq "[{'name': 'f', 'arguments': {'a': 1, 'b': {'a': 1, 'c': 2}}}, {'name': 'g'",
     511%Z,
     JArr [call "f" (Some mistral_args); call "g" None]) ].

(** Mistral: two complete tool calls arriving with the marker in one step. *)
Definition mistral_two_calls : list (str * list Z) :=
  [ (py "[TOOL_CALLS][{'name': 'a', 'arguments': {}}, {'name': 'b', 'arguments': {}}]",
     [5%Z; 10%Z; 11%Z]) ].

Definition mistral_two_calls_partial : list (str * Z * json) :=
  [ (pyq "[{'name': 'a', 'arguments': {}}, {'name': 'b', 'arguments': {}}]",
     510%Z,
     JArr [call "a" (Some (JObj [])); call "b" (Some (JObj []))]) ].

End Streams.

(** ** The Hermes output format *)

(** A model output in the Hermes format: each segment is free text followed
    by one closed block, start tag, body, end tag; [tail] is the text behind
    the last block. *)
Fixpoint hermes_output (segments : list (str * str)) (tail : str) : str :=
  match segments with
  | [] => tail
  | (text, body) :: rest =>
    text ++ Hermes.tool_call_start_token ++ body
    ++ Hermes.tool_call_end_token ++ hermes_output rest tail
  end.

(** One tool call of such an output: the text in front of its block, the
    body of the block, and the name and arguments the body parses to. *)
Record HermesCall := {
  hc_text : str;
  hc_body : str;
  hc_name : str;
  hc_arguments : json
}.

Definition hermes_segment (c : HermesCall) : str * str :=
  (hc_text c, hc_body c).

Definition hermes_tool_call (c : HermesCall) : ToolCall :=
  {| tc_type := py "function";
     tc_function := {| fc_name := hc_name c;
                       fc_arguments := json_dumps (hc_arguments c) |} |}.

(** The call is well formed: no start tag in its text, no end tag in its
    body, and a non-empty body that [json.loads] turns into a value with the
    call's name and arguments. *)
Definition hermes_call_ok `{JsonLib} (c : HermesCall) : Prop :=
  PyStr.contains (hc_text c) Hermes.tool_call_start_token = false
  ∧ PyStr.contains (hc_body c) Hermes.tool_call_end_token = false
  ∧ hc_body c ≠ []
  ∧ ∃ v, json_loads (hc_body c) = Ok v
         ∧ Py.getitem_key v (py "name") = Ok (JStr (hc_name c))
         ∧ Py.getitem_key v (py "arguments") = Ok (hc_arguments c).

(** The spec's scenarios 3 and 4 in one output: [Okay. ] and two calls. *)
Definition hermes_example_calls : list HermesCall :=
  [ {| hc_text := py "Okay. ";
       hc_body := pyq "{'name': 'a', 'arguments': {'x': 1}}";
       hc_name := py "a";
       hc_arguments := JObj [(py "x", JInt 1)] |};
    {| hc_text := [];
       hc_body := pyq "{'name': 'b', 'arguments': {'y': 2}}";
       hc_name := py "b";
       hc_arguments := JObj [(py "y", JInt 2)] |} ].

Definition hermes_example_lib : JsonLib :=
  table_lib
    [ (pyq "{'name': 'a', 'arguments': {'x': 1}}",
       Streams.call "a" (Some (JObj [(py "x", JInt 1)])));
      (pyq "{'name': 'b', 'arguments': {'y': 2}}",
       Streams.call "b" (Some (JObj [(py "y", JInt 2)]))) ]
    [].

(** ** Invariants of the parser state *)

(** The spec's first invariant, [len(streamed_args_for_tool) ==
    current_tool_id + 1]; for the initial cursor [-1] it says that nothing
    has been streamed. *)
Definition length_invariant (st : ParserState) : Prop :=
  Z.of_nat (length (streamed_args_for_tool st)) = (current_tool_id st + 1)%Z.

(** The cursor and the number of per-tool strings. *)
Definition cursor_shape (st : ParserState) : Z * nat :=
  (current_tool_id st, length (streamed_args_for_tool st)).

(** A computation that leaves both alone, whether it returns or raises. *)
Definition keeps_shape {A} (m : M A) : Prop :=
  ∀ st st' r, m st = (st', r) → cursor_shape st' = cursor_shape st.

(** [streamed_args_for_tool[i]], empty where the list has no such index. *)
Definition streamed_at (st : ParserState) (i : nat) : str :=
  default [] (streamed_args_for_tool st !! i).

(** A step from [st] to [st'] returning [d] has recorded the arguments text
    it emitted: every per-tool string grew by exactly the arguments [d]
    carries for that tool. *)
Definition recorded (st st' : ParserState) (d : option DeltaMessage) : Prop :=
  ∀ i : nat, streamed_at st' i = streamed_at st i ++ arguments_of (Z.of_nat i) d.

(** What a step's [try] makes of a result. *)
Definition delta_of (r : result (option DeltaMessage)) : option DeltaMessage :=
  match r with
  | Ok d => d
  | Raise _ => None
  end.

(** The two progress flags of the current tool. *)
Definition progress_flags (st : ParserState) : bool * bool :=
  (current_tool_initial_sent st, current_tool_name_sent st).

(** The name of the current tool is flagged as sent only once its initial
    stub is. *)
Definition flags_invariant (st : ParserState) : Prop :=
  current_tool_name_sent st = true → current_tool_initial_sent st = true.

(** A computation that leaves the flags alone, whether it returns or
    raises. *)
Definition keeps_flags {A} (m : M A) : Prop :=
  ∀ st st' r, m st = (st', r) → progress_flags st' = progress_flags st.


(** In a list of chunks, a chunk that carries a finish reason is the last
    one of its choice. *)
Fixpoint terminal_last (chunks : list Serving.StreamChoice) : Prop :=
  match chunks with
  | [] => True
  | c :: rest =>
    (Serving.choice_finish_reason c ≠ None →
     Forall (λ c', Serving.choice_index c' ≠ Serving.choice_index c) rest)
    ∧ terminal_last rest
  end.


(** ** Log probabilities ([_get_top_logprobs], [_create_chat_logprobs]) *)

Module Logprobs.

(** [vllm.sequence.Logprob], as far as the code reads it; a Python [float]
    is an IEEE 754 value. *)
Record Logprob := {
  logprob : spec_float;
  decoded_token : option str
}.

Record ChatCompletionLogProb := {
  lp_token : str;
  lp_logprob : spec_float;
  lp_bytes : list Z
}.

(** [ChatCompletionLogProbsContent]; [c_logprob] is [None] where the code
    leaves the field to its default. *)
Record ChatCompletionLogProbsContent := {
  c_token : str;
  c_logprob : option spec_float;
  c_bytes : list Z;
  c_top_logprobs : list ChatCompletionLogProb
}.

(** The literal [-9999.0]. *)
Definition floor_logprob : spec_float :=
  S754_finite true (9999 * 2 ^ 39) (-39).

(** [max(a, b)] on two floats: [b] when [b > a], else [a]. *)
Definition py_max (a b : spec_float) : spec_float :=
  if SFltb a b then b else a.

(** [enumerate(l)], counting from [i]. *)
Fixpoint enumerate {A} (i : Z) (l : list A) : list (Z * A) :=
  match l with
  | [] => []
  | x :: rest => (i, x) :: enumerate (i + 1)%Z rest
  end.

(** [d[k]] on a dictionary kept in insertion order. *)
Fixpoint dict_getitem (d : list (Z * Logprob)) (k : Z) : result Logprob :=
  match d with
  | [] => Raise KeyError
  | (k', v) :: rest => if (k' =? k)%Z then Ok v else dict_getitem rest k
  end.

Section WithTokenizer.
(** [tokenizer.decode], [self._get_decoded_token] at the tokenizer and the
    flag of the server, [s.encode("utf-8", errors="replace")] as a list of
    byte values, and [self.return_tokens_as_token_ids]. *)
Variable decode : Z -> str.
Variable get_decoded_token : Logprob -> Z -> str.
Variable encode_utf8 : str -> list Z.
Variable return_tokens_as_token_ids : bool.

(** One element of the comprehension of [_get_top_logprobs]. *)
Definition top_logprob_entry (p : Z * Logprob) : ChatCompletionLogProb :=
  let token := get_decoded_token p.2 p.1 in
  {| lp_token := token;
     lp_logprob := py_max (logprob p.2) floor_logprob;
     lp_bytes := encode_utf8 token |}.

Definition _get_top_logprobs (logprobs : list (Z * Logprob))
    (top_logprobs : option Z) : list ChatCompletionLogProb :=
  omap (λ ip : Z * (Z * Logprob),
          if match top_logprobs with
             | Some k => negb (k =? 0)%Z && (ip.1 <? k)%Z
             | None => false
             end
          then Some (top_logprob_entry ip.2) else None)
       (enumerate 0 logprobs).

(** The body of the loop of [_create_chat_logprobs]. *)
Definition chat_logprobs_content
    (top_logprobs : list (option (list (Z * Logprob))))
    (num_output_top_logprobs : option Z) (it : Z * Z)
    : result ChatCompletionLogProbsContent :=
  let '(i, token_id) := it in
  step_top_logprobs ← list_getitem top_logprobs i;
  match step_top_logprobs with
  | None =>
    let token :=
      if return_tokens_as_token_ids
      then py "token_id:" ++ Py.int_repr token_id
      else decode token_id in
    Ok {| c_token := token; c_logprob := None;
          c_bytes := encode_utf8 token; c_top_logprobs := [] |}
  | Some step =>
    lp ← dict_getitem step token_id;
    let token := get_decoded_token lp token_id in
    decoded ← match decoded_token lp with
              | Some t => Ok t
              | None => Raise AttributeError
              end;
    Ok {| c_token := token;
          c_logprob := Some (py_max (logprob lp) floor_logprob);
          c_bytes := encode_utf8 decoded;
          c_top_logprobs :=
            _get_top_logprobs step num_output_top_logprobs |}
  end.

Definition _create_chat_logprobs (token_ids : list Z)
    (top_logprobs : list (option (list (Z * Logprob))))
    (num_output_top_logprobs : option Z)
    : result (list ChatCompletionLogProbsContent) :=
  Py.mapM (chat_logprobs_content top_logprobs num_output_top_logprobs)
          (enumerate 0 token_ids).

End WithTokenizer.

(** Every log probability of a content list, the top ones included. *)
Definition reported_logprobs (content : list ChatCompletionLogProbsContent)
    : list spec_float :=
  content ≫= λ c, option_list (c_logprob c)
                  ++ (lp_logprob <$> c_top_logprobs c).

End Logprobs.

(** ** The full generator ([chat_completion_full_generator]) *)

Module FullGenerator.

(** How a call ends: with a value, with an exception of the modelled code,
    or with a failed [assert]. *)
Inductive outcome (A : Type) :=
| Returned (a : A)
| Escaped (e : exn)
| AssertionFailed.
Arguments Returned {A} a.
Arguments Escaped {A} e.
Arguments AssertionFailed {A}.

Definition of_result {A} (r : result A) : outcome A :=
  match r with
  | Ok a => Returned a
  | Raise e => Escaped e
  end.

Definition outcome_bind {A B} (m : outcome A) (k : A -> outcome B)
    : outcome B :=
  match m with
  | Returned a => k a
  | Escaped e => Escaped e
  | AssertionFailed => AssertionFailed
  end.

(** A list comprehension or loop body that may end the call. *)
Fixpoint for_each {A B} (f : A -> outcome B) (l : list A)
    : outcome (list B) :=
  match l with
  | [] => Returned []
  | x :: rest =>
    outcome_bind (f x) (fun y =>
    outcome_bind (for_each f rest) (fun ys => Returned (y :: ys)))
  end.

(** The fields of the request read here beside those of
    [Serving.ChatCompletionRequest]; [messages_roles] holds the ["role"] of
    each of [request.messages]. *)
Record RequestOptions := {
  logprobs : bool;
  top_logprobs : option Z;
  echo : bool;
  add_generation_prompt : bool;
  messages_roles : list str
}.

(** One message of [conversation], read with [.get]. *)
Record ConversationMessage := {
  cm_role : option str;
  cm_content : option str
}.

Record ChatMessage := {
  msg_role : str;
  msg_content : option str;
  msg_tool_calls : list ToolCall
}.

Record ChatCompletionResponseChoice := {
  rc_index : nat;
  rc_message : ChatMessage;
  rc_logprobs : option (list Logprobs.ChatCompletionLogProbsContent);
  rc_finish_reason : str;
  rc_stop_reason : option json
}.

Record UsageInfo := {
  prompt_tokens : nat;
  completion_tokens : nat;
  total_tokens : nat
}.

(** [ChatCompletionResponse]; [id], [created] and [model] are left out. *)
Record ChatCompletionResponse := {
  choices : list ChatCompletionResponseChoice;
  usage : UsageInfo
}.

(** What the generator returns. *)
Inductive FullResult :=
| ClientDisconnected
| Completion (response : ChatCompletionResponse).

(** One [CompletionOutput] with its [logprobs]. *)
Record Output := {
  output : Serving.CompletionOutput;
  out_logprobs : option (list (option (list (Z * Logprobs.Logprob))))
}.

Record RequestOutput := {
  prompt_token_ids : list Z;
  outputs : list Output
}.

(** The truth value of [request.tool_choice]. *)
Definition choice_truthy (c : Serving.ToolChoice) : bool :=
  match c with
  | Serving.ChoiceNone => false
  | Serving.ChoiceStr s => bool_decide (s ≠ [])
  | Serving.ChoiceNamed _ => true
  end.

(** [get_chat_request_role]. *)
Definition get_chat_request_role (response_role : str)
    (options : RequestOptions) : result str :=
  if add_generation_prompt options then Ok response_role
  else list_getitem (messages_roles options) (-1)%Z.

(** [last_msg_content] of the echo part. *)
Definition last_msg_content (conversation : list ConversationMessage)
    (role : str) : str :=
  match last conversation with
  | Some m =>
    match cm_content m with
    | Some (c :: cs) =>
      if bool_decide (cm_role m = Some role) then c :: cs else []
    | _ => []
    end
  | None => []
  end.

(** [last_msg_content + content if content else ''], the conditional
    taking in the whole sum. *)
Definition echo_content (last_msg : str) (content : option str) : str :=
  match content with
  | Some (c :: cs) => last_msg ++ c :: cs
  | _ => []
  end.

Definition echo_choice (last_msg : str) (c : ChatCompletionResponseChoice)
    : ChatCompletionResponseChoice :=
  {| rc_index := rc_index c;
     rc_message :=
       {| msg_role := msg_role (rc_message c);
          msg_content :=
            Some (echo_content last_msg (msg_content (rc_message c)));
          msg_tool_calls := msg_tool_calls (rc_message c) |};
     rc_logprobs := rc_logprobs c;
     rc_finish_reason := rc_finish_reason c;
     rc_stop_reason := rc_stop_reason c |}.

(** The [async for] loop: the last result, unless the client is found
    disconnected at one of the checks; [raw_request] gives the answer of
    [is_disconnected()] at each check. *)
Fixpoint last_result (raw_request : option (nat -> bool)) (k : nat)
    (results : list RequestOutput) (final_res : option RequestOutput)
    : option (option RequestOutput) :=
  match results with
  | [] => Some final_res
  | res :: rest =>
    if match raw_request with Some d => d k | None => false end
    then None
    else last_result raw_request (S k) rest (Some res)
  end.

Section WithLibs.
Context `{JsonLib}.
Variable decode : Z -> str.
Variable get_decoded_token : Logprobs.Logprob -> Z -> str.
Variable encode_utf8 : str -> list Z.
Variable return_tokens_as_token_ids : bool.

(** [self.tool_parser.extract_tool_calls(text)], a static method of the
    class. *)
Definition class_extract_tool_calls (cls : Serving.ToolParserClass)
    (model_output : str) : result ExtractedToolCallInformation :=
  match cls with
  | Serving.MistralClass => Mistral.extract_tool_calls model_output
  | Serving.HermesClass => Hermes.extract_tool_calls model_output
  end.

(** The [if / elif] chain choosing the message of one output, with
    [tools_called]. *)
Definition choice_message (self : Serving.OpenAIServingChat)
    (request : Serving.ChatCompletionRequest) (role : str) (text : str)
    : result (ChatMessage * bool) :=
  let plain :=
    {| msg_role := role; msg_content := Some text; msg_tool_calls := [] |} in
  match Serving.tool_choice request with
  | Serving.ChoiceNamed name =>
    Ok ({| msg_role := role; msg_content := Some [];
           msg_tool_calls :=
             [ {| tc_type := py "function";
                  tc_function := {| fc_name := name;
                                    fc_arguments := text |} |} ] |}, true)
  | choice =>
    if negb (Serving.enable_auto_tools self
             || negb (Serving.has_parser self)) then Ok (plain, false)
    else if negb (choice_truthy choice)
            || Serving.choice_is choice (py "none") then Ok (plain, false)
    else if Serving.tools request
            && (Serving.choice_is choice (py "auto")
                || match choice with
                   | Serving.ChoiceNone => true
                   | _ => false
                   end)
            && Serving.enable_auto_tools self then
      match Serving.tool_parser self with
      | Some cls =>
        tool_call_info ← class_extract_tool_calls cls text;
        if tools_called tool_call_info then
          Ok ({| msg_role := role;
                 msg_content := content tool_call_info;
                 msg_tool_calls := tool_calls tool_call_info |}, true)
        else Ok (plain, false)
      | None => Ok (plain, false)
      end
    else Ok (plain, false)
  end.

(** [output.finish_reason if output.finish_reason else 'stop'], or
    ['tool_calls']. *)
Definition choice_finish_reason (tools_called : bool)
    (finish_reason : option str) : str :=
  if tools_called then py "tool_calls"
  else match finish_reason with
       | Some (c :: cs) => c :: cs
       | _ => py "stop"
       end.

(** The body of [for output in final_res.outputs]. *)
Definition choice_data (self : Serving.OpenAIServingChat)
    (request : Serving.ChatCompletionRequest) (options : RequestOptions)
    (role : str) (o : Output) : outcome ChatCompletionResponseChoice :=
  outcome_bind
    (if logprobs options
        && match top_logprobs options with Some _ => true | None => false end
     then
       match out_logprobs o with
       | None => AssertionFailed
       | Some out =>
         outcome_bind
           (of_result
              (Logprobs._create_chat_logprobs decode get_decoded_token
                 encode_utf8 return_tokens_as_token_ids
                 (Serving.token_ids (output o)) out (top_logprobs options)))
           (fun l => Returned (Some l))
       end
     else Returned None)
    (fun logprobs =>
  outcome_bind
    (of_result (choice_message self request role
                               (Serving.text (output o))))
    (fun '(message, tools_called) =>
  Returned
    {| rc_index := Serving.index (output o);
       rc_message := message;
       rc_logprobs := logprobs;
       rc_finish_reason :=
         choice_finish_reason tools_called
                              (Serving.finish_reason (output o));
       rc_stop_reason := Serving.stop_reason (output o) |})).

Definition chat_completion_full_generator
    (self : Serving.OpenAIServingChat) (response_role : str)
    (request : Serving.ChatCompletionRequest) (options : RequestOptions)
    (raw_request : option (nat -> bool)) (results : list RequestOutput)
    (conversation : list ConversationMessage) : outcome FullResult :=
  match last_result raw_request 0 results None with
  | None => Returned ClientDisconnected
  | Some None => AssertionFailed
  | Some (Some final_res) =>
    outcome_bind (of_result (get_chat_request_role response_role options))
      (fun role =>
    outcome_bind
      (for_each (choice_data self request options role) (outputs final_res))
      (fun choices =>
    let choices :=
      if echo options
      then echo_choice (last_msg_content conversation role) <$> choices
      else choices in
    let num_prompt_tokens := length (prompt_token_ids final_res) in
    let num_generated_tokens :=
      sum_list_with (fun o => length (Serving.token_ids (output o)))
                    (outputs final_res) in
    Returned
      (Completion
         {| choices := choices;
            usage :=
              {| prompt_tokens := num_prompt_tokens;
                 completion_tokens := num_generated_tokens;
                 total_tokens :=
                   num_prompt_tokens + num_generated_tokens |} |})))
  end.

End WithLibs.

End FullGenerator.

(** Inputs to run the full generator on: one result with one output, an
    echoed assistant message, log probabilities not requested. *)
Module FullExamples.
Import FullGenerator.

Definition decode (_ : Z) : str := py "?".

Definition get_decoded_token (lp : Logprobs.Logprob) (_ : Z) : str :=
  default (py "?") (Logprobs.decoded_token lp).

Definition encode_utf8 (s : str) : list Z :=
  (λ c, Z.of_nat (nat_of_ascii c)) <$> s.

Definition options : RequestOptions :=
  {| logprobs := false; top_logprobs := None; echo := true;
     add_generation_prompt := true; messages_roles := [] |}.

Definition result_of (text : str) (reason : option str) : RequestOutput :=
  {| prompt_token_ids := [1%Z; 2%Z; 3%Z];
     outputs :=
       [ {| output :=
              {| Serving.index := 0; Serving.text := text;
                 Serving.token_ids := [10%Z; 11%Z];
                 Serving.finish_reason := reason;
                 Serving.stop_reason := None |};
            out_logprobs := None |} ] |}.

Definition conversation : list ConversationMessage :=
  [ {| cm_role := Some (py "assistant");
       cm_content := Some (py "Sure: ") |} ].

Definition hermes_server : Serving.OpenAIServingChat :=
  {| Serving.enable_auto_tools := true;
     Serving.tool_parser := Some Serving.HermesClass |}.

Definition plain_server : Serving.OpenAIServingChat :=
  {| Serving.enable_auto_tools := false; Serving.tool_parser := None |}.

Definition request_with (choice : Serving.ToolChoice)
    : Serving.ChatCompletionRequest :=
  {| Serving.tool_choice := choice; Serving.tools := true;
     Serving.stream := false |}.

Definition hermes_text : str :=
  hermes_output (hermes_segment <$> hermes_example_calls) [].

Definition run (self : Serving.OpenAIServingChat)
    (request : Serving.ChatCompletionRequest) (results : list RequestOutput)
    : outcome FullResult :=
  @chat_completion_full_generator hermes_example_lib decode
    get_decoded_token encode_utf8 false self (py "assistant") request
    options None results conversation.

End FullExamples.

(** ** The stream generator as a whole
    ([chat_completion_stream_generator]) *)

Module StreamGenerator.

(** [request.stream_options]: [include_usage] is the truth value of
    [stream_options and stream_options.include_usage]. *)
Record StreamOptions := {
  include_usage : bool;
  continuous_usage_stats : bool
}.

Record UsageInfo := {
  prompt_tokens : nat;
  completion_tokens : nat;
  total_tokens : nat
}.

(** What the generator yields; the [usage] of the chunks that carry a
    choice is left out. *)
Inductive StreamItem :=
| RoleChunk (i : nat) (role : str)
| EchoChunk (i : nat) (content : str)
| ChoiceChunk (c : Serving.StreamChoice)
| UsageChunk (usage : UsageInfo)
| ErrorChunk (e : exn)
| Done.

(** A chunk of the response proper. *)
Definition is_payload (item : StreamItem) : Prop :=
  match item with
  | ErrorChunk _ | Done => False
  | _ => True
  end.

Record RequestOutput := {
  prompt_token_ids : list Z;
  outputs : list Serving.CompletionOutput
}.

(** The locals the final usage chunk reads: [prompt_tokens] and the loop
    variable [i] are [None] as long as no statement has bound them. *)
Record Locals := {
  stream_state : Serving.StreamState;
  local_prompt_tokens : option nat;
  local_i : option nat
}.

(** The chunks of the first iteration (lines 275-346): one with the role per
    choice, then, under [echo], one with the last message per choice. *)
Definition first_iteration_chunks (options : FullGenerator.RequestOptions)
    (stream_options : StreamOptions)
    (conversation : list FullGenerator.ConversationMessage) (role : str)
    (num_choices : nat) (res : RequestOutput) (loc : Locals)
    : Locals * list StreamItem :=
  let last_msg_content := FullGenerator.last_msg_content conversation role in
  ({| stream_state := stream_state loc;
      local_prompt_tokens :=
        if include_usage stream_options
           && continuous_usage_stats stream_options
           && bool_decide (num_choices ≠ 0)
        then Some (length (prompt_token_ids res))
        else local_prompt_tokens loc;
      local_i :=
        if bool_decide (num_choices ≠ 0) then Some (num_choices - 1)
        else local_i loc |},
   ((λ i, RoleChunk i role) <$> seq 0 num_choices)
   ++ (if FullGenerator.echo options
          && bool_decide (last_msg_content ≠ [])
       then (λ i, EchoChunk i last_msg_content) <$> seq 0 num_choices
       else [])).

Section WithLibs.
Context `{JsonLib}.

(** [for output in res.outputs] (lines 348-502). *)
Fixpoint handle_outputs (self : Serving.OpenAIServingChat)
    (request : Serving.ChatCompletionRequest)
    (stream_options : StreamOptions) (res : RequestOutput)
    (outs : list Serving.CompletionOutput) (loc : Locals)
    : Locals * list StreamItem * option exn :=
  match outs with
  | [] => (loc, [], None)
  | output :: rest =>
    match Serving.handle_output self request output (stream_state loc) with
    | (s', Raise e) =>
      ({| stream_state := s';
          local_prompt_tokens := local_prompt_tokens loc;
          local_i := Some (Serving.index output) |}, [], Some e)
    | (s', Ok c) =>
      let loc' :=
        {| stream_state := s';
           local_prompt_tokens :=
             match c with
             | Some chunk =>
               if match Serving.choice_finish_reason chunk with
                  | Some _ => true
                  | None => include_usage stream_options
                            && continuous_usage_stats stream_options
                  end
               then Some (length (prompt_token_ids res))
               else local_prompt_tokens loc
             | None => local_prompt_tokens loc
             end;
           local_i := Some (Serving.index output) |} in
      let '(loc'', items, e) :=
        handle_outputs self request stream_options res rest loc' in
      (loc'', option_list (ChoiceChunk <$> c) ++ items, e)
    end
  end.

(** [async for res in result_generator]. *)
Fixpoint handle_results (self : Serving.OpenAIServingChat)
    (response_role : str) (request : Serving.ChatCompletionRequest)
    (options : FullGenerator.RequestOptions)
    (stream_options : StreamOptions)
    (conversation : list FullGenerator.ConversationMessage)
    (num_choices : nat) (first_iteration : bool)
    (results : list RequestOutput) (loc : Locals)
    : Locals * list StreamItem * option exn :=
  match results with
  | [] => (loc, [], None)
  | res :: rest =>
    match (if first_iteration then
             role ← FullGenerator.get_chat_request_role response_role
                      options;
             Ok (first_iteration_chunks options stream_options conversation
                   role num_choices res loc)
           else Ok (loc, [])) with
    | Raise e => (loc, [], Some e)
    | Ok (loc1, first) =>
      match handle_outputs self request stream_options res (outputs res)
                           loc1 with
      | (loc2, items, Some e) => (loc2, first ++ items, Some e)
      | (loc2, items, None) =>
        let '(loc3, items', e) :=
          handle_results self response_role request options stream_options
            conversation num_choices false rest loc2 in
        (loc3, first ++ items ++ items', e)
      end
    end
  end.

(** The body of the [try]: the loop, the exception the engine ends its
    results with, if any, and the final usage chunk. *)
Definition try_body (self : Serving.OpenAIServingChat)
    (response_role : str) (request : Serving.ChatCompletionRequest)
    (options : FullGenerator.RequestOptions)
    (stream_options : StreamOptions)
    (conversation : list FullGenerator.ConversationMessage)
    (num_choices : nat) (tool_parser : option Serving.ToolParser)
    (results : list RequestOutput) (engine_error : option exn)
    : list StreamItem * option exn :=
  match handle_results self response_role request options stream_options
          conversation num_choices true results
          {| stream_state := Serving.fresh_stream num_choices tool_parser;
             local_prompt_tokens := None;
             local_i := None |} with
  | (loc, items, Some e) => (items, Some e)
  | (loc, items, None) =>
    match engine_error with
    | Some e => (items, Some e)
    | None =>
      if include_usage stream_options then
        match local_prompt_tokens loc, local_i loc with
        | Some prompt, Some i =>
          match Serving.previous_num_tokens (stream_state loc) !! i with
          | Some completion =>
            (items ++ [UsageChunk {| prompt_tokens := prompt;
                                     completion_tokens := completion;
                                     total_tokens := prompt + completion |}],
             None)
          | None => (items, Some IndexError)
          end
        | _, _ => (items, Some UnboundLocalError)
        end
      else (items, None)
    end
  end.

(** The items yielded, and the exception that ends the generator when one
    escapes it. *)
Definition chat_completion_stream_generator
    (self : Serving.OpenAIServingChat) (response_role : str)
    (request : Serving.ChatCompletionRequest) (n : option nat)
    (options : FullGenerator.RequestOptions)
    (stream_options : StreamOptions)
    (conversation : list FullGenerator.ConversationMessage)
    (tokenizer : option Hermes.Tokenizer)
    (results : list RequestOutput) (engine_error : option exn)
    : list StreamItem * option exn :=
  let num_choices := default 1 n in
  match Serving.make_parser self tokenizer with
  | Raise e => ([], Some e)
  | Ok tool_parser =>
    match try_body self response_role request options stream_options
            conversation num_choices tool_parser results engine_error with
    | (items, Some e) =>
      if is_ValueError e then (items ++ [ErrorChunk e; Done], None)
      else (items, Some e)
    | (items, None) => (items ++ [Done], None)
    end
  end.

End WithLibs.


End StreamGenerator.

(** A stream of two choices that finish in one result, with the usage
    requested at the end. *)
Module StreamExamples.
Import StreamGenerator.

Definition options : FullGenerator.RequestOptions :=
  {| FullGenerator.logprobs := false; FullGenerator.top_logprobs := None;
     FullGenerator.echo := false;
     FullGenerator.add_generation_prompt := true;
     FullGenerator.messages_roles := [] |}.

Definition stream_options : StreamOptions :=
  {| include_usage := true; continuous_usage_stats := false |}.

Definition request : Serving.ChatCompletionRequest :=
  {| Serving.tool_choice := Serving.ChoiceNone; Serving.tools := false;
     Serving.stream := true |}.

Definition results : list RequestOutput :=
  [ {| prompt_token_ids := [1%Z; 2%Z];
       outputs :=
         [ {| Serving.index := 0; Serving.text := py "abc";
              Serving.token_ids := [10%Z; 11%Z; 12%Z];
              Serving.finish_reason := Some (py "stop");
              Serving.stop_reason := None |};
           {| Serving.index := 1; Serving.text := py "d";
              Serving.token_ids := [13%Z];
              Serving.finish_reason := Some (py "stop");
              Serving.stop_reason := None |} ] |} ].

Definition run : list StreamItem * option exn :=
  @chat_completion_stream_generator (table_lib [] [])
    FullExamples.plain_server (py "assistant") request (Some 2) options
    stream_options [] None results None.

End StreamExamples.
(* ===================================================================== *)
(** * Properties *)
(* ===================================================================== *)

(** ** Diff utilities *)

(** The docstring examples. *)
Example find_common_prefix_doc :
  find_common_prefix (pyq "{'fruit': 'ap'}") (pyq "{'fruit': 'apple'}")
  = pyq "{'fruit': 'ap".
Proof. reflexivity. Qed.

Example find_common_suffix_doc :
  find_common_suffix (pyq "{'fruit': 'ap'}") (pyq "{'fruit': 'apple'}")
  = pyq "'}".
Proof. reflexivity. Qed.

Example extract_intermediate_diff_doc :
  extract_intermediate_diff (pyq "{'fruit': 'apple'}") (pyq "{'fruit': 'ap'}")
  = py "ple".
Proof. reflexivity. Qed.


Section CommonWhile.
Variable ok : ascii -> bool.

Lemma common_while_nil_r s : common_while ok s [] = [].
Proof. by destruct s. Qed.

Lemma common_while_take m s1 s2 :
  min (length s1) (length s2) ≤ m →
  common_while ok (take m s1) (take m s2) = common_while ok s1 s2.
Proof.
  revert m s2; induction s1 as [|c1 r1 IH]; intros m s2 Hm.
  - by rewrite take_nil.
  - destruct s2 as [|c2 r2].
    + rewrite take_nil. by rewrite !common_while_nil_r.
    + destruct m as [|m]; [simpl in Hm; lia|].
      simpl. destruct (bool_decide (c1 = c2) && ok c1); [|done].
      f_equal. apply IH. simpl in Hm. lia.
Qed.

Lemma common_while_prefix_l s1 s2 : common_while ok s1 s2 `prefix_of` s1.
Proof.
  revert s2; induction s1 as [|c1 r1 IH]; intros [|c2 r2]; simpl;
    try apply prefix_nil.
  destruct (bool_decide (c1 = c2) && ok c1); [|apply prefix_nil].
  by apply prefix_cons.
Qed.

Lemma common_while_prefix_r s1 s2 : common_while ok s1 s2 `prefix_of` s2.
Proof.
  revert s2; induction s1 as [|c1 r1 IH]; intros [|c2 r2]; simpl;
    try apply prefix_nil.
  destruct (bool_decide (c1 = c2) && ok c1) eqn:E; [|apply prefix_nil].
  apply andb_true_iff in E as [E _]. apply bool_decide_eq_true in E as ->.
  by apply prefix_cons.
Qed.

Lemma common_while_Forall s1 s2 :
  Forall (λ c, ok c = true) (common_while ok s1 s2).
Proof.
  revert s2; induction s1 as [|c1 r1 IH]; intros [|c2 r2]; simpl;
    try constructor.
  destruct (bool_decide (c1 = c2) && ok c1) eqn:E; [|constructor].
  apply andb_true_iff in E as [_ E]. constructor; [done | apply IH].
Qed.

(** Where the scan stops: a string is exhausted, the next characters
    differ, or the shared next character fails [ok]. *)
Lemma common_while_stop s1 s2 t1 t2 :
  s1 = common_while ok s1 s2 ++ t1 →
  s2 = common_while ok s1 s2 ++ t2 →
  t1 = [] ∨ t2 = [] ∨
  ∃ c1 c2 u1 u2, t1 = c1 :: u1 ∧ t2 = c2 :: u2 ∧ (c1 ≠ c2 ∨ ok c1 = false).
Proof.
  revert s2 t1 t2; induction s1 as [|c1 r1 IH]; intros [|c2 r2] t1 t2; simpl.
  - intros <- _. by left.
  - intros <- _. by left.
  - intros _ <-. right. by left.
  - destruct (bool_decide (c1 = c2) && ok c1) eqn:E; simpl.
    + intros H1 H2. injection H1 as H1. injection H2 as H2. by eapply IH.
    + intros <- <-. right. right. exists c1, c2, r1, r2.
      split; [done|]. split; [done|].
      apply andb_false_iff in E as [E|E]; [left|by right].
      by apply bool_decide_eq_false in E.
Qed.

Lemma common_while_greatest q s1 s2 :
  (∀ c, ok c = true) →
  q `prefix_of` s1 → q `prefix_of` s2 → q `prefix_of` common_while ok s1 s2.
Proof.
  intros Hok. revert s1 s2; induction q as [|c q IH]; intros s1 s2 H1 H2.
  - apply prefix_nil.
  - destruct H1 as [k1 ->], H2 as [k2 ->]. simpl.
    rewrite bool_decide_eq_true_2 by done. rewrite Hok. simpl.
    apply prefix_cons, IH; by eexists.
Qed.
End CommonWhile.

Lemma prefix_loop_spec n i acc s1 s2 :
  prefix_loop s1 s2 i n acc =
  acc ++ common_while (λ _, true) (take n (drop i s1)) (take n (drop i s2)).
Proof.
  revert i acc; induction n as [|n IH]; intros i acc; simpl.
  - by rewrite app_nil_r.
  - destruct (s1 !! i) as [c1|] eqn:E1.
    2:{ apply lookup_ge_None in E1. rewrite (drop_ge s1) by done.
        by rewrite app_nil_r. }
    destruct (s2 !! i) as [c2|] eqn:E2.
    2:{ apply lookup_ge_None in E2. rewrite (drop_ge s2) by done.
        rewrite common_while_nil_r. by rewrite app_nil_r. }
    rewrite (drop_S _ _ _ E1), (drop_S _ _ _ E2). simpl.
    rewrite andb_true_r. destruct (bool_decide (c1 = c2)).
    + rewrite IH. by rewrite <- app_assoc.
    + by rewrite app_nil_r.
Qed.

Lemma find_common_prefix_spec s1 s2 :
  find_common_prefix s1 s2 = common_while (λ _, true) s1 s2.
Proof.
  unfold find_common_prefix. rewrite prefix_loop_spec. simpl.
  by apply common_while_take.
Qed.

Lemma from_end_reverse s i :
  1 ≤ i → PyStr.from_end s i = reverse s !! (i - 1).
Proof.
  intros Hi. unfold PyStr.from_end. case_bool_decide as H.
  - rewrite reverse_lookup by lia. f_equal. lia.
  - symmetry. apply lookup_ge_None. rewrite length_reverse. lia.
Qed.

Lemma suffix_loop_spec n i acc s1 s2 :
  suffix_loop s1 s2 (S i) n acc =
  reverse (common_while (λ c, negb (PyStr.isalnum c))
             (take n (drop i (reverse s1))) (take n (drop i (reverse s2))))
  ++ acc.
Proof.
  revert i acc; induction n as [|n IH]; intros i acc; simpl; [done|].
  rewrite !from_end_reverse by lia. replace (S i - 1) with i by lia.
  destruct (reverse s1 !! i) as [c1|] eqn:E1.
  2:{ apply lookup_ge_None in E1. by rewrite (drop_ge (reverse s1)). }
  destruct (reverse s2 !! i) as [c2|] eqn:E2.
  2:{ apply lookup_ge_None in E2. rewrite (drop_ge (reverse s2)) by done.
      by rewrite common_while_nil_r. }
  rewrite (drop_S _ _ _ E1), (drop_S _ _ _ E2). simpl.
  destruct (bool_decide (c1 = c2) && negb (PyStr.isalnum c1)); [|done].
  rewrite IH, reverse_cons. by rewrite <- app_assoc.
Qed.

Lemma find_common_suffix_spec s1 s2 :
  find_common_suffix s1 s2 =
  reverse (common_while (λ c, negb (PyStr.isalnum c)) (reverse s1) (reverse s2)).
Proof.
  unfold find_common_suffix. rewrite suffix_loop_spec, app_nil_r. simpl.
  rewrite common_while_take; [done|].
  rewrite !drop_0, !length_reverse. lia.
Qed.

(** C7. [find_common_prefix a b] is a prefix of both strings and no common
    prefix is longer. [find_common_suffix a b] is a suffix of both strings,
    holds no alphanumeric character, and is maximal under the stopping rule:
    in front of it one of the strings is exhausted, or the two preceding
    characters differ, or the shared preceding character is alphanumeric. *)
Theorem find_common_prefix_suffix_correct (a b : str) :
  (find_common_prefix a b `prefix_of` a ∧
   find_common_prefix a b `prefix_of` b ∧
   (∀ q, q `prefix_of` a → q `prefix_of` b →
         length q ≤ length (find_common_prefix a b)))
  ∧
  (find_common_suffix a b `suffix_of` a ∧
   find_common_suffix a b `suffix_of` b ∧
   Forall (λ c, PyStr.isalnum c = false) (find_common_suffix a b) ∧
   (∀ a' b',
      a = a' ++ find_common_suffix a b →
      b = b' ++ find_common_suffix a b →
      a' = [] ∨ b' = [] ∨
      ∃ ua ca ub cb, a' = ua ++ [ca] ∧ b' = ub ++ [cb] ∧
                     (ca ≠ cb ∨ PyStr.isalnum ca = true))).
Proof.
  split.
  - rewrite find_common_prefix_spec. split; [apply common_while_prefix_l|].
    split; [apply common_while_prefix_r|].
    intros q Ha Hb. apply prefix_length. by apply common_while_greatest.
  - rewrite find_common_suffix_spec.
    set (ok := λ c, negb (PyStr.isalnum c)).
    split; [|split; [|split]].
    + apply suffix_prefix_reverse. rewrite reverse_involutive.
      apply common_while_prefix_l.
    + apply suffix_prefix_reverse. rewrite reverse_involutive.
      apply common_while_prefix_r.
    + apply Forall_reverse.
      eapply Forall_impl; [apply common_while_Forall|].
      intros c Hc. unfold ok in Hc. by apply negb_true_iff in Hc.
    + intros a' b' Ha Hb.
      apply (f_equal reverse) in Ha, Hb.
      rewrite reverse_app, reverse_involutive in Ha, Hb.
      destruct (common_while_stop ok _ _ _ _ Ha Hb)
        as [H|[H|(c1 & c2 & u1 & u2 & H1 & H2 & H)]].
      * left. apply (f_equal reverse) in H.
        by rewrite reverse_involutive in H.
      * right; left. apply (f_equal reverse) in H.
        by rewrite reverse_involutive in H.
      * right; right. exists (reverse u1), c1, (reverse u2), c2.
        apply (f_equal reverse) in H1, H2.
        rewrite reverse_involutive, reverse_cons in H1, H2.
        split; [done|]. split; [done|].
        destruct H as [H|H]; [by left|right].
        unfold ok in H. by apply negb_false_iff in H.
Qed.

(** The docstring pair: the common prefix is at least as long as the shared
    opening brace, and in front of the common suffix the characters ['p'] and
    ['e'] stop the scan. *)
Lemma find_common_prefix_suffix_correct_witness :
  length (py "{")
    ≤ length (find_common_prefix (pyq "{'fruit': 'ap'}")
                                 (pyq "{'fruit': 'apple'}"))
  ∧ (pyq "{'fruit': 'ap" = [] ∨ pyq "{'fruit': 'apple" = [] ∨
     ∃ ua ca ub cb,
       pyq "{'fruit': 'ap" = ua ++ [ca] ∧ pyq "{'fruit': 'apple" = ub ++ [cb]
       ∧ (ca ≠ cb ∨ PyStr.isalnum ca = true)).
Proof.
  pose proof (find_common_prefix_suffix_correct
                (pyq "{'fruit': 'ap'}") (pyq "{'fruit': 'apple'}"))
    as [(_ & _ & Hmax) (_ & _ & _ & Hstop)].
  split.
  - apply Hmax.
    + exists (pyq "'fruit': 'ap'}"). reflexivity.
    + exists (pyq "'fruit': 'apple'}"). reflexivity.
  - apply Hstop; reflexivity.
Defined.

(** *** [str.replace] with an empty replacement and [count = 1] *)

Lemma replace_go_exhausted old new k s :
  PyStr.replace_go old new k (Some 0) s = drop k s.
Proof.
  revert k; induction s as [|c s IH]; intros [|k]; simpl; try done.
  by rewrite IH, drop_0.
Qed.

Lemma startswith_app old r : PyStr.startswith old (old ++ r) = true.
Proof.
  induction old as [|c old IH]; simpl; [done|].
  by rewrite bool_decide_eq_true_2.
Qed.

Lemma interleave_empty count s : PyStr.interleave [] count s = s.
Proof.
  revert count; induction s as [|c s IH]; intros count; simpl;
    destruct (PyStr.count_allows count); try done.
  by rewrite IH.
Qed.

Lemma replace_once_head old r :
  PyStr.replace (old ++ r) old [] (Some 1) = r.
Proof.
  destruct old as [|c old]; simpl; [apply interleave_empty|].
  rewrite bool_decide_eq_true_2 by done. rewrite startswith_app. simpl.
  rewrite replace_go_exhausted, Nat.sub_0_r. apply drop_app_length.
Qed.

(** The source's [x[::-1].replace(s[::-1], '', 1)[::-1]] strips a trailing
    [s]. *)
Lemma strip_trailing s x :
  s `suffix_of` x →
  reverse (PyStr.replace (reverse x) (reverse s) [] (Some 1))
  = take (length x - length s) x.
Proof.
  intros [k ->]. rewrite reverse_app, replace_once_head, reverse_involutive.
  rewrite length_app. replace (length k + length s - length s) with (length k)
    by lia.
  by rewrite take_app_length.
Qed.

Lemma find_common_suffix_suffix_l a b : find_common_suffix a b `suffix_of` a.
Proof.
  rewrite find_common_suffix_spec. apply suffix_prefix_reverse.
  rewrite reverse_involutive. apply common_while_prefix_l.
Qed.

Lemma find_common_suffix_suffix_r a b : find_common_suffix a b `suffix_of` b.
Proof.
  rewrite find_common_suffix_spec. apply suffix_prefix_reverse.
  rewrite reverse_involutive. apply common_while_prefix_r.
Qed.

Lemma find_common_prefix_prefix_l a b : find_common_prefix a b `prefix_of` a.
Proof. rewrite find_common_prefix_spec. apply common_while_prefix_l. Qed.

(** What the body of [extract_intermediate_diff] computes when the common
    prefix fits in front of the common suffix. *)
Lemma extract_intermediate_diff_middle curr old :
  let s := find_common_suffix curr old in
  let old' := take (length old - length s) old in
  let p := find_common_prefix curr old' in
  length p + length s ≤ length curr →
  extract_intermediate_diff curr old
  = drop (length p) (take (length curr - length s) curr).
Proof.
  intros s old' p Hfit. unfold extract_intermediate_diff.
  rewrite (strip_trailing _ old) by apply find_common_suffix_suffix_r.
  fold s. fold old'. fold p.
  assert (Hd : (if bool_decide (length s ≠ 0)
                then reverse (PyStr.replace (reverse curr) (reverse s) []
                                (Some 1))
                else curr) = take (length curr - length s) curr).
  { case_bool_decide as Hs.
    - apply strip_trailing, find_common_suffix_suffix_l.
    - assert (length s = 0) as -> by lia.
      rewrite Nat.sub_0_r. by rewrite take_ge. }
  rewrite Hd. clear Hd.
  destruct (find_common_prefix_prefix_l curr old') as [k Hk]. fold p in Hk.
  assert (Hp : take (length curr - length s) curr
               = p ++ drop (length p) (take (length curr - length s) curr)).
  { rewrite <- (take_drop (length p) (take _ curr)) at 1. f_equal.
    rewrite take_take. rewrite Nat.min_l by lia.
    rewrite Hk at 1. by rewrite take_app_length. }
  case_bool_decide as Hpl.
  - rewrite Hp at 1. apply replace_once_head.
  - assert (length p = 0) as -> by lia. by rewrite drop_0.
Qed.

(** C6 (amended). When the common prefix and the common suffix do not overlap
    in [curr], prefix, diff and suffix concatenate back to [curr]. *)
Theorem extract_intermediate_diff_reconstructs (curr old : str) :
  let s := find_common_suffix curr old in
  let old' := take (length old - length s) old in
  let p := find_common_prefix curr old' in
  length p + length s ≤ length curr →
  p ++ extract_intermediate_diff curr old ++ s = curr.
Proof.
  intros s old' p Hfit.
  rewrite extract_intermediate_diff_middle by done. fold s old' p.
  destruct (find_common_prefix_prefix_l curr old') as [k Hk]. fold p in Hk.
  destruct (find_common_suffix_suffix_l curr old) as [k' Hk']. fold s in Hk'.
  assert (Hp : p = take (length p) (take (length curr - length s) curr)).
  { rewrite take_take, Nat.min_l by lia.
    rewrite Hk. by rewrite take_app_length. }
  rewrite Hp at 1. rewrite app_assoc, take_drop.
  assert (Hn : length curr - length s = length k').
  { rewrite Hk', length_app. lia. }
  rewrite Hn. rewrite Hk' at 1. rewrite take_app_length. by rewrite Hk'.
Qed.

Lemma extract_intermediate_diff_reconstructs_witness :
  length (pyq "{'fruit': 'ap") + length (pyq "'}")
    ≤ length (pyq "{'fruit': 'apple'}")
  ∧ pyq "{'fruit': 'ap" ++
    extract_intermediate_diff (pyq "{'fruit': 'apple'}") (pyq "{'fruit': 'ap'}")
    ++ pyq "'}"
    = pyq "{'fruit': 'apple'}".
Proof.
  split; [vm_compute; lia|].
  apply (extract_intermediate_diff_reconstructs
           (pyq "{'fruit': 'apple'}") (pyq "{'fruit': 'ap'}")).
  vm_compute. lia.
Defined.

(** C6 as stated fails when the prefix reaches into the suffix: for
    [curr = "a}"] and [old = "a}}"] the suffix is ["}"], [old] without it is
    ["a}"], the prefix is ["a}"], the diff is ["a"], and the concatenation is
    ["a}a}"]. *)
Lemma extract_intermediate_diff_overlap_counterexample :
  find_common_suffix (py "a}") (py "a}}") = py "}"
  ∧ take (length (py "a}}") - length (py "}")) (py "a}}") = py "a}"
  ∧ find_common_prefix (py "a}") (py "a}") = py "a}"
  ∧ extract_intermediate_diff (py "a}") (py "a}}") = py "a"
  ∧ py "a}" ++ extract_intermediate_diff (py "a}") (py "a}}") ++ py "}"
    ≠ py "a}".
Proof. repeat split; try reflexivity. vm_compute. discriminate. Qed.

(** ** The Mistral dialect *)

Section MistralFacts.
Context `{JsonLib}.

Lemma try_except_returns {A} (body : result A) (a : A) :
  ∃ r, try_except body (fun _ => Ok a) = Ok r.
Proof. destruct body; simpl; eauto. Qed.

(** C4. [extract_tool_calls] always returns. Without the marker in
    [model_output] the result is the fallback ([tools_called] false, no
    tool calls, [content] the unmodified output). With the marker, the
    result is the same fallback when the cleaned text (marker removed,
    single quotes turned into double quotes) has no tool-call region or
    when [json.loads] raises on that region. *)
Theorem mistral_extract_tool_calls_never_raises (model_output : str) :
  (∃ r, Mistral.extract_tool_calls model_output = Ok r)
  ∧ (PyStr.contains model_output Mistral.bot_token = false →
     Mistral.extract_tool_calls model_output
     = Ok {| tools_called := false; tool_calls := [];
             content := Some model_output |})
  ∧ (PyStr.contains model_output Mistral.bot_token = true →
     ∀ cleaned,
       cleaned = PyStr.replace
                   (PyStr.replace model_output Mistral.bot_token [] None)
                   [squote] [dquote] None →
       (Mistral.tool_call_regex_findall cleaned = []
        ∨ ∃ region rest e,
            Mistral.tool_call_regex_findall cleaned = region :: rest
            ∧ json_loads region = Raise e) →
       Mistral.extract_tool_calls model_output
       = Ok {| tools_called := false; tool_calls := [];
               content := Some model_output |}).
Proof.
  unfold Mistral.extract_tool_calls. split; [|split].
  - destruct (PyStr.contains model_output Mistral.bot_token); simpl.
    + apply try_except_returns.
    + eauto.
  - by intros ->.
  - intros -> cleaned -> Hfail. simpl.
    unfold Mistral.extract_tool_calls_body.
    destruct Hfail as [Hnone|(region & rest & e & Hsome & Hload)].
    + by rewrite Hnone.
    + rewrite Hsome. simpl. unfold mbind, result_mbind. simpl.
      by rewrite Hload.
Qed.

(** C8. While [bot_token_id] (5) is not among [current_token_ids], a step
    returns [DeltaMessage(content=delta_text)] and leaves the state alone;
    a step whose [delta_token_ids] is the marker token alone returns
    [None]. [delta_token_ids] is the tail of [current_token_ids], as the
    driver slices it. *)
Theorem mistral_streaming_content_and_marker (x : Step) (st : ParserState) :
  (Mistral.bot_token_id ∉ current_token_ids x →
   Mistral.extract_tool_calls_streaming x st
   = (st, Some {| dm_role := None; dm_content := Some (delta_text x);
                  dm_tool_calls := [] |}))
  ∧ (delta_token_ids x `suffix_of` current_token_ids x →
     Mistral.bot_token_id ∈ delta_token_ids x →
     length (delta_token_ids x) = 1 →
     Mistral.extract_tool_calls_streaming x st = (st, None)).
Proof.
  unfold Mistral.extract_tool_calls_streaming, mem_Z. split.
  - intros Hnot. by rewrite bool_decide_eq_false_2.
  - intros [k Hk] Hin Hlen.
    rewrite (bool_decide_eq_true_2 (_ ∈ current_token_ids x)).
    2:{ rewrite Hk. apply elem_of_app. by right. }
    simpl. by rewrite !bool_decide_eq_true_2.
Qed.
End MistralFacts.

(** The spec's malformed-JSON scenario: the marker is there, the cleaned text
    has no [[{...}]] region, and the fallback comes back; a text without the
    marker comes back as content. *)
Lemma mistral_extract_tool_calls_never_raises_witness :
  let lib := table_lib [] [] in
  let broken := py "[TOOL_CALLS][{'name': 'x', 'arguments': {'k': 'v' ]" in
  @Mistral.extract_tool_calls lib broken
  = Ok {| tools_called := false; tool_calls := []; content := Some broken |}
  ∧ @Mistral.extract_tool_calls lib (py "Hello world")
    = Ok {| tools_called := false; tool_calls := [];
            content := Some (py "Hello world") |}.
Proof.
  intros lib broken. split.
  - refine (proj2 (proj2
              (@mistral_extract_tool_calls_never_raises lib broken))
              eq_refl _ eq_refl _).
    left. reflexivity.
  - exact (proj1 (proj2
             (@mistral_extract_tool_calls_never_raises lib (py "Hello world")))
             eq_refl).
Defined.

(** A plain-text step and the step that brings the marker alone. *)
Lemma mistral_streaming_content_and_marker_witness :
  let lib := table_lib [] [] in
  let text_step :=
    {| previous_text := []; current_text := py "Hel"; delta_text := py "Hel";
       previous_token_ids := []; current_token_ids := [10%Z];
       delta_token_ids := [10%Z] |} in
  let marker_step :=
    {| previous_text := py "Hel"; current_text := py "Hel[TOOL_CALLS]";
       delta_text := py "[TOOL_CALLS]";
       previous_token_ids := [10%Z]; current_token_ids := [10%Z; 5%Z];
       delta_token_ids := [5%Z] |} in
  @Mistral.extract_tool_calls_streaming lib text_step initial_state
  = (initial_state, Some (content_delta (py "Hel")))
  ∧ @Mistral.extract_tool_calls_streaming lib marker_step initial_state
    = (initial_state, None).
Proof.
  intros lib text_step marker_step. split.
  - apply (proj1 (@mistral_streaming_content_and_marker lib text_step
                    initial_state)).
    simpl. unfold Mistral.bot_token_id.
    intros Hin. apply list_elem_of_singleton in Hin. discriminate Hin.
  - apply (proj2 (@mistral_streaming_content_and_marker lib marker_step
                    initial_state)).
    + exists [10%Z]. reflexivity.
    + simpl. apply list_elem_of_singleton. reflexivity.
    + reflexivity.
Defined.

(** ** The Hermes-2-Pro dialect *)

(** C10. The constructor raises for every tokenizer whose vocabulary maps
    ["<tool_call>"] or ["</tool_call>"] to id 0: with both tags in the
    vocabulary of a non-empty tokenizer the exception is the [RuntimeError]
    of the missing-token check, which tests the truth value of the ids. It
    raises [ValueError] when no tokenizer is passed. *)
Theorem hermes_init_raises_on_zero_id :
  (∀ t : Hermes.Tokenizer,
     Hermes.vocab t !! Hermes.tool_call_start_token = Some 0%Z
     ∨ Hermes.vocab t !! Hermes.tool_call_end_token = Some 0%Z →
     ∃ e, Hermes.init (Some t) = Raise e)
  ∧ (∀ (t : Hermes.Tokenizer) (start_id end_id : Z),
       Hermes.tokenizer_len t ≠ 0 →
       Hermes.vocab t !! Hermes.tool_call_start_token = Some start_id →
       Hermes.vocab t !! Hermes.tool_call_end_token = Some end_id →
       start_id = 0%Z ∨ end_id = 0%Z →
       Hermes.init (Some t) = Raise RuntimeError)
  ∧ Hermes.init None = Raise ValueError.
Proof.
  split; [|split; [|done]].
  - intros t Hzero. unfold Hermes.init, Hermes.vocab_getitem.
    case_bool_decide; [eauto|].
    destruct (Hermes.vocab t !! Hermes.tool_call_start_token) as [s|] eqn:Es;
      simpl; [|eauto].
    destruct (Hermes.vocab t !! Hermes.tool_call_end_token) as [e|] eqn:Ee;
      simpl; [|eauto].
    unfold mbind, result_mbind, result_bind.
    destruct Hzero as [Hz|Hz]; injection Hz as ->; simpl; [eauto|].
    rewrite orb_true_r. eauto.
  - intros t s e Hlen Hs He Hzero. unfold Hermes.init, Hermes.vocab_getitem.
    rewrite bool_decide_eq_false_2 by done. rewrite Hs, He.
    unfold mbind, result_mbind, result_bind.
    destruct Hzero as [->| ->]; simpl; [done|]. by rewrite orb_true_r.
Qed.

(** A vocabulary that gives ["<tool_call>"] the id 0. *)
Lemma hermes_init_raises_on_zero_id_witness :
  let t := {| Hermes.vocab :=
                <[Hermes.tool_call_start_token := 0%Z]>
                  (<[Hermes.tool_call_end_token := 1%Z]> ∅);
              Hermes.tokenizer_len := 2 |} in
  Hermes.init (Some t) = Raise RuntimeError.
Proof.
  intros t.
  apply (proj1 (proj2 hermes_init_raises_on_zero_id) t 0%Z 1%Z).
  - simpl. lia.
  - reflexivity.
  - reflexivity.
  - by left.
Defined.

(** ** The chat endpoint *)

(** What the validation of [tool_choice] does once the earlier stages have
    let the request through. *)
Lemma tool_choice_validation self env request :
  Serving.check_model env = None →
  Serving.apply_chat_template env = Ok 0 →
  Serving.create_chat_completion self env request =
  if negb (Serving.choice_is (Serving.tool_choice request) (py "required"))
  then Ok (Serving.ErrorResponse (Serving.Literal Serving.required_not_supported))
  else
    match Serving.prepare_generation env with
    | Raise e =>
      if is_ValueError e
      then Ok (Serving.ErrorResponse (Serving.OfException e))
      else Raise e
    | Ok _ =>
      if Serving.stream request then Ok Serving.StreamGenerator
      else
        match Serving.full_generator env with
        | Ok true => Ok Serving.ChatCompletionResponse
        | Ok false => Ok (Serving.ErrorResponse (Serving.OfException ValueError))
        | Raise e =>
          if is_ValueError e
          then Ok (Serving.ErrorResponse (Serving.OfException e))
          else Raise e
        end
    end.
Proof.
  intros Hm Ht. unfold Serving.create_chat_completion. rewrite Hm, Ht. simpl.
  destruct (Serving.tool_choice request) as [|s|n]; simpl; try done.
  case_bool_decide as Hs; simpl; [|done]. subst s.
  by rewrite bool_decide_eq_false_2.
Qed.

(** C1 (the code at the failing inputs). With every collaborator succeeding,
    a streaming request that leaves [tool_choice] unset, or sets it to
    ["auto"] on a server with auto tool choice and a parser, is answered with
    the error [tool_choice = "required" is not supported!], while the same
    request with [tool_choice = "required"] passes the check and gets its
    stream generator. *)
Theorem create_chat_completion_required_check_inverted :
  let self := {| Serving.enable_auto_tools := true;
                 Serving.tool_parser := Some Serving.MistralClass |} in
  let env := {| Serving.check_model := None;
                Serving.apply_chat_template := Ok 0;
                Serving.await_mm_data := Ok tt;
                Serving.prepare_generation := Ok tt;
                Serving.full_generator := Ok true |} in
  let request c := {| Serving.tool_choice := c; Serving.tools := true;
                      Serving.stream := true |} in
  Serving.create_chat_completion self env (request Serving.ChoiceNone)
  = Ok (Serving.ErrorResponse
          (Serving.Literal (pyq "tool_choice = 'required' is not supported!")))
  ∧ Serving.create_chat_completion self env
      (request (Serving.ChoiceStr (py "auto")))
    = Ok (Serving.ErrorResponse
            (Serving.Literal (pyq "tool_choice = 'required' is not supported!")))
  ∧ Serving.create_chat_completion self env
      (request (Serving.ChoiceStr (py "required")))
    = Ok Serving.StreamGenerator.
Proof. repeat split. Qed.

Section ServingFacts.
Context `{JsonLib}.

Lemma final_finish_reason_value reason tool_parser r :
  Serving.final_finish_reason reason tool_parser = Ok r →
  match tool_parser with
  | None => r = reason
  | Some tp =>
    ∃ n, Py.len (prev_tool_call_arr (Serving.parser_state tp)) = Ok n
         ∧ r = if (n =? 0)%Z then reason else py "tool_calls"
  end.
Proof.
  unfold Serving.final_finish_reason. destruct tool_parser as [tp|].
  - destruct (Py.len _) as [n|e]; simpl; [|done].
    intros [= <-]. eauto.
  - by intros [= <-].
Qed.

(** A chunk carrying a finish reason is built by [final_choice] from the
    parser as it is after the step. *)
Lemma handle_output_final self request output s s' c reason :
  Serving.finish_reason output = Some reason →
  Serving.handle_output self request output s = (s', Ok (Some c)) →
  Serving.final_finish_reason reason (Serving.parser s')
  = Ok (default [] (Serving.choice_finish_reason c))
  ∧ Serving.choice_finish_reason c ≠ None.
Proof.
  intros Hfin. unfold Serving.handle_output.
  destruct (Serving.finish_reason_sent s !! Serving.index output)
    as [[]|]; [done| |done].
  destruct (Serving.previous_num_tokens s !! Serving.index output);
    [|done].
  destruct (Serving.previous_texts s !! Serving.index output); [|done].
  destruct (Serving.output_delta _ _ _ _ _ _ _) as [tp' [dm|]]; [|done].
  rewrite Hfin.
  destruct (Serving.final_choice _ _ _ _ _) as [c'|e] eqn:Ec; [|done].
  intros [= <- <-]. simpl.
  unfold Serving.final_choice in Ec.
  destruct (Serving.final_delta dm reason tp'); simpl in Ec; [|done].
  destruct (Serving.final_finish_reason reason tp'); simpl in Ec; [|done].
  injection Ec as <-. by simpl.
Qed.

(** C2 (amended). When the engine reports [reason] and the step yields a
    chunk, the chunk's [finish_reason] is ["tool_calls"] if a tool parser
    exists and its [prev_tool_call_arr] is non-empty, and is [reason]
    unchanged otherwise; so it is ["tool_calls"] exactly under that
    condition whenever [reason] itself is not ["tool_calls"]. *)
Theorem final_chunk_finish_reason self request output s s' c reason :
  Serving.finish_reason output = Some reason →
  Serving.handle_output self request output s = (s', Ok (Some c)) →
  (∀ tp n, Serving.parser s' = Some tp →
           Py.len (prev_tool_call_arr (Serving.parser_state tp)) = Ok n →
           (0 < n)%Z →
           Serving.choice_finish_reason c = Some (py "tool_calls"))
  ∧ (Serving.parser s' = None →
     Serving.choice_finish_reason c = Some reason)
  ∧ (∀ tp, Serving.parser s' = Some tp →
           Py.len (prev_tool_call_arr (Serving.parser_state tp)) = Ok 0%Z →
           Serving.choice_finish_reason c = Some reason)
  ∧ (reason ≠ py "tool_calls" →
     (Serving.choice_finish_reason c = Some (py "tool_calls")
      ↔ ∃ tp n, Serving.parser s' = Some tp
                ∧ Py.len (prev_tool_call_arr (Serving.parser_state tp)) = Ok n
                ∧ (0 < n)%Z)).
Proof.
  intros Hfin Hout.
  destruct (handle_output_final _ _ _ _ _ _ _ Hfin Hout) as [Hr Hsome].
  apply final_finish_reason_value in Hr.
  destruct (Serving.choice_finish_reason c) as [r|]; [|done]. simpl in Hr.
  clear Hsome Hout.
  destruct (Serving.parser s') as [tp|].
  - destruct Hr as (n & Hn & ->).
    assert (Hn0 : (0 ≤ n)%Z).
    { destruct (prev_tool_call_arr (Serving.parser_state tp));
        simpl in Hn; try done; injection Hn as <-; lia. }
    split; [|split; [|split]].
    + intros tp0 n0 [= <-] Hn' Hpos. rewrite Hn in Hn'.
      injection Hn' as <-.
      destruct (Z.eqb_spec n 0); [lia|done].
    + done.
    + intros tp0 [= <-] Hn'. rewrite Hn in Hn'. by injection Hn' as ->.
    + intros Hne. split.
      * destruct (Z.eqb_spec n 0).
        -- intros [= ->]. done.
        -- intros _. exists tp, n. repeat split; [done|lia].
      * intros (tp0 & n0 & [= <-] & Hn' & Hpos). rewrite Hn in Hn'.
        injection Hn' as <-. destruct (Z.eqb_spec n 0); [lia|done].
  - subst r. split; [|split; [|split]]; try done.
    intros Hne. split.
    + intros [= ->]. done.
    + by intros (tp0 & n0 & Hp & _).
Qed.
End ServingFacts.

(** A Mistral parser that has seen a tool call makes the final chunk say
    ["tool_calls"] although the engine said ["stop"]. *)
Lemma final_chunk_finish_reason_witness :
  let lib := table_lib [] [] in
  let self := {| Serving.enable_auto_tools := true;
                 Serving.tool_parser := Some Serving.MistralClass |} in
  let request := {| Serving.tool_choice := Serving.ChoiceNone;
                    Serving.tools := false; Serving.stream := true |} in
  let output := {| Serving.index := 0; Serving.text := py "ok";
                   Serving.token_ids := [10%Z];
                   Serving.finish_reason := Some (py "stop");
                   Serving.stop_reason := None |} in
  let st := set_prev_tool_call_arr
              (JArr [JObj [(py "name", JStr (py "f"))]]) initial_state in
  let s := {| Serving.previous_texts := [[]];
              Serving.previous_num_tokens := [0];
              Serving.finish_reason_sent := [false];
              Serving.parser := Some (Serving.MistralParser st) |} in
  ∃ s' c,
    @Serving.handle_output lib self request output s = (s', Ok (Some c))
    ∧ Serving.choice_finish_reason c = Some (py "tool_calls").
Proof.
  intros lib self request output st s.
  destruct (@Serving.handle_output lib self request output s) as [s' r] eqn:E.
  vm_compute in E. injection E as <- <-.
  eexists _, _. split; [reflexivity|].
  refine (proj1 (@final_chunk_finish_reason lib self request output s _ _
                   (py "stop") eq_refl eq_refl)
            (Serving.MistralParser st) 1%Z eq_refl eq_refl _).
  lia.
Defined.

(** C2 as stated fails in the "only if" direction: without any tool parser,
    an engine that reports ["tool_calls"] gets ["tool_calls"] back on the
    final chunk. *)
Lemma final_chunk_finish_reason_counterexample :
  let lib := table_lib [] [] in
  let self := {| Serving.enable_auto_tools := false;
                 Serving.tool_parser := None |} in
  let request := {| Serving.tool_choice := Serving.ChoiceNone;
                    Serving.tools := false; Serving.stream := true |} in
  let output := {| Serving.index := 0; Serving.text := py "ok";
                   Serving.token_ids := [10%Z];
                   Serving.finish_reason := Some (py "tool_calls");
                   Serving.stop_reason := None |} in
  let s := {| Serving.previous_texts := [[]];
              Serving.previous_num_tokens := [0];
              Serving.finish_reason_sent := [false];
              Serving.parser := None |} in
  ∃ s' c,
    @Serving.handle_output lib self request output s = (s', Ok (Some c))
    ∧ Serving.parser s' = None
    ∧ Serving.choice_finish_reason c = Some (py "tool_calls")
    ∧ ¬ (Serving.choice_finish_reason c = Some (py "tool_calls")
         ↔ ∃ tp n, Serving.parser s' = Some tp
                   ∧ Py.len (prev_tool_call_arr (Serving.parser_state tp))
                     = Ok n
                   ∧ (0 < n)%Z).
Proof.
  eexists _, _. split; [reflexivity|]. split; [reflexivity|].
  split; [reflexivity|].
  intros [Hiff _]. destruct (Hiff eq_refl) as (tp & n & Hp & _).
  discriminate Hp.
Qed.

(** ** Runs of the streaming parsers *)

(** C3 (the code at the failing input). On the Hermes stream
    [<tool_call>{"name": "f", "arguments": {"x": 1}}</tool_call>] the parser
    emits, for tool 0, the arguments deltas [{"x": 1], the empty string and,
    when the closing tag arrives, [}]; the last one is returned without being
    appended, so [streamed_args_for_tool[0]] ends as [{"x": 1] while the
    emitted deltas concatenate to [{"x": 1}]. *)
Theorem hermes_closing_delta_not_recorded :
  let step :=
    @Hermes.extract_tool_calls_streaming
      (table_lib [] Streams.hermes_partial)
      Streams.hermes_start_id Streams.hermes_end_id in
  let run := run_steps step (steps_of [] [] Streams.hermes_deltas)
                       initial_state in
  run.2 = [ Some (initial_delta 0);
            Some (name_delta 0 (py "f"));
            None;
            Some (arguments_delta 0 (pyq "{'x': 1"));
            Some (arguments_delta 0 []);
            Some (arguments_delta 0 (py "}")) ]
  ∧ emitted_arguments 0 run.2 = pyq "{'x': 1}"
  ∧ streamed_args_for_tool run.1 = [pyq "{'x': 1"]
  ∧ current_tool_id run.1 = 0%Z.
Proof. vm_compute. repeat split. Qed.

(** C5 (the code at the failing input). On the Mistral stream whose first
    tool has the arguments [{"a": 1, "b": {"a": 1, "c": 2}}], with
    [{"a": 1] already streamed when the second tool opens, the new-tool
    branch deletes both occurrences of [{"a": 1] from the serialization and
    emits [, "b": , "c": 2}}]; deleting one occurrence would leave
    [, "b": {"a": 1, "c": 2}}]. *)
Theorem mistral_new_tool_diff_deletes_every_occurrence :
  let step :=
    @Mistral.extract_tool_calls_streaming
      (table_lib [] Streams.mistral_partial) in
  let run := run_steps step (steps_of [] [] Streams.mistral_deltas)
                       initial_state in
  run.2 = [ None;
            None;
            Some (initial_delta 0);
            Some (name_delta 0 (py "f"));
            Some (arguments_delta 0 (pyq "{'a': 1"));
            Some (arguments_delta 0 (pyq ", 'b': , 'c': 2}}")) ]
  ∧ json_dumps Streams.mistral_args = pyq "{'a': 1, 'b': {'a': 1, 'c': 2}}"
  ∧ PyStr.replace (json_dumps Streams.mistral_args) (pyq "{'a': 1") []
                  (Some 1)
    = pyq ", 'b': {'a': 1, 'c': 2}}"
  ∧ current_tool_id run.1 = 1%Z.
Proof. vm_compute. repeat split. Qed.

(** C9 (the code at the failing input). When the first step of a Mistral
    stream already holds two tool calls, the new-tool branch moves
    [current_tool_id] to 1 and appends one string: at the step boundary
    [streamed_args_for_tool] has length 1, not 2. *)
Theorem mistral_cursor_jump_breaks_length_invariant :
  let step :=
    @Mistral.extract_tool_calls_streaming
      (table_lib [] Streams.mistral_two_calls_partial) in
  let run := run_steps step (steps_of [] [] Streams.mistral_two_calls)
                       initial_state in
  run.2 = [None]
  ∧ current_tool_id run.1 = 1%Z
  ∧ streamed_args_for_tool run.1 = [[]]
  ∧ length (streamed_args_for_tool run.1)
    ≠ Z.to_nat (current_tool_id run.1 + 1).
Proof. vm_compute. repeat split. lia. Qed.

(** ** The length invariant in the Hermes dialect *)

Section ShapeRules.
Context {A B : Type}.

Lemma keeps_ret (a : A) : keeps_shape (m_ret a).
Proof. by intros st st' r [= <- _]. Qed.

Lemma keeps_lift (x : result A) : keeps_shape (m_lift x).
Proof. by intros st st' r [= <- _]. Qed.

Lemma keeps_bind (m : M A) (k : A -> M B) :
  keeps_shape m → (∀ a, keeps_shape (k a)) → keeps_shape (m_bind m k).
Proof.
  intros Hm Hk st st' r. unfold m_bind.
  destruct (m st) as [st1 [a|e]] eqn:E.
  - intros Hka. rewrite (Hk a _ _ _ Hka). eapply Hm, E.
  - intros [= <- _]. eapply Hm, E.
Qed.
End ShapeRules.

Lemma keeps_get : keeps_shape m_get.
Proof. by intros st st' r [= <- _]. Qed.

Lemma keeps_modify f :
  (∀ st, cursor_shape (f st) = cursor_shape st) → keeps_shape (m_modify f).
Proof. intros Hf st st' r [= <- _]. apply Hf. Qed.

Lemma keeps_streamed_args_add i s : keeps_shape (streamed_args_add i s).
Proof.
  intros st st' r. unfold streamed_args_add, m_bind, m_get, m_lift, m_modify.
  destruct (list_getitem _ i) as [old|e]; [|by intros [= <- _]].
  unfold list_setitem.
  destruct (norm_index _ i) as [j|]; [|by intros [= <- _]].
  intros [= <- _]. unfold cursor_shape. simpl. by rewrite length_insert.
Qed.

Create HintDb shape discriminated.
#[local] Hint Resolve keeps_ret keeps_lift keeps_get keeps_streamed_args_add
  : shape.

Ltac keeps_step :=
  first
    [ solve [auto with shape]
    | apply keeps_modify; intros ?; reflexivity
    | apply keeps_bind; [|intros ?]
    | match goal with
      | |- keeps_shape (if ?b then _ else _) => destruct b
      | |- keeps_shape (match ?x with _ => _ end) => destruct x
      end ].

Lemma keeps_stream_arguments needle prev_arguments cur_arguments :
  keeps_shape (stream_arguments needle prev_arguments cur_arguments).
Proof. unfold stream_arguments. repeat keeps_step. Qed.

#[local] Hint Resolve keeps_stream_arguments : shape.

Section HermesInvariant.
Context `{JsonLib}.

Lemma keeps_update_arguments x current_tool_call :
  keeps_shape (Hermes.update_arguments x current_tool_call).
Proof. unfold Hermes.update_arguments. repeat keeps_step. Qed.

Lemma keeps_emit x flags portion : keeps_shape (Hermes.emit x flags portion).
Proof.
  pose proof keeps_update_arguments.
  unfold Hermes.emit. repeat keeps_step.
Qed.

Lemma classify_length_invariant x ps pe cs ce st st' r :
  length_invariant st →
  Hermes.classify x ps pe cs ce st = (st', r) →
  length_invariant st'.
Proof.
  intros Hinv. unfold Hermes.classify.
  destruct (_ && _).
  { (* a new tool call: the cursor and the list grow together *)
    unfold m_bind, m_get, m_modify, m_lift, m_ret, streamed_args_append_empty.
    destruct (bool_decide (1 < _)).
    - destruct (list_getitem _ _); intros [= <- _]; [|done].
      unfold length_invariant in *. simpl. rewrite length_app. simpl. lia.
    - intros [= <- _].
      unfold length_invariant in *. simpl. rewrite length_app. simpl. lia. }
  intros Hrun.
  assert (Hkeep : cursor_shape st' = cursor_shape st).
  { revert st st' r Hrun Hinv. intros st st' r Hrun _. revert st st' r Hrun.
    change (keeps_shape
      ((if bool_decide (ce < cs) && bool_decide (cs = ps)
        then
          p <- m_lift (list_getitem
                         (PyStr.split (current_text x)
                                      Hermes.tool_call_start_token) (-1)%Z) ;;
          m_ret (Hermes.Portion (Some p))
        else
          if bool_decide (cs = ce) && bool_decide (pe < ce)
          then
            st <- m_get ;;
            prev_call <- m_lift (Py.getitem (prev_tool_call_arr st)
                                            (current_tool_id st)) ;;
            diff <- m_lift (Py.get prev_call (py "arguments")) ;;
            if Py.truthy diff
            then
              streamed <- m_lift (list_getitem (streamed_args_for_tool st)
                                               (current_tool_id st)) ;;
              let diff := PyStr.replace (json_dumps diff) streamed [] None in
              m_ret (Hermes.Return
                       (Some (arguments_delta (current_tool_id st) diff)))
            else m_lift (Raise UnboundLocalError)
          else m_ret (Hermes.Return None))%parser)).
    repeat keeps_step. }
  unfold length_invariant, cursor_shape in *. injection Hkeep as -> ->. done.
Qed.

(** Every Hermes step keeps [len(streamed_args_for_tool) ==
    current_tool_id + 1]. *)
Lemma hermes_step_length_invariant start_id end_id x st st' d :
  length_invariant st →
  Hermes.extract_tool_calls_streaming start_id end_id x st = (st', d) →
  length_invariant st'.
Proof.
  intros Hinv. unfold Hermes.extract_tool_calls_streaming.
  destruct (negb _); [by intros [= <- _]|].
  unfold run_try, Hermes.streaming_body.
  destruct (_ && _); [by intros [= <- _]|].
  unfold m_bind at 1. unfold m_get at 1. unfold m_bind at 1.
  destruct (Hermes.classify _ _ _ _ _ st) as [st1 [c|e]] eqn:Ec.
  - pose proof (classify_length_invariant _ _ _ _ _ _ _ _ Hinv Ec) as Hinv1.
    destruct c as [delta|portion].
    + by intros [= <- _].
    + destruct (Hermes.emit _ _ _ st1) as [st2 r] eqn:Ee.
      pose proof (keeps_emit _ _ _ _ _ _ Ee) as Hk.
      intros Hst. assert (st' = st2) as -> by (destruct r; by injection Hst).
      unfold length_invariant, cursor_shape in *. by injection Hk as -> ->.
  - pose proof (classify_length_invariant _ _ _ _ _ _ _ _ Hinv Ec) as Hinv1.
    by intros [= <- _].
Qed.

(** So it holds at every step boundary of a Hermes stream. *)
Lemma hermes_run_length_invariant start_id end_id xs st :
  length_invariant st →
  length_invariant
    (run_steps (Hermes.extract_tool_calls_streaming start_id end_id) xs st).1.
Proof.
  revert st; induction xs as [|x xs IH]; intros st Hinv; simpl; [done|].
  destruct (Hermes.extract_tool_calls_streaming _ _ x st) as [st1 d] eqn:E.
  specialize (IH st1 (hermes_step_length_invariant _ _ _ _ _ _ Hinv E)).
  destruct (run_steps _ xs st1) as [st2 ds]. done.
Qed.
End HermesInvariant.

(** ** Emitted arguments are recorded in the Mistral dialect *)

Lemma recorded_same st st' d :
  streamed_args_for_tool st' = streamed_args_for_tool st →
  (∀ i, arguments_of i d = []) →
  recorded st st' d.
Proof.
  intros Hs Hd i. unfold streamed_at. by rewrite Hs, Hd, app_nil_r.
Qed.

Lemma recorded_refl st : recorded st st None.
Proof. by apply recorded_same. Qed.

Lemma arguments_of_arguments_delta i j s :
  arguments_of i (Some (arguments_delta j s))
  = if bool_decide (j = i) then s else [].
Proof.
  unfold arguments_of, arguments_delta. simpl.
  case_bool_decide as H1; case_bool_decide as H2; simpl;
    try by rewrite app_nil_r.
  - by injection H1.
  - by subst.
  - done.
Qed.

Lemma arguments_of_initial_delta i j :
  arguments_of i (Some (initial_delta j)) = [].
Proof. unfold arguments_of. simpl. by case_bool_decide. Qed.

Lemma arguments_of_name_delta i j n :
  arguments_of i (Some (name_delta j n)) = [].
Proof. unfold arguments_of. simpl. by case_bool_decide. Qed.

Lemma streamed_args_add_raise i s st st' e :
  streamed_args_add i s st = (st', Raise e) → st' = st.
Proof.
  unfold streamed_args_add, m_bind, m_get, m_lift, m_modify.
  destruct (list_getitem _ i); [|by intros [= <-]].
  destruct (list_setitem _ i _); [done|by intros [= <-]].
Qed.

Lemma streamed_args_add_ok i s st st' u :
  (0 ≤ i)%Z →
  streamed_args_add i s st = (st', Ok u) →
  recorded st st' (Some (arguments_delta i s))
  ∧ current_tool_id st' = current_tool_id st.
Proof.
  intros Hi. unfold streamed_args_add, m_bind, m_get, m_lift, m_modify.
  unfold list_getitem, list_setitem, norm_index.
  destruct (Z.ltb_spec i 0); [lia|].
  destruct (_ && _) eqn:Hrange; [|done].
  destruct (streamed_args_for_tool st !! Z.to_nat i) as [old|] eqn:Hold;
    [|done].
  intros [= <-]. split; [|done].
  intros k. rewrite arguments_of_arguments_delta. unfold streamed_at. simpl.
  destruct (decide (k = Z.to_nat i)) as [->|Hne].
  - rewrite list_lookup_insert_eq by (by eapply lookup_lt_Some).
    rewrite Hold. simpl. rewrite bool_decide_eq_true_2 by lia. done.
  - rewrite list_lookup_insert_ne by done.
    rewrite bool_decide_eq_false_2 by lia. by rewrite app_nil_r.
Qed.

Lemma stream_arguments_recorded needle prev_arguments cur_arguments st st' r :
  (0 ≤ current_tool_id st)%Z →
  stream_arguments needle prev_arguments cur_arguments st = (st', r) →
  recorded st st' (delta_of r).
Proof.
  intros Hid. unfold stream_arguments. unfold m_bind at 1. unfold m_get at 1.
  destruct (_ && _); [intros [= <- <-]; apply recorded_refl|].
  destruct (_ && _); [intros [= <- <-]; apply recorded_refl|].
  destruct (_ && _).
  { unfold m_bind at 1. unfold m_lift at 1.
    destruct (str_index _ _) as [i|e];
      [|intros [= <- <-]; apply recorded_refl].
    unfold m_bind, m_ret.
    destruct (streamed_args_add _ _ st) as [st1 [u|e]] eqn:E.
    - intros [= <- <-]. simpl. by apply (streamed_args_add_ok _ _ _ _ u).
    - intros [= <- <-]. apply streamed_args_add_raise in E as ->.
      apply recorded_refl. }
  destruct (_ && _); [|intros [= <- <-]; apply recorded_refl].
  unfold m_bind, m_ret.
  destruct (streamed_args_add _ _ st) as [st1 [u|e]] eqn:E.
  - intros [= <- <-]. simpl. by apply (streamed_args_add_ok _ _ _ _ u).
  - intros [= <- <-]. apply streamed_args_add_raise in E as ->.
    apply recorded_refl.
Qed.

Section MistralRecording.
Context `{JsonLib}.

Lemma update_tool_recorded x current_tool_call st st' r :
  (0 ≤ current_tool_id st)%Z →
  Mistral.update_tool x current_tool_call st = (st', r) →
  recorded st st' (delta_of r)
  ∧ current_tool_id st' = current_tool_id st.
Proof.
  intros Hid. unfold Mistral.update_tool.
  unfold m_bind at 1. unfold m_get at 1.
  destruct (negb (current_tool_initial_sent st)).
  { unfold m_bind, m_ret, m_modify.
    intros [= <- <-]. split; [|done].
    apply recorded_same; [done|]. intros i. apply arguments_of_initial_delta. }
  destruct (negb (current_tool_name_sent st)).
  { unfold m_bind, m_lift, m_ret, m_modify.
    destruct (Py.get current_tool_call _) as [fn|e];
      [|intros [= <- <-]; split; [apply recorded_refl|done]].
    destruct (Py.truthy fn);
      [|intros [= <- <-]; split; [apply recorded_refl|done]].
    destruct (as_str fn); intros [= <- <-]; (split; [|done]).
    - apply recorded_same; [done|]. intros i. apply arguments_of_name_delta.
    - by apply recorded_same. }
  unfold m_bind at 1. unfold m_lift at 1.
  destruct (Py.getitem _ _);
    [|intros [= <- <-]; split; [apply recorded_refl|done]].
  unfold m_bind at 1. unfold m_lift at 1.
  destruct (Py.get _ _);
    [|intros [= <- <-]; split; [apply recorded_refl|done]].
  unfold m_bind at 1. unfold m_lift at 1.
  destruct (Py.get _ _);
    [|intros [= <- <-]; split; [apply recorded_refl|done]].
  intros Hrun. split; [by eapply stream_arguments_recorded|].
  pose proof (keeps_stream_arguments _ _ _ _ _ _ Hrun) as Hk.
  by injection Hk.
Qed.

Lemma start_new_tool_recorded current_tool_call n st st' r :
  Mistral.start_new_tool current_tool_call n st = (st', r) →
  recorded st st' (delta_of r).
Proof.
  unfold Mistral.start_new_tool.
  unfold m_bind at 1. unfold m_get at 1. unfold m_bind at 1.
  set (block := (if (0 <=? current_tool_id st)%Z then _ else _)).
  destruct (block st) as [st1 r1] eqn:Eb.
  assert (Hb : recorded st st1 (delta_of r1)
               ∧ (∀ e, r1 = Raise e → st1 = st)).
  { subst block. destruct (Z.leb_spec 0 (current_tool_id st)) as [Hid|Hid].
    2:{ injection Eb as <- <-. split; [apply recorded_refl|done]. }
    revert Eb. unfold m_bind at 1. unfold m_lift at 1.
    destruct (Py.get _ _) as [diff|e];
      [|intros [= <- <-]; split; [apply recorded_refl|done]].
    destruct (Py.truthy diff);
      [|intros [= <- <-]; split; [apply recorded_refl|done]].
    unfold m_bind at 1. unfold m_lift at 1.
    destruct (list_getitem _ _) as [streamed|e];
      [|intros [= <- <-]; split; [apply recorded_refl|done]].
    unfold m_bind, m_ret.
    destruct (streamed_args_add _ _ st) as [st2 [u|e]] eqn:E.
    - intros [= <- <-]. split; [|done]. simpl.
      by apply (streamed_args_add_ok _ _ _ _ u).
    - intros [= <- <-]. apply streamed_args_add_raise in E as ->.
      split; [apply recorded_refl|done]. }
  destruct Hb as [Hrec Hraise]. destruct r1 as [delta|e].
  - unfold m_bind, m_modify, m_ret, streamed_args_append_empty.
    intros [= <- <-]. simpl in *. intros i. rewrite <- Hrec.
    unfold streamed_at. simpl.
    destruct (decide (i < length (streamed_args_for_tool st1))) as [Hlt|Hge].
    + by rewrite lookup_app_l.
    + rewrite (lookup_ge_None_2 (streamed_args_for_tool st1)) by lia.
      destruct (decide (i = length (streamed_args_for_tool st1))) as [->|Hne].
      * by rewrite list_lookup_middle.
      * rewrite lookup_ge_None_2; [done|]. rewrite length_app. simpl. lia.
  - intros [= <- <-]. rewrite (Hraise e) by done. apply recorded_refl.
Qed.

Lemma mistral_body_recorded x flags st st' r :
  Mistral.streaming_body x flags st = (st', r) →
  recorded st st' (delta_of r).
Proof.
  unfold Mistral.streaming_body.
  unfold m_bind at 1. unfold m_lift at 1.
  destruct (list_getitem _ _); [|intros [= <- <-]; apply recorded_refl].
  unfold m_bind at 1. unfold m_lift at 1.
  destruct (partial_json_loads _ _) as [arr|e];
    [|intros [= <- <-]; apply recorded_refl].
  unfold m_bind at 1. unfold m_get at 1.
  unfold m_bind at 1. unfold m_lift at 1.
  destruct (Py.getitem _ _) as [call|e];
    [|intros [= <- <-]; apply recorded_refl].
  unfold m_bind at 1. unfold m_lift at 1.
  destruct (Py.len arr) as [n|e]; [|intros [= <- <-]; apply recorded_refl].
  destruct (_ && _); [apply start_new_tool_recorded|].
  destruct (_ && _) eqn:Hsame; [|intros [= <- <-]; apply recorded_refl].
  apply andb_true_iff in Hsame as [_ Hid]. apply Z.leb_le in Hid.
  unfold m_bind at 1.
  destruct (Mistral.update_tool x call st) as [st1 [delta|e]] eqn:Eu.
  - destruct (update_tool_recorded _ _ _ _ _ Hid Eu) as [Hrec _].
    unfold m_bind, m_modify, m_ret. intros [= <- <-]. exact Hrec.
  - destruct (update_tool_recorded _ _ _ _ _ Hid Eu) as [Hrec _].
    intros [= <- <-]. exact Hrec.
Qed.

(** Every Mistral step records the arguments text it returns. *)
Lemma mistral_step_recorded x st st' d :
  Mistral.extract_tool_calls_streaming x st = (st', d) →
  recorded st st' d.
Proof.
  unfold Mistral.extract_tool_calls_streaming.
  destruct (negb _); [intros [= <- <-]; by apply recorded_same|].
  destruct (_ && _); [intros [= <- <-]; apply recorded_refl|].
  unfold run_try.
  destruct (Mistral.streaming_body _ _ st) as [st1 r] eqn:E.
  apply mistral_body_recorded in E.
  destruct r; intros [= <- <-]; exact E.
Qed.

(** So at every step boundary of a Mistral stream, [streamed_args_for_tool[i]]
    is the concatenation of the arguments deltas emitted for tool [i]. *)
Lemma mistral_run_recorded xs i :
  let run := run_steps Mistral.extract_tool_calls_streaming xs initial_state in
  streamed_at run.1 i = emitted_arguments (Z.of_nat i) run.2.
Proof.
  simpl.
  assert (Hgen : ∀ st,
    let run := run_steps Mistral.extract_tool_calls_streaming xs st in
    streamed_at run.1 i = streamed_at st i ++ emitted_arguments (Z.of_nat i) run.2).
  { induction xs as [|x xs IH]; intros st; simpl.
    - by rewrite app_nil_r.
    - destruct (Mistral.extract_tool_calls_streaming x st) as [st1 d] eqn:E.
      specialize (IH st1). simpl in IH.
      destruct (run_steps _ xs st1) as [st2 ds]. simpl in *.
      rewrite IH. rewrite (mistral_step_recorded _ _ _ _ E i).
      unfold emitted_arguments. simpl. by rewrite app_assoc. }
  by rewrite Hgen.
Qed.
End MistralRecording.

(** ** The length invariant in the Mistral dialect *)

Section MistralInvariant.
Context `{JsonLib}.

Lemma keeps_update_tool x current_tool_call :
  keeps_shape (Mistral.update_tool x current_tool_call).
Proof. unfold Mistral.update_tool. repeat keeps_step. Qed.

(** The new-tool branch either raises before touching the cursor or sets it
    to [n - 1] and appends one string. *)
Lemma start_new_tool_shape current_tool_call n st st' r :
  Mistral.start_new_tool current_tool_call n st = (st', r) →
  cursor_shape st' = cursor_shape st
  ∨ cursor_shape st' = ((n - 1)%Z, S (length (streamed_args_for_tool st))).
Proof.
  unfold Mistral.start_new_tool.
  unfold m_bind at 1. unfold m_get at 1. unfold m_bind at 1.
  set (block := (if (0 <=? current_tool_id st)%Z then _ else _)).
  assert (Hk : keeps_shape block).
  { subst block. repeat keeps_step. }
  destruct (block st) as [st1 [delta|e]] eqn:Eb.
  - apply Hk in Eb.
    unfold m_bind, m_modify, m_ret, streamed_args_append_empty.
    intros [= <- _]. right. unfold cursor_shape in *. simpl.
    injection Eb as _ Hlen. rewrite length_app, Hlen. simpl. f_equal. lia.
  - apply Hk in Eb. intros [= <- _]. by left.
Qed.

(** A Mistral step keeps the invariant unless it moves the cursor forward by
    more than one. *)
Lemma mistral_step_length_invariant x st st' d :
  length_invariant st →
  Mistral.extract_tool_calls_streaming x st = (st', d) →
  length_invariant st' ∨ (current_tool_id st + 1 < current_tool_id st')%Z.
Proof.
  intros Hinv. unfold Mistral.extract_tool_calls_streaming.
  destruct (negb _); [intros [= <- _]; by left|].
  destruct (_ && _); [intros [= <- _]; by left|].
  unfold run_try.
  destruct (Mistral.streaming_body _ _ st) as [st1 r] eqn:E.
  intros Hst. assert (st' = st1) as -> by (destruct r; by injection Hst).
  clear Hst. revert E. unfold Mistral.streaming_body.
  unfold m_bind at 1. unfold m_lift at 1.
  destruct (list_getitem _ _); [|intros [= <- _]; by left].
  unfold m_bind at 1. unfold m_lift at 1.
  destruct (partial_json_loads _ _) as [arr|e]; [|intros [= <- _]; by left].
  unfold m_bind at 1. unfold m_get at 1.
  unfold m_bind at 1. unfold m_lift at 1.
  destruct (Py.getitem _ _) as [call|e]; [|intros [= <- _]; by left].
  unfold m_bind at 1. unfold m_lift at 1.
  destruct (Py.len arr) as [n|e]; [|intros [= <- _]; by left].
  destruct (_ && _) eqn:Hnew.
  { apply andb_true_iff in Hnew as [_ Hn]. apply Z.ltb_lt in Hn.
    intros E. apply start_new_tool_shape in E as [E|E];
      unfold length_invariant, cursor_shape in *.
    - left. injection E as E1 E2. rewrite E1, E2. done.
    - injection E as Hid Hlen.
      destruct (decide (n - 1 = current_tool_id st + 1)%Z).
      + left. lia.
      + right. lia. }
  clear Hnew.
  destruct (_ && _); [|unfold m_ret; intros [= <- _]; by left].
  unfold m_bind at 1.
  destruct (Mistral.update_tool x call st) as [st2 [delta|e]] eqn:Eu.
  - apply keeps_update_tool in Eu.
    unfold m_bind, m_modify, m_ret. intros [= <- _]. left.
    unfold length_invariant, cursor_shape in *. simpl.
    by injection Eu as -> ->.
  - apply keeps_update_tool in Eu. intros [= <- _]. left.
    unfold length_invariant, cursor_shape in *. by injection Eu as -> ->.
Qed.
End MistralInvariant.

(** ** What the two flush branches compute *)

Lemma streamed_args_add_run i s st old :
  (0 ≤ i)%Z →
  list_getitem (streamed_args_for_tool st) i = Ok old →
  streamed_args_add i s st
  = (set_streamed_args_for_tool
       (<[Z.to_nat i := old ++ s]> (streamed_args_for_tool st)) st, Ok tt)
  ∧ Z.to_nat i < length (streamed_args_for_tool st).
Proof.
  intros Hi. unfold streamed_args_add, m_bind, m_get, m_lift, m_modify.
  unfold list_getitem, list_setitem, norm_index.
  destruct (Z.ltb_spec i 0); [lia|].
  destruct (_ && _); [|done].
  destruct (streamed_args_for_tool st !! Z.to_nat i) eqn:Hold; [|done].
  intros [= ->]. split; [done|]. by eapply lookup_lt_Some.
Qed.

Section FlushBranches.
Context `{JsonLib}.

(** The Mistral new-tool branch emits the serialization of the previous
    tool's arguments with every non-overlapping occurrence of the streamed
    text deleted ([str.replace] without a count), and appends it. *)
Lemma start_new_tool_flush current_tool_call n st args streamed :
  (0 ≤ current_tool_id st)%Z →
  Py.get current_tool_call (py "arguments") = Ok args →
  Py.truthy args = true →
  list_getitem (streamed_args_for_tool st) (current_tool_id st) = Ok streamed →
  ∃ st',
    Mistral.start_new_tool current_tool_call n st
    = (st', Ok (Some (arguments_delta (current_tool_id st)
                        (PyStr.replace (json_dumps args) streamed [] None))))
    ∧ streamed_at st' (Z.to_nat (current_tool_id st))
      = streamed ++ PyStr.replace (json_dumps args) streamed [] None.
Proof.
  intros Hid Hargs Htruthy Hstreamed.
  destruct (streamed_args_add_run (current_tool_id st)
              (PyStr.replace (json_dumps args) streamed [] None) st streamed
              Hid Hstreamed) as [Hadd Hlt].
  unfold Mistral.start_new_tool.
  unfold m_bind at 1. unfold m_get at 1. unfold m_bind at 1.
  rewrite (proj2 (Z.leb_le _ _) Hid).
  unfold m_bind at 1. unfold m_lift at 1. rewrite Hargs, Htruthy.
  unfold m_bind at 1. unfold m_lift at 1. rewrite Hstreamed.
  unfold m_bind at 1. rewrite Hadd.
  unfold m_bind, m_ret, m_modify, streamed_args_append_empty.
  eexists. split; [reflexivity|].
  unfold streamed_at. simpl.
  rewrite lookup_app_l by (by rewrite length_insert).
  by rewrite list_lookup_insert_eq.
Qed.

(** The Hermes closing branch returns the same kind of delta and leaves the
    state as it was. *)
Lemma classify_closing_unrecorded x ps pe cs ce st call args streamed :
  cs = ce → pe < ce →
  Py.getitem (prev_tool_call_arr st) (current_tool_id st) = Ok call →
  Py.get call (py "arguments") = Ok args →
  Py.truthy args = true →
  list_getitem (streamed_args_for_tool st) (current_tool_id st) = Ok streamed →
  Hermes.classify x ps pe cs ce st
  = (st, Ok (Hermes.Return
               (Some (arguments_delta (current_tool_id st)
                        (PyStr.replace (json_dumps args) streamed [] None))))).
Proof.
  intros -> Hlt Hcall Hargs Htruthy Hstreamed. unfold Hermes.classify.
  rewrite (bool_decide_eq_false_2 (ce < ce)) by lia. rewrite !andb_false_l.
  rewrite (bool_decide_eq_true_2 (ce = ce)) by done.
  rewrite (bool_decide_eq_true_2 (pe < ce)) by done. rewrite andb_true_l.
  unfold m_bind, m_get, m_lift, m_ret.
  rewrite Hcall. cbv beta iota. rewrite Hargs. cbv beta iota.
  rewrite Htruthy. by rewrite Hstreamed.
Qed.
End FlushBranches.

(* ===================================================================== *)
(** * Further properties of the code *)
(* ===================================================================== *)

(** ** Diff utilities, continued *)

Lemma common_while_comm ok s1 s2 :
  common_while ok s1 s2 = common_while ok s2 s1.
Proof.
  revert s2; induction s1 as [|c1 r1 IH]; intros [|c2 r2]; simpl; try done.
  destruct (decide (c1 = c2)) as [->|Hne].
  - by rewrite IH.
  - rewrite (bool_decide_eq_false_2 (c1 = c2)) by done.
    rewrite (bool_decide_eq_false_2 (c2 = c1)) by congruence. done.
Qed.

(** X1. As the docstrings say, the order of the arguments does not matter to
    [find_common_prefix] and [find_common_suffix]. *)
Theorem find_common_prefix_suffix_comm (s1 s2 : str) :
  find_common_prefix s1 s2 = find_common_prefix s2 s1
  ∧ find_common_suffix s1 s2 = find_common_suffix s2 s1.
Proof.
  rewrite !find_common_prefix_spec, !find_common_suffix_spec.
  split; [apply common_while_comm|]. f_equal. apply common_while_comm.
Qed.

Lemma common_while_app_l ok t r1 r2 :
  Forall (λ c, ok c = true) t →
  common_while ok (t ++ r1) (t ++ r2) = t ++ common_while ok r1 r2.
Proof.
  induction 1 as [|c t Hc _ IH]; simpl; [done|].
  rewrite bool_decide_eq_true_2 by done. rewrite Hc. simpl. by rewrite IH.
Qed.

Lemma common_while_self s : common_while (λ _, true) s s = s.
Proof.
  induction s as [|c s IH]; simpl; [done|].
  rewrite bool_decide_eq_true_2 by done. simpl. by rewrite IH.
Qed.

Lemma common_while_prefix_of s k : common_while (λ _, true) (s ++ k) s = s.
Proof.
  induction s as [|c s IH]; simpl; [by destruct k|].
  rewrite bool_decide_eq_true_2 by done. simpl. by rewrite IH.
Qed.

(** The common suffix of [u ++ x ++ t] and [v ++ t] is [t] when [t] holds no
    alphanumeric character and [x] ends in one. *)
Lemma find_common_suffix_growth u v x c t :
  Forall (λ a, PyStr.isalnum a = false) t →
  PyStr.isalnum c = true →
  find_common_suffix (u ++ (x ++ [c]) ++ t) (v ++ t) = t.
Proof.
  intros Ht Hc. rewrite find_common_suffix_spec.
  rewrite !reverse_app, <- !app_assoc. rewrite reverse_singleton.
  rewrite common_while_app_l.
  2:{ apply Forall_reverse. eapply Forall_impl; [exact Ht|].
      intros a Ha. simpl in Ha. by rewrite Ha. }
  simpl. destruct (reverse v) as [|d w]; simpl.
  - by rewrite app_nil_r, reverse_involutive.
  - rewrite Hc. simpl. rewrite andb_false_r.
    by rewrite app_nil_r, reverse_involutive.
Qed.

(** X2. When the new serialization is the old one with [x] inserted in front
    of its closing punctuation [t] (no alphanumeric character in [t], an
    alphanumeric character at the end of [x]), the diff is exactly [x]. *)
Theorem extract_intermediate_diff_growth (u x t : str) (c : ascii) :
  Forall (λ a, PyStr.isalnum a = false) t →
  PyStr.isalnum c = true →
  extract_intermediate_diff (u ++ (x ++ [c]) ++ t) (u ++ t) = x ++ [c].
Proof.
  intros Ht Hc.
  pose proof (find_common_suffix_growth u u x c t Ht Hc) as Hs.
  assert (Hold : take (length (u ++ t) - length t) (u ++ t) = u).
  { rewrite length_app.
    replace (length u + length t - length t) with (length u) by lia.
    by rewrite take_app_length. }
  assert (Hp : find_common_prefix (u ++ (x ++ [c]) ++ t) u = u).
  { rewrite find_common_prefix_spec. apply common_while_prefix_of. }
  rewrite extract_intermediate_diff_middle; rewrite Hs, Hold, Hp.
  - rewrite !length_app. simpl.
    replace (length u + (length x + 1 + length t) - length t)
      with (length (u ++ (x ++ [c]))) by (rewrite !length_app; simpl; lia).
    rewrite (app_assoc u (x ++ [c]) t).
    rewrite take_app_length. by rewrite drop_app_length.
  - rewrite !length_app. simpl. lia.
Qed.

Lemma extract_intermediate_diff_growth_witness :
  extract_intermediate_diff (pyq "{'fruit': 'apple'}") (pyq "{'fruit': 'ap'}")
  = py "ple".
Proof.
  apply (extract_intermediate_diff_growth
           (pyq "{'fruit': 'ap") (py "pl") (pyq "'}") "e"%char).
  - repeat constructor.
  - reflexivity.
Defined.

(** X3. Serializations that did not change give an empty diff. *)
Theorem extract_intermediate_diff_same (s : str) :
  extract_intermediate_diff s s = [].
Proof.
  destruct (find_common_suffix_suffix_l s s) as [u Hu].
  remember (find_common_suffix s s) as t eqn:Ht.
  assert (Hlen : length s = length u + length t).
  { rewrite Hu at 1. apply length_app. }
  assert (Hold : take (length s - length t) s = u).
  { replace (length s - length t) with (length u) by lia.
    rewrite Hu. apply take_app_length. }
  assert (Hp : find_common_prefix s u = u).
  { rewrite find_common_prefix_spec. rewrite Hu.
    apply common_while_prefix_of. }
  rewrite extract_intermediate_diff_middle; rewrite <- Ht, Hold, Hp.
  - by rewrite drop_all.
  - lia.
Qed.

(** ** [find_all_indices] *)

Lemma startswith_prefix sub s :
  PyStr.startswith sub s = true ↔ sub `prefix_of` s.
Proof.
  revert s; induction sub as [|a sub IH]; intros s; simpl.
  - split; [intros _; apply prefix_nil|done].
  - destruct s as [|b s].
    + split; [done|]. intros [k Hk]. discriminate Hk.
    + rewrite andb_true_iff, bool_decide_eq_true, IH. split.
      * intros [-> Hp]. by apply prefix_cons.
      * intros [k Hk]. injection Hk as -> ->. split; [done|]. by exists k.
Qed.

Lemma find_from_spec sub t k :
  match PyStr.find_from sub t k with
  | Some i =>
    ∃ d, i = k + d ∧ d ≤ length t
         ∧ PyStr.startswith sub (drop d t) = true
         ∧ ∀ d', d' < d → PyStr.startswith sub (drop d' t) = false
  | None => ∀ d, d ≤ length t → PyStr.startswith sub (drop d t) = false
  end.
Proof.
  revert k; induction t as [|c t IH]; intros k.
  - simpl. destruct (PyStr.startswith sub []) eqn:E.
    + exists 0. repeat split; [lia|lia|done|lia].
    + intros d Hd. by rewrite drop_nil.
  - cbn [PyStr.find_from].
    destruct (PyStr.startswith sub (c :: t)) eqn:E.
    + exists 0. repeat split; [lia|simpl; lia|done|lia].
    + specialize (IH (S k)). destruct (PyStr.find_from sub t (S k)) as [i|].
      * destruct IH as (d & -> & Hd & Hat & Hmin). exists (S d).
        repeat split; [lia|simpl; lia|done|].
        intros [|d'] Hlt; [done|]. simpl. apply Hmin. lia.
      * intros [|d] Hd; [done|]. simpl. apply IH. simpl in Hd. lia.
Qed.

Lemma find_at_Some s sub start i :
  PyStr.find_at s sub start = Some i →
  start ≤ i ≤ length s
  ∧ PyStr.startswith sub (drop i s) = true
  ∧ ∀ j, start ≤ j < i → PyStr.startswith sub (drop j s) = false.
Proof.
  unfold PyStr.find_at. case_bool_decide as Hs; [|done].
  pose proof (find_from_spec sub (drop start s) start) as Hspec.
  intros E. rewrite E in Hspec.
  destruct Hspec as (d & -> & Hd & Hat & Hmin).
  rewrite length_drop in Hd. rewrite drop_drop in Hat.
  repeat split; [lia|lia|done|].
  intros j [Hj1 Hj2]. specialize (Hmin (j - start)).
  rewrite drop_drop in Hmin.
  replace (start + (j - start)) with j in Hmin by lia. apply Hmin. lia.
Qed.

Lemma find_at_None s sub start :
  PyStr.find_at s sub start = None →
  ∀ j, start ≤ j ≤ length s → PyStr.startswith sub (drop j s) = false.
Proof.
  unfold PyStr.find_at. case_bool_decide as Hs; [|intros _ j; lia].
  pose proof (find_from_spec sub (drop start s) start) as Hspec.
  intros E. rewrite E in Hspec. intros j [Hj1 Hj2].
  specialize (Hspec (j - start)). rewrite drop_drop, length_drop in Hspec.
  replace (start + (j - start)) with j in Hspec by lia. apply Hspec. lia.
Qed.

Lemma find_all_indices_loop_spec string substring fuel start acc :
  start ≤ S (length string) →
  S (length string) - start < fuel →
  ∃ l,
    find_all_indices_loop fuel string substring start acc = Some (acc ++ l)
    ∧ StronglySorted lt l
    ∧ ∀ i, i ∈ l ↔ (start ≤ i ≤ length string
                    ∧ PyStr.startswith substring (drop i string) = true).
Proof.
  revert start acc; induction fuel as [|fuel IH]; intros start acc Hs Hf;
    [lia|].
  simpl. destruct (PyStr.find_at string substring start) as [idx|] eqn:E.
  - apply find_at_Some in E as ([Hi1 Hi2] & Hat & Hmin).
    destruct (IH (idx + 1) (acc ++ [idx])) as (l & -> & Hsorted & Hmem);
      [lia|lia|].
    exists (idx :: l). split; [by rewrite <- app_assoc|]. split.
    + constructor; [done|]. apply Forall_forall. intros j Hj.
      apply Hmem in Hj. lia.
    + intros i. rewrite elem_of_cons, Hmem. split.
      * intros [->|[[Hj1 Hj2] Hj]]; (split; [lia|done]).
      * intros [[Hj1 Hj2] Hj].
        destruct (decide (i = idx)) as [|Hne]; [by left|right].
        split; [|done]. split; [|done].
        destruct (decide (i < idx)) as [Hlt|]; [|lia].
        rewrite Hmin in Hj by lia. done.
  - exists []. split; [by rewrite app_nil_r|]. split; [constructor|].
    intros i. split; [by intros ?%elem_of_nil|].
    intros [Hr Hat]. rewrite (find_at_None _ _ _ E) in Hat by lia. done.
Qed.

Lemma sorted_lt_NoDup (l : list nat) : StronglySorted lt l → NoDup l.
Proof.
  induction 1 as [|x l _ IH Hx]; constructor; [|done].
  intros Hin. rewrite Forall_forall in Hx. specialize (Hx x Hin). lia.
Qed.

Lemma sorted_lt_ext (l1 l2 : list nat) :
  StronglySorted lt l1 → StronglySorted lt l2 →
  (∀ x, x ∈ l1 ↔ x ∈ l2) → l1 = l2.
Proof.
  intros H1 H2 Hmem.
  apply (StronglySorted_unique_strong lt); [|done|done|].
  - intros x y _ _ Hxy Hyx. lia.
  - apply NoDup_Permutation; [by apply sorted_lt_NoDup..|done].
Qed.

Lemma sorted_lt_seq k n : StronglySorted lt (seq k n).
Proof.
  revert k; induction n as [|n IH]; intros k; simpl; constructor; [apply IH|].
  apply Forall_forall. intros j Hj. apply elem_of_seq in Hj. lia.
Qed.

(** X4. [find_all_indices] ends, and returns in ascending order exactly the
    positions at which [substring] occurs in [string], overlapping
    occurrences included; for the empty [substring] these are all positions
    from 0 to [len(string)]. More fuel than [len(string) + 2] changes
    nothing. *)
Theorem find_all_indices_correct (string substring : str) :
  ∃ indices,
    find_all_indices string substring = Some indices
    ∧ StronglySorted lt indices
    ∧ (∀ i, i ∈ indices ↔
            i ≤ length string ∧ substring `prefix_of` drop i string)
    ∧ (∀ fuel, length string + 2 ≤ fuel →
               find_all_indices_loop fuel string substring 0 []
               = Some indices)
    ∧ (substring = [] → indices = seq 0 (S (length string))).
Proof.
  destruct (find_all_indices_loop_spec string substring
              (length string + 2) 0 []) as (l & Hrun & Hsorted & Hmem);
    [lia|lia|].
  exists l. split; [exact Hrun|]. split; [exact Hsorted|].
  assert (Hmem' : ∀ i, i ∈ l ↔
            i ≤ length string ∧ substring `prefix_of` drop i string).
  { intros i. rewrite Hmem, startswith_prefix. split.
    - intros [[_ ?] ?]. done.
    - intros [? ?]. split; [lia|done]. }
  split; [exact Hmem'|]. split.
  - intros fuel Hfuel.
    destruct (find_all_indices_loop_spec string substring fuel 0 [])
      as (l' & Hrun' & Hsorted' & Hmem2); [lia|lia|].
    rewrite Hrun'. f_equal. simpl.
    apply sorted_lt_ext; [done|done|].
    intros x. by rewrite Hmem, Hmem2.
  - intros ->.
    apply sorted_lt_ext; [done|apply sorted_lt_seq|].
    intros x. rewrite Hmem', elem_of_seq. split.
    + intros [? _]. lia.
    + intros [_ ?]. split; [lia|apply prefix_nil].
Qed.

(** ** Constructors *)

(** X5. [Hermes2ProToolParser.__init__] succeeds exactly when the tokenizer
    is truthy and its vocabulary maps both tag literals to non-zero ids; the
    parser then starts from the initial state with these two ids. With a
    truthy tokenizer, a tag missing from the vocabulary raises [KeyError]. *)
Theorem hermes_init_ok_iff (t : Hermes.Tokenizer) (p : Hermes.Parser) :
  (Hermes.init (Some t) = Ok p ↔
   Hermes.tokenizer_len t ≠ 0
   ∧ ∃ start_id end_id,
       Hermes.vocab t !! Hermes.tool_call_start_token = Some start_id
       ∧ Hermes.vocab t !! Hermes.tool_call_end_token = Some end_id
       ∧ start_id ≠ 0%Z ∧ end_id ≠ 0%Z
       ∧ p = {| Hermes.state := initial_state;
                Hermes.tool_call_start_token_id := start_id;
                Hermes.tool_call_end_token_id := end_id |})
  ∧ (Hermes.tokenizer_len t ≠ 0 →
     Hermes.vocab t !! Hermes.tool_call_start_token = None
     ∨ Hermes.vocab t !! Hermes.tool_call_end_token = None →
     Hermes.init (Some t) = Raise KeyError).
Proof.
  unfold Hermes.init, Hermes.vocab_getitem, mbind, result_mbind, result_bind.
  split; [split|].
  - case_bool_decide as Hlen; [done|].
    destruct (Hermes.vocab t !! Hermes.tool_call_start_token) as [s|];
      [|done].
    destruct (Hermes.vocab t !! Hermes.tool_call_end_token) as [e|]; [|done].
    destruct (Z.eqb_spec s 0); [done|]. destruct (Z.eqb_spec e 0); [done|].
    simpl. intros [= <-]. split; [done|]. by exists s, e.
  - intros (Hlen & s & e & -> & -> & Hs & He & ->).
    rewrite bool_decide_eq_false_2 by done.
    destruct (Z.eqb_spec s 0); [done|]. by destruct (Z.eqb_spec e 0).
  - intros Hlen Hmiss. rewrite bool_decide_eq_false_2 by done.
    destruct (Hermes.vocab t !! Hermes.tool_call_start_token) as [s|];
      [|done].
    destruct Hmiss as [Hmiss|Hmiss]; [done|]. by rewrite Hmiss.
Qed.

(** X6. [OpenAIServingChat.__init__] ends in one of three ways: without
    [enable_auto_tools] no parser class is kept, whatever [tool_parser] says;
    with it, the parser class is the one named ["mistral"] or ["hermes"]; with
    it and any other [tool_parser], [TypeError] is raised. So a constructed
    server has a parser class exactly when auto tool choice is enabled, and
    its stream generator builds a parser instance exactly then. *)
Theorem serving_init_parser_iff_auto_tools
    (enable : option bool) (name : option str) :
  (default false enable = false →
   Serving.init enable name
   = Ok {| Serving.enable_auto_tools := false; Serving.tool_parser := None |})
  ∧ (default false enable = true →
     Serving.init enable name =
     if bool_decide (name = Some (py "mistral")) then
       Ok {| Serving.enable_auto_tools := true;
             Serving.tool_parser := Some Serving.MistralClass |}
     else if bool_decide (name = Some (py "hermes")) then
       Ok {| Serving.enable_auto_tools := true;
             Serving.tool_parser := Some Serving.HermesClass |}
     else Raise TypeError)
  ∧ (∀ self, Serving.init enable name = Ok self →
       Serving.has_parser self = Serving.enable_auto_tools self
       ∧ ∀ `{JsonLib} tokenizer tp,
           Serving.make_parser self tokenizer = Ok tp →
           (is_Some tp ↔ Serving.enable_auto_tools self = true)).
Proof.
  unfold Serving.init. split; [by intros ->|]. split; [by intros ->|].
  intros self Hinit.
  assert (Hself : Serving.has_parser self = Serving.enable_auto_tools self
                  ∧ (Serving.enable_auto_tools self = false →
                     Serving.tool_parser self = None)
                  ∧ (Serving.enable_auto_tools self = true →
                     is_Some (Serving.tool_parser self))).
  { destruct (default false enable).
    - repeat case_bool_decide; try done; injection Hinit as <-;
        (split; [done|split; [done|by eexists]]).
    - injection Hinit as <-. done. }
  destruct Hself as (Hhas & Hoff & Hon). split; [done|].
  intros lib tokenizer tp. unfold Serving.make_parser.
  destruct (Serving.enable_auto_tools self).
  - destruct (Hon eq_refl) as [[] ->].
    + intros [= <-]. split; [done|by eexists].
    + destruct (Hermes.init tokenizer); simpl; [|done].
      intros [= <-]. split; [done|by eexists].
  - rewrite (Hoff eq_refl). intros [= <-]. split; [|done].
    by intros [? ?].
Qed.

(** ** Complete extraction *)

Lemma mapM_Forall2 {A B} (f : A -> result B) l ys :
  Py.mapM f l = Ok ys → Forall2 (λ x y, f x = Ok y) l ys.
Proof.
  revert ys; induction l as [|x l IH]; intros ys; simpl.
  - intros [= <-]. constructor.
  - unfold mbind, result_mbind, result_bind.
    destruct (f x) as [y|] eqn:E; [|done].
    destruct (Py.mapM f l) as [ys'|]; [|done].
    intros [= <-]. constructor; [done|by apply IH].
Qed.

Lemma mapM_Ok {A B} (f : A -> result B) l ys :
  Forall2 (λ x y, f x = Ok y) l ys → Py.mapM f l = Ok ys.
Proof.
  induction 1 as [|x y l ys Hx _ IH]; simpl; [done|].
  unfold mbind, result_mbind, result_bind. by rewrite Hx, IH.
Qed.

Lemma mapM_raises {A B} (f : A -> result B) l x :
  x ∈ l → (∃ e, f x = Raise e) → ∃ e, Py.mapM f l = Raise e.
Proof.
  intros Hin [e He]. induction l as [|a l IH]; [by apply elem_of_nil in Hin|].
  simpl. unfold mbind, result_mbind, result_bind.
  destruct (f a) as [y|e'] eqn:Ea; [|eauto].
  apply elem_of_cons in Hin as [->|Hin]; [congruence|].
  destruct (IH Hin) as [e'' ->]. eauto.
Qed.

Lemma find_Some_spec s sub i :
  PyStr.find s sub = Some i →
  i ≤ length s
  ∧ sub `prefix_of` drop i s
  ∧ ∀ j, j < i → ¬ sub `prefix_of` drop j s.
Proof.
  unfold PyStr.find. pose proof (find_from_spec sub s 0) as Hspec.
  intros E. rewrite E in Hspec. destruct Hspec as (d & -> & Hd & Hat & Hmin).
  simpl. split; [done|]. split; [by apply startswith_prefix|].
  intros j Hj Hp. apply startswith_prefix in Hp. by rewrite Hmin in Hp.
Qed.

Lemma find_None_spec s sub j :
  PyStr.find s sub = None → j ≤ length s → ¬ sub `prefix_of` drop j s.
Proof.
  unfold PyStr.find. pose proof (find_from_spec sub s 0) as Hspec.
  intros E. rewrite E in Hspec. intros Hj Hp.
  apply startswith_prefix in Hp. by rewrite Hspec in Hp.
Qed.

(** The first occurrence, as a decomposition of the string. *)
Lemma find_Some_split s sub i :
  PyStr.find s sub = Some i → ∃ rest, s = take i s ++ sub ++ rest.
Proof.
  intros (_ & [rest Hrest] & _)%find_Some_spec. exists rest.
  by rewrite <- Hrest, take_drop.
Qed.

Lemma hermes_findall_nonempty s :
  PyStr.contains s Hermes.tool_call_start_token = true →
  Hermes.tool_call_regex_findall s ≠ [].
Proof.
  unfold PyStr.contains.
  destruct (PyStr.find s Hermes.tool_call_start_token) as [i|] eqn:E;
    [|done].
  intros _. apply find_Some_spec in E as (_ & Hat & Hmin).
  unfold Hermes.tool_call_regex_findall.
  revert s Hat Hmin; induction i as [|i IH]; intros s Hat Hmin.
  - rewrite drop_0 in Hat. destruct s as [|c s].
    { destruct Hat as [k Hk]. discriminate Hk. }
    cbn [Hermes.findall_go].
    rewrite (proj2 (startswith_prefix _ _) Hat).
    by destruct (PyStr.find _ _).
  - destruct s as [|c s].
    { rewrite drop_nil in Hat. destruct Hat as [k Hk]. discriminate Hk. }
    cbn [Hermes.findall_go].
    destruct (PyStr.startswith Hermes.tool_call_start_token (c :: s)) eqn:E0.
    + by destruct (PyStr.find _ _).
    + apply IH; [done|]. intros j Hj. apply (Hmin (S j)). lia.
Qed.

Section HermesExtract.
Context `{JsonLib}.

(** X7. [Hermes2ProToolParser.extract_tool_calls] always returns. Without a
    start tag the result is the fallback ([tools_called] false, no tool
    calls, [content] the unmodified output); with one, the result is the same
    fallback as soon as some matched block is rejected by [json.loads]
    (an empty closed block is one: it is loaded as the empty string) or
    parses to a value without a string ["name"] and an ["arguments"] entry. *)
Theorem hermes_extract_tool_calls_never_raises (model_output : str) :
  (∃ r, Hermes.extract_tool_calls model_output = Ok r)
  ∧ (PyStr.contains model_output Hermes.tool_call_start_token = false →
     Hermes.extract_tool_calls model_output
     = Ok {| tools_called := false; tool_calls := [];
             content := Some model_output |})
  ∧ (∀ m,
       m ∈ Hermes.tool_call_regex_findall model_output →
       (∃ e, json_loads (Hermes.selected_group m) = Raise e)
       ∨ (∃ v e, json_loads (Hermes.selected_group m) = Ok v
                 ∧ Hermes.build_tool_call v = Raise e) →
       Hermes.extract_tool_calls model_output
       = Ok {| tools_called := false; tool_calls := [];
               content := Some model_output |}).
Proof.
  unfold Hermes.extract_tool_calls. split; [|split].
  - destruct (negb _); [eauto|]. destruct (Hermes.extract_tool_calls_body _);
      simpl; eauto.
  - by intros ->.
  - intros m Hm Hbad. destruct (negb _); [done|].
    unfold Hermes.extract_tool_calls_body.
    destruct (Py.mapM (fun m0 => json_loads (Hermes.selected_group m0)) _)
      as [raws|e] eqn:Eload; [|done].
    cbn [mbind result_mbind result_bind].
    destruct Hbad as [[e He]|(v & e & Hv & He)].
    + destruct (mapM_raises (fun m0 => json_loads (Hermes.selected_group m0))
                  _ m Hm (ex_intro _ e He)) as [e' He'].
      congruence.
    + apply mapM_Forall2 in Eload.
      assert (Hin : v ∈ raws).
      { apply list_elem_of_lookup in Hm as [k Hk].
        destruct (Forall2_lookup_l _ _ _ _ _ Eload Hk) as (v' & Hv' & Hload).
        rewrite Hv in Hload. injection Hload as <-.
        apply list_elem_of_lookup. eauto. }
      destruct (mapM_raises Hermes.build_tool_call raws v Hin
                  (ex_intro _ e He)) as [e' ->].
      done.
Qed.
End HermesExtract.

Lemma find_from_shift sub t k :
  PyStr.find_from sub t k = (λ i, k + i) <$> PyStr.find_from sub t 0.
Proof.
  revert k; induction t as [|c t IH]; intros k; simpl.
  - destruct (PyStr.startswith sub []); simpl; [f_equal; lia|done].
  - destruct (PyStr.startswith sub (c :: t)); simpl; [f_equal; lia|].
    rewrite (IH (S k)), (IH 1).
    destruct (PyStr.find_from sub t 0); simpl; [f_equal; lia|done].
Qed.

(** The first piece of [s.split(sep)] is the text in front of the first
    occurrence of [sep]. *)
Lemma split_go_head sep s cur :
  sep ≠ [] →
  ∃ tl, PyStr.split_go sep 0 cur s
        = (cur ++ match PyStr.find s sep with
                  | Some i => take i s
                  | None => s
                  end) :: tl.
Proof.
  intros Hsep. unfold PyStr.find.
  revert cur; induction s as [|c s IH]; intros cur.
  - simpl. destruct sep; [done|]. simpl. exists []. by rewrite app_nil_r.
  - cbn [PyStr.split_go PyStr.find_from].
    destruct (PyStr.startswith sep (c :: s)).
    + eexists. by rewrite app_nil_r.
    + destruct (IH (cur ++ [c])) as [tl ->]. exists tl. f_equal.
      rewrite (find_from_shift sep s 1).
      destruct (PyStr.find_from sep s 0); simpl; by rewrite <- app_assoc.
Qed.

Lemma build_tool_call_type v c :
  Hermes.build_tool_call v = Ok c → tc_type c = py "function".
Proof.
  unfold Hermes.build_tool_call, mbind, result_mbind, result_bind.
  destruct (Py.getitem_key v (py "name")); [|done].
  destruct (Py.getitem_key v (py "arguments")); [|done].
  destruct (as_str _); [|done]. by intros [= <-].
Qed.

Lemma list_getitem_head {A} (x : A) l : list_getitem (x :: l) 0%Z = Ok x.
Proof.
  unfold list_getitem, norm_index. simpl length.
  destruct (Z.ltb_spec 0 0); [lia|].
  destruct (Z.leb_spec 0 0); [|lia].
  destruct (Z.ltb_spec 0 (Z.of_nat (S (length l)))); [|lia]. done.
Qed.

Section ExtractShape.
Context `{JsonLib}.

(** X8. When [Hermes2ProToolParser.extract_tool_calls] reports tool calls,
    there is one call of type ["function"] per regex match and at least one;
    [content] is never the empty string, and it is the text in front of the
    first start tag ([None] standing for no text). *)
Theorem hermes_extract_success_shape (model_output : str)
    (r : ExtractedToolCallInformation) :
  Hermes.extract_tool_calls model_output = Ok r →
  tools_called r = true →
  tool_calls r ≠ []
  ∧ length (tool_calls r)
    = length (Hermes.tool_call_regex_findall model_output)
  ∧ Forall (λ c, tc_type c = py "function") (tool_calls r)
  ∧ content r ≠ Some []
  ∧ (∃ rest, model_output
             = default [] (content r) ++ Hermes.tool_call_start_token ++ rest)
  ∧ (∀ j, j < length (default [] (content r)) →
          ¬ Hermes.tool_call_start_token `prefix_of` drop j model_output).
Proof.
  unfold Hermes.extract_tool_calls.
  destruct (PyStr.contains model_output Hermes.tool_call_start_token) eqn:Ec;
    simpl; [|by intros [= <-]].
  destruct (Hermes.extract_tool_calls_body model_output) as [r'|] eqn:Eb;
    simpl; [|by intros [= <-]].
  intros [= <-] _. revert Eb. unfold Hermes.extract_tool_calls_body.
  destruct (Py.mapM _ (Hermes.tool_call_regex_findall model_output))
    as [raws|] eqn:Eload; [|done].
  cbn [mbind result_mbind result_bind].
  destruct (Py.mapM Hermes.build_tool_call raws) as [calls|] eqn:Ebuild;
    [|done].
  intros [= <-]. cbn [tool_calls content].
  apply mapM_Forall2 in Eload, Ebuild.
  pose proof (Forall2_length _ _ _ Eload) as Hlen1.
  pose proof (Forall2_length _ _ _ Ebuild) as Hlen2.
  pose proof (hermes_findall_nonempty _ Ec) as Hne.
  unfold Hermes.before_first. unfold PyStr.contains in Ec.
  destruct (PyStr.find model_output Hermes.tool_call_start_token) as [i|]
    eqn:Ef; [|done].
  assert (Hdef : default []
            (if bool_decide (take i model_output ≠ [])
             then Some (take i model_output) else None)
          = take i model_output).
  { case_bool_decide as Hn; [done|]. simpl.
    destruct (take i model_output); [done|]. by destruct Hn. }
  split; [|split; [|split; [|split; [|split]]]].
  - intros ->. simpl in Hlen2. rewrite Hlen2 in Hlen1.
    by destruct (Hermes.tool_call_regex_findall model_output).
  - lia.
  - clear -Ebuild. induction Ebuild as [|v c ? ? Hv _ IH]; constructor;
      [by eapply build_tool_call_type|done].
  - case_bool_decide as Hn; [|done]. intros [= Heq]. by rewrite Heq in Hn.
  - rewrite Hdef. destruct (find_Some_split _ _ _ Ef) as [rest Hrest].
    exists rest. exact Hrest.
  - rewrite Hdef. intros j Hj.
    apply find_Some_spec in Ef as (Hi & _ & Hmin).
    rewrite length_take in Hj. apply Hmin. lia.
Qed.

(** X9. When [MistralToolParser.extract_tool_calls] reports tool calls, the
    first [[{...}]] region of the cleaned text has been loaded as JSON and
    there is one call of type ["function"] per element of the loaded value;
    [content] is never the empty string, and it is the text in front of the
    first marker ([None] standing for no text). *)
Theorem mistral_extract_success_shape (model_output : str)
    (r : ExtractedToolCallInformation) :
  Mistral.extract_tool_calls model_output = Ok r →
  tools_called r = true →
  (∃ region more loaded elements,
     Mistral.tool_call_regex_findall
       (PyStr.replace (PyStr.replace model_output Mistral.bot_token [] None)
          [squote] [dquote] None) = region :: more
     ∧ json_loads region = Ok loaded
     ∧ Py.iter loaded = Ok elements
     ∧ length (tool_calls r) = length elements)
  ∧ Forall (λ c, tc_type c = py "function") (tool_calls r)
  ∧ content r ≠ Some []
  ∧ (∃ rest, model_output
             = default [] (content r) ++ Mistral.bot_token ++ rest)
  ∧ (∀ j, j < length (default [] (content r)) →
          ¬ Mistral.bot_token `prefix_of` drop j model_output).
Proof.
  unfold Mistral.extract_tool_calls.
  destruct (PyStr.contains model_output Mistral.bot_token) eqn:Ec;
    simpl; [|by intros [= <-]].
  destruct (Mistral.extract_tool_calls_body model_output) as [r'|] eqn:Eb;
    simpl; [|by intros [= <-]].
  intros [= <-] _. revert Eb. unfold Mistral.extract_tool_calls_body.
  destruct (Mistral.tool_call_regex_findall _) as [|region more] eqn:Ere.
  { unfold list_getitem. simpl. done. }
  rewrite list_getitem_head. cbn [mbind result_mbind result_bind].
  destruct (json_loads region) as [loaded|] eqn:Eload;
    cbn [mbind result_mbind result_bind]; [|done].
  destruct (Py.iter loaded) as [elements|] eqn:Eiter;
    cbn [mbind result_mbind result_bind]; [|done].
  destruct (Py.mapM Mistral.build_tool_call elements) as [calls|] eqn:Ebuild;
    cbn [mbind result_mbind result_bind]; [|done].
  destruct (split_go_head Mistral.bot_token model_output [])
    as [tl Hsplit]; [done|].
  unfold PyStr.split. rewrite Hsplit. unfold PyStr.contains in Ec.
  destruct (PyStr.find model_output Mistral.bot_token) as [i|] eqn:Ef;
    [|done].
  rewrite list_getitem_head. cbn [mbind result_mbind result_bind app].
  intros [= <-]. cbn [tool_calls content].
  apply mapM_Forall2 in Ebuild.
  assert (Hdef : default []
            (if bool_decide (0 < length (take i model_output))
             then Some (take i model_output) else None)
          = take i model_output).
  { case_bool_decide as Hn; [done|]. simpl.
    destruct (take i model_output); [done|]. simpl in Hn. lia. }
  split; [|split; [|split; [|split]]].
  - exists region, more, loaded, elements. repeat split; try done.
    symmetry. by eapply Forall2_length.
  - clear -Ebuild. induction Ebuild as [|v c ? ? Hv _ IH]; constructor;
      [|done].
    revert Hv. unfold Mistral.build_tool_call, mbind, result_mbind,
      result_bind.
    destruct (Py.getitem_key v (py "name")); [|done].
    destruct (Py.getitem_key v (py "arguments")); [|done].
    destruct (as_str _); [|done]. by intros [= <-].
  - case_bool_decide as Hn; [|done]. intros [= Heq]. rewrite Heq in Hn.
    simpl in Hn. lia.
  - rewrite Hdef. destruct (find_Some_split _ _ _ Ef) as [rest Hrest].
    exists rest. exact Hrest.
  - rewrite Hdef. intros j Hj.
    apply find_Some_spec in Ef as (Hi & _ & Hmin).
    rewrite length_take in Hj. apply Hmin. lia.
Qed.
End ExtractShape.

(** *** Hermes extraction on well-formed output *)

(** A tag whose first character does not occur again in it cannot begin
    inside a text free of the tag and run over into a following copy of the
    tag. *)
Lemma no_straddle (e0 : ascii) (E' b r : str) j :
  e0 ∉ E' →
  PyStr.contains b (e0 :: E') = false →
  j < length b →
  ¬ (e0 :: E') `prefix_of` drop j (b ++ (e0 :: E') ++ r).
Proof.
  intros Hfresh Hfree Hj Hp.
  destruct (decide (j + length (e0 :: E') ≤ length b)) as [Hin|Hout].
  - (* the occurrence lies within [b] *)
    unfold PyStr.contains in Hfree.
    destruct (PyStr.find b (e0 :: E')) eqn:Ef; [done|].
    apply (find_None_spec _ _ j Ef); [lia|].
    rewrite drop_app_le in Hp by lia.
    destruct Hp as [k Hk].
    assert (Hlen : length (e0 :: E') ≤ length (drop j b))
      by (rewrite length_drop; lia).
    apply (f_equal (take (length (e0 :: E')))) in Hk.
    rewrite take_app_le in Hk by done.
    rewrite take_app_length in Hk.
    exists (drop (length (e0 :: E')) (drop j b)).
    rewrite <- (take_drop (length (e0 :: E')) (drop j b)) at 1.
    by rewrite Hk.
  - (* the occurrence reaches the first character of the following tag *)
    set (k := length b - j).
    assert (Hk1 : 1 ≤ k) by (unfold k; lia).
    assert (Hk2 : k < length (e0 :: E')) by (unfold k; simpl in *; lia).
    destruct Hp as [rest Hrest].
    assert (Hat : (drop j (b ++ (e0 :: E') ++ r)) !! k = Some e0).
    { rewrite lookup_drop. replace (j + k) with (length b + 0)
        by (unfold k; lia).
      by rewrite lookup_app_r, Nat.add_comm, Nat.add_sub by lia. }
    rewrite Hrest in Hat. rewrite lookup_app_l in Hat by done.
    destruct k as [|k]; [lia|]. simpl in Hat.
    apply Hfresh. by eapply list_elem_of_lookup_2.
Qed.

Lemma find_first_at (E b r : str) :
  (∀ j, j < length b → ¬ E `prefix_of` drop j (b ++ E ++ r)) →
  PyStr.find (b ++ E ++ r) E = Some (length b).
Proof.
  intros Hno.
  assert (Hhere : E `prefix_of` drop (length b) (b ++ E ++ r)).
  { rewrite drop_app_length. by exists r. }
  destruct (PyStr.find (b ++ E ++ r) E) as [i|] eqn:Ef.
  - apply find_Some_spec in Ef as (_ & Hat & Hmin). f_equal.
    destruct (decide (i < length b)) as [Hlt|]; [by destruct (Hno i Hlt)|].
    destruct (decide (length b < i)) as [Hgt|]; [|lia].
    by destruct (Hmin _ Hgt).
  - destruct (find_None_spec _ _ (length b) Ef); [|done].
    rewrite length_app. lia.
Qed.

Lemma hermes_findall_go_skip k s :
  Hermes.findall_go k s = Hermes.findall_go 0 (drop k s).
Proof.
  revert k; induction s as [|c s IH]; intros [|k]; try done.
  simpl. apply IH.
Qed.

Lemma hermes_findall_skip_text t X :
  (∀ j, j < length t →
        ¬ Hermes.tool_call_start_token `prefix_of` drop j (t ++ X)) →
  Hermes.findall_go 0 (t ++ X) = Hermes.findall_go 0 X.
Proof.
  induction t as [|c t IH]; intros Hno; [done|].
  cbn [app Hermes.findall_go].
  destruct (PyStr.startswith Hermes.tool_call_start_token (c :: t ++ X))
    eqn:E.
  - apply startswith_prefix in E. destruct (Hno 0); [simpl; lia|done].
  - apply IH. intros j Hj. apply (Hno (S j)). simpl. lia.
Qed.

Lemma hermes_findall_block b r :
  PyStr.find (b ++ Hermes.tool_call_end_token ++ r) Hermes.tool_call_end_token
  = Some (length b) →
  Hermes.findall_go 0
    (Hermes.tool_call_start_token ++ b ++ Hermes.tool_call_end_token ++ r)
  = (b, []) :: Hermes.findall_go 0 r.
Proof.
  intros Hfind.
  change (Hermes.tool_call_start_token ++ b ++ Hermes.tool_call_end_token ++ r)
    with ("<"%char :: py "tool_call>" ++ b ++ Hermes.tool_call_end_token ++ r).
  cbn [Hermes.findall_go].
  change ("<"%char :: py "tool_call>" ++ b ++ Hermes.tool_call_end_token ++ r)
    with (Hermes.tool_call_start_token ++ b ++ Hermes.tool_call_end_token ++ r).
  rewrite startswith_app, drop_app_length, Hfind, take_app_length.
  f_equal. rewrite hermes_findall_go_skip. f_equal.
  change (length Hermes.tool_call_start_token) with (S (length (py "tool_call>"))).
  replace (S (length (py "tool_call>")) + length b
           + length Hermes.tool_call_end_token - 1)
    with (length (py "tool_call>" ++ b ++ Hermes.tool_call_end_token))
    by (rewrite !length_app; lia).
  replace (py "tool_call>" ++ b ++ Hermes.tool_call_end_token ++ r)
    with ((py "tool_call>" ++ b ++ Hermes.tool_call_end_token) ++ r)
    by (by rewrite <- !app_assoc).
  apply drop_app_length.
Qed.

Lemma start_tag_fresh : "<"%char ∉ py "tool_call>".
Proof. apply (bool_decide_unpack _). by vm_compute. Qed.

Lemma end_tag_fresh : "<"%char ∉ py "/tool_call>".
Proof. apply (bool_decide_unpack _). by vm_compute. Qed.

(** On an output whose texts hold no start tag and whose bodies hold no end
    tag, the regex finds the bodies, in order. *)
Lemma hermes_findall_output segments tail :
  Forall (λ seg : str * str,
            PyStr.contains seg.1 Hermes.tool_call_start_token = false
            ∧ PyStr.contains seg.2 Hermes.tool_call_end_token = false)
         segments →
  PyStr.contains tail Hermes.tool_call_start_token = false →
  Hermes.tool_call_regex_findall (hermes_output segments tail)
  = (λ seg, (seg.2, [])) <$> segments.
Proof.
  intros Hsegs Htail. unfold Hermes.tool_call_regex_findall.
  induction Hsegs as [|[text body] segments [Htext Hbody] _ IH];
    cbn [hermes_output fmap list_fmap fst snd].
  - rewrite <- (app_nil_r tail). rewrite hermes_findall_skip_text; [done|].
    intros j Hj. rewrite app_nil_r. unfold PyStr.contains in Htail.
    destruct (PyStr.find tail _) eqn:Ef; [done|].
    apply (find_None_spec _ _ j Ef). lia.
  - cbn [fst snd] in Htext, Hbody.
    rewrite hermes_findall_skip_text.
    2:{ intros j Hj. by apply (no_straddle _ _ _ _ _ start_tag_fresh). }
    rewrite hermes_findall_block; [by rewrite IH|].
    apply find_first_at. intros j Hj.
    by apply (no_straddle _ _ _ _ _ end_tag_fresh).
Qed.

Section HermesRoundTrip.
Context `{JsonLib}.

Lemma hermes_calls_loaded calls :
  Forall hermes_call_ok calls →
  ∃ vs,
    Forall2 (λ m v, json_loads (Hermes.selected_group m) = Ok v)
            ((λ seg : str * str, (seg.2, [])) <$> (hermes_segment <$> calls))
            vs
    ∧ Forall2 (λ v c, Hermes.build_tool_call v = Ok c) vs
              (hermes_tool_call <$> calls).
Proof.
  induction 1 as [|c calls (_ & _ & Hbody & v & Hv & Hname & Hargs) _
                    (vs & IH1 & IH2)].
  - exists []. split; constructor.
  - exists (v :: vs). split; constructor; try done.
    + unfold Hermes.selected_group. simpl.
      by rewrite bool_decide_eq_true_2.
    + unfold Hermes.build_tool_call, mbind, result_mbind, result_bind.
      by rewrite Hname, Hargs.
Qed.

Lemma hermes_extract_output (c0 : HermesCall) (rest : list HermesCall)
    (tail : str) :
  Forall hermes_call_ok (c0 :: rest) →
  PyStr.contains tail Hermes.tool_call_start_token = false →
  Hermes.extract_tool_calls
    (hermes_output (hermes_segment <$> (c0 :: rest)) tail)
  = Ok {| tools_called := true;
          tool_calls := hermes_tool_call <$> (c0 :: rest);
          content := if bool_decide (hc_text c0 ≠ [])
                     then Some (hc_text c0) else None |}.
Proof.
  intros Hcalls Htail.
  assert (Hsegs :
    Forall (λ seg : str * str,
              PyStr.contains seg.1 Hermes.tool_call_start_token = false
              ∧ PyStr.contains seg.2 Hermes.tool_call_end_token = false)
           (hermes_segment <$> (c0 :: rest))).
  { apply Forall_fmap. eapply Forall_impl; [exact Hcalls|].
    intros c (? & ? & _). by split. }
  pose proof (hermes_findall_output _ _ Hsegs Htail) as Hfind.
  destruct (hermes_calls_loaded _ Hcalls) as (vs & Hload & Hbuild).
  apply mapM_Ok in Hload, Hbuild.
  assert (Hfirst :
    PyStr.find (hermes_output (hermes_segment <$> (c0 :: rest)) tail)
               Hermes.tool_call_start_token
    = Some (length (hc_text c0))).
  { cbn [fmap list_fmap hermes_output hermes_segment].
    apply find_first_at. intros j Hj.
    apply (no_straddle _ _ _ _ _ start_tag_fresh); [|done].
    by apply (Forall_inv Hcalls). }
  unfold Hermes.extract_tool_calls, PyStr.contains. rewrite Hfirst.
  cbn [negb]. unfold Hermes.extract_tool_calls_body.
  rewrite Hfind, Hload. cbn [mbind result_mbind result_bind].
  rewrite Hbuild. cbn [mbind result_mbind result_bind try_except].
  unfold Hermes.before_first. rewrite Hfirst.
  cbn [fmap list_fmap hermes_output hermes_segment].
  by rewrite take_app_length.
Qed.

(** X10. A Hermes output made of well-formed calls, each a text without a
    start tag followed by a closed block whose body holds no end tag and
    parses to a name and arguments, with a tail without a start tag, is
    extracted as exactly these calls, in order, with
    [arguments = json.dumps] of the parsed arguments; [content] is the text in
    front of the first block, or [None] when there is none. *)
Theorem hermes_extract_round_trip (c0 : HermesCall) (rest : list HermesCall)
    (tail : str) :
  Forall hermes_call_ok (c0 :: rest) →
  PyStr.contains tail Hermes.tool_call_start_token = false →
  Hermes.extract_tool_calls
    (hermes_output (hermes_segment <$> (c0 :: rest)) tail)
  = Ok {| tools_called := true;
          tool_calls := hermes_tool_call <$> (c0 :: rest);
          content := if bool_decide (hc_text c0 ≠ [])
                     then Some (hc_text c0) else None |}.
Proof. apply hermes_extract_output. Qed.
End HermesRoundTrip.

Lemma hermes_example_calls_ok :
  Forall (@hermes_call_ok hermes_example_lib) hermes_example_calls.
Proof.
  repeat constructor; try (intros Hnil; discriminate Hnil);
    eexists; repeat split; reflexivity.
Qed.

(** [Okay. ] followed by two blocks gives the content [Okay. ] and the calls
    [a] and [b]. *)
Lemma hermes_extract_round_trip_witness :
  @Hermes.extract_tool_calls hermes_example_lib
    (py "Okay. <tool_call>" ++ pyq "{'name': 'a', 'arguments': {'x': 1}}"
     ++ py "</tool_call><tool_call>"
     ++ pyq "{'name': 'b', 'arguments': {'y': 2}}" ++ py "</tool_call>")
  = Ok {| tools_called := true;
          tool_calls :=
            [ {| tc_type := py "function";
                 tc_function := {| fc_name := py "a";
                                   fc_arguments := pyq "{'x': 1}" |} |};
              {| tc_type := py "function";
                 tc_function := {| fc_name := py "b";
                                   fc_arguments := pyq "{'y': 2}" |} |} ];
          content := Some (py "Okay. ") |}.
Proof.
  exact (@hermes_extract_round_trip hermes_example_lib
           {| hc_text := py "Okay. ";
              hc_body := pyq "{'name': 'a', 'arguments': {'x': 1}}";
              hc_name := py "a";
              hc_arguments := JObj [(py "x", JInt 1)] |}
           [ {| hc_text := [];
                hc_body := pyq "{'name': 'b', 'arguments': {'y': 2}}";
                hc_name := py "b";
                hc_arguments := JObj [(py "y", JInt 2)] |} ]
           [] hermes_example_calls_ok eq_refl).
Defined.

(** The same output, read for the shape of a successful extraction. *)
Lemma hermes_extract_success_shape_witness :
  let output :=
    py "Okay. <tool_call>" ++ pyq "{'name': 'a', 'arguments': {'x': 1}}"
    ++ py "</tool_call><tool_call>"
    ++ pyq "{'name': 'b', 'arguments': {'y': 2}}" ++ py "</tool_call>" in
  ∃ r, @Hermes.extract_tool_calls hermes_example_lib output = Ok r
       ∧ length (tool_calls r)
         = length (Hermes.tool_call_regex_findall output)
       ∧ content r ≠ Some [].
Proof.
  intros output.
  destruct (@Hermes.extract_tool_calls hermes_example_lib output) as [r|e]
    eqn:E; [|by vm_compute in E].
  exists r. split; [done|].
  assert (Ht : tools_called r = true)
    by (vm_compute in E; by injection E as <-).
  pose proof (@hermes_extract_success_shape hermes_example_lib output r E Ht)
    as (_ & Hlen & _ & Hcontent & _).
  by split.
Defined.

(** A Mistral output with one call behind a short text. *)
Lemma mistral_extract_success_shape_witness :
  let lib :=
    table_lib
      [ (pyq "[{'name': 'get_weather', 'arguments': {'city': 'Paris'}}]",
         JArr [Streams.call "get_weather"
                 (Some (JObj [(py "city", JStr (py "Paris"))]))]) ] [] in
  let output :=
    py "Sure. [TOOL_CALLS][{'name': 'get_weather', 'arguments': {'city': 'Paris'}}]" in
  ∃ r, @Mistral.extract_tool_calls lib output = Ok r
       ∧ tool_calls r
         = [ {| tc_type := py "function";
                tc_function :=
                  {| fc_name := py "get_weather";
                     fc_arguments := pyq "{'city': 'Paris'}" |} |} ]
       ∧ content r = Some (py "Sure. ")
       ∧ content r ≠ Some [].
Proof.
  intros lib output.
  destruct (@Mistral.extract_tool_calls lib output) as [r|e] eqn:E;
    [|by vm_compute in E].
  exists r.
  assert (Ht : tools_called r = true)
    by (vm_compute in E; by injection E as <-).
  pose proof (@mistral_extract_success_shape lib output r E Ht)
    as (_ & _ & Hcontent & _).
  vm_compute in E. injection E as <-. by repeat split.
Defined.

(** ** Streaming: what every stream keeps *)

Section StreamInvariants.
Context `{JsonLib}.

(** X11. Every Mistral step appends to [streamed_args_for_tool[i]] exactly
    the arguments text it returns for tool [i], for every [i]; so at every
    step boundary of a Mistral stream, [streamed_args_for_tool[i]] is the
    concatenation, in emission order, of the arguments deltas returned for
    tool [i]. *)
Theorem mistral_streamed_args_are_emitted_args :
  (∀ x st st' d i,
     Mistral.extract_tool_calls_streaming x st = (st', d) →
     streamed_at st' i = streamed_at st i ++ arguments_of (Z.of_nat i) d)
  ∧ (∀ xs i,
       streamed_at
         (run_steps Mistral.extract_tool_calls_streaming xs initial_state).1 i
       = emitted_arguments (Z.of_nat i)
           (run_steps Mistral.extract_tool_calls_streaming xs
                      initial_state).2).
Proof.
  split.
  - intros x st st' d i Hstep. by apply (mistral_step_recorded _ _ _ _ Hstep).
  - intros xs i. apply mistral_run_recorded.
Qed.

(** X12. At every step boundary of a Hermes stream,
    [len(streamed_args_for_tool) == current_tool_id + 1]: the cursor moves
    one tool at a time, with one string appended each time. *)
Theorem hermes_stream_length_invariant (start_id end_id : Z)
    (xs : list Step) :
  length_invariant
    (run_steps (Hermes.extract_tool_calls_streaming start_id end_id) xs
               initial_state).1.
Proof. by apply hermes_run_length_invariant. Qed.

(** X13. A Mistral step keeps [len(streamed_args_for_tool) ==
    current_tool_id + 1] whenever it moves the cursor forward by at most
    one. *)
Theorem mistral_step_keeps_length_invariant (x : Step) (st st' : ParserState)
    (d : option DeltaMessage) :
  length_invariant st →
  Mistral.extract_tool_calls_streaming x st = (st', d) →
  (current_tool_id st' ≤ current_tool_id st + 1)%Z →
  length_invariant st'.
Proof.
  intros Hinv Hstep Hmove.
  destruct (mistral_step_length_invariant _ _ _ _ Hinv Hstep); [done|lia].
Qed.

Lemma run_steps_pass_through
    (step : Step -> ParserState -> ParserState * option DeltaMessage)
    (keep : Step -> Prop) (xs : list Step) (st : ParserState) :
  (∀ x st, keep x →
           step x st = (st, Some (content_delta (delta_text x)))) →
  Forall keep xs →
  run_steps step xs st
  = (st, (λ x, Some (content_delta (delta_text x))) <$> xs).
Proof.
  intros Hstep Hkeep. induction Hkeep as [|x xs Hx _ IH]; [done|].
  cbn [run_steps]. by rewrite (Hstep _ _ Hx), IH.
Qed.

(** X14. A stream in which the marker token never shows up among the
    tokens generated so far (id 5 for Mistral, the id of [<tool_call>] for
    Hermes) is passed through: every step returns
    [DeltaMessage(content=delta_text)], and the parser state at the end is
    the state at the start. *)
Theorem stream_without_marker_is_content (start_id end_id : Z)
    (xs : list Step) (st : ParserState) :
  (Forall (λ x, Mistral.bot_token_id ∉ current_token_ids x) xs →
   run_steps Mistral.extract_tool_calls_streaming xs st
   = (st, (λ x, Some (content_delta (delta_text x))) <$> xs))
  ∧ (Forall (λ x, start_id ∉ current_token_ids x) xs →
     run_steps (Hermes.extract_tool_calls_streaming start_id end_id) xs st
     = (st, (λ x, Some (content_delta (delta_text x))) <$> xs)).
Proof.
  split; apply run_steps_pass_through; intros x st0 Hnot.
  - unfold Mistral.extract_tool_calls_streaming, mem_Z.
    by rewrite bool_decide_eq_false_2.
  - unfold Hermes.extract_tool_calls_streaming, mem_Z.
    by rewrite bool_decide_eq_false_2.
Qed.
End StreamInvariants.

(** ** Streaming: the order of the progress flags *)

Section FlagRules.
Context {A B : Type}.

Lemma flags_ret (a : A) : keeps_flags (m_ret a).
Proof. by intros st st' r [= <- _]. Qed.

Lemma flags_lift (x : result A) : keeps_flags (m_lift x).
Proof. by intros st st' r [= <- _]. Qed.

Lemma flags_bind (m : M A) (k : A -> M B) :
  keeps_flags m → (∀ a, keeps_flags (k a)) → keeps_flags (m_bind m k).
Proof.
  intros Hm Hk st st' r. unfold m_bind.
  destruct (m st) as [st1 [a|e]] eqn:E.
  - intros Hka. rewrite (Hk a _ _ _ Hka). eapply Hm, E.
  - intros [= <- _]. eapply Hm, E.
Qed.
End FlagRules.

Lemma flags_get : keeps_flags m_get.
Proof. by intros st st' r [= <- _]. Qed.

Lemma flags_modify f :
  (∀ st, progress_flags (f st) = progress_flags st) →
  keeps_flags (m_modify f).
Proof. intros Hf st st' r [= <- _]. apply Hf. Qed.

Create HintDb flags discriminated.
#[local] Hint Resolve flags_ret flags_lift flags_get : flags.

Ltac flags_step :=
  first
    [ solve [auto with flags]
    | apply flags_modify; intros ?; reflexivity
    | apply flags_bind; [|intros ?]
    | match goal with
      | |- keeps_flags (if ?b then _ else _) => destruct b
      | |- keeps_flags (match ?x with _ => _ end) => destruct x
      end ].

Lemma flags_streamed_args_add i s : keeps_flags (streamed_args_add i s).
Proof. unfold streamed_args_add. repeat flags_step. Qed.

#[local] Hint Resolve flags_streamed_args_add : flags.

Lemma flags_stream_arguments needle prev_arguments cur_arguments :
  keeps_flags (stream_arguments needle prev_arguments cur_arguments).
Proof. unfold stream_arguments. repeat flags_step. Qed.

#[local] Hint Resolve flags_stream_arguments : flags.

Lemma flags_invariant_of_flags st st' :
  progress_flags st' = progress_flags st →
  flags_invariant st → flags_invariant st'.
Proof.
  unfold progress_flags, flags_invariant. intros [= -> ->]. done.
Qed.

Lemma run_steps_invariant
    (step : Step -> ParserState -> ParserState * option DeltaMessage)
    (I : ParserState -> Prop) :
  (∀ x st st' d, I st → step x st = (st', d) → I st') →
  ∀ xs st, I st → I (run_steps step xs st).1.
Proof.
  intros Hstep xs. induction xs as [|x xs IH]; intros st Hst; [done|].
  cbn [run_steps].
  destruct (step x st) as [st1 d] eqn:E.
  specialize (IH st1 (Hstep _ _ _ _ Hst E)).
  by destruct (run_steps step xs st1).
Qed.

Section FlagsInvariant.
Context `{JsonLib}.

Lemma mistral_update_tool_flags x call st st' r :
  flags_invariant st →
  Mistral.update_tool x call st = (st', r) →
  flags_invariant st'.
Proof.
  intros Hinv.
  assert (Hk : ∀ st0, keeps_flags
    (prev_call <- m_lift (Py.getitem (prev_tool_call_arr st0)
                                     (current_tool_id st0)) ;;
     prev_arguments <- m_lift (Py.get prev_call (py "arguments")) ;;
     cur_arguments <- m_lift (Py.get call (py "arguments")) ;;
     stream_arguments
       (PyStr.replace (delta_text x) [squote] [dquote] None)
       prev_arguments cur_arguments)%parser).
  { intros st0. repeat flags_step. }
  unfold Mistral.update_tool.
  unfold m_bind at 1. unfold m_get at 1.
  destruct (current_tool_initial_sent st) eqn:Hinit; cbn [negb].
  { destruct (current_tool_name_sent st) eqn:Hname; cbn [negb].
    - intros E. eapply flags_invariant_of_flags; [|exact Hinv].
      exact (Hk st _ _ _ E).
    - clear Hk. unfold m_bind at 1. unfold m_lift at 1.
      destruct (Py.get call _) as [fname|e]; [|intros [= <- _]; done].
      destruct (Py.truthy fname); [|unfold m_ret; intros [= <- _]; done].
      unfold m_bind at 1. unfold m_lift at 1.
      destruct (as_str fname) as [name|e]; [|intros [= <- _]; done].
      unfold m_bind, m_modify, m_ret. intros [= <- _].
      unfold flags_invariant. by cbn. }
  unfold m_bind, m_modify, m_ret. intros [= <- _].
  unfold flags_invariant. by cbn.
Qed.

Lemma mistral_start_new_tool_flags call n st st' r :
  flags_invariant st →
  Mistral.start_new_tool call n st = (st', r) →
  flags_invariant st'.
Proof.
  intros Hinv. unfold Mistral.start_new_tool.
  unfold m_bind at 1. unfold m_get at 1.
  set (block := (if (0 <=? current_tool_id st)%Z then _ else _) : M _).
  assert (Hk : keeps_flags block).
  { subst block. repeat flags_step. }
  unfold m_bind at 1.
  destruct (block st) as [st1 [delta|e]] eqn:E.
  - unfold m_bind, m_modify, streamed_args_append_empty, m_modify, m_ret.
    intros [= <- _]. unfold flags_invariant. by cbn.
  - intros [= <- _]. eapply flags_invariant_of_flags; [|exact Hinv].
    exact (Hk _ _ _ E).
Qed.

Lemma mistral_step_flags x st st' d :
  flags_invariant st →
  Mistral.extract_tool_calls_streaming x st = (st', d) →
  flags_invariant st'.
Proof.
  intros Hinv. unfold Mistral.extract_tool_calls_streaming.
  destruct (negb _); [by intros [= <- _]|].
  destruct (_ && _); [by intros [= <- _]|].
  unfold run_try.
  destruct (Mistral.streaming_body _ _ st) as [st1 r] eqn:E.
  intros Hst. assert (st' = st1) as -> by (destruct r; by injection Hst).
  clear Hst. revert E. unfold Mistral.streaming_body.
  unfold m_bind at 1. unfold m_lift at 1.
  destruct (list_getitem _ _); [|by intros [= <- _]].
  unfold m_bind at 1. unfold m_lift at 1.
  destruct (partial_json_loads _ _) as [arr|e]; [|by intros [= <- _]].
  unfold m_bind at 1. unfold m_get at 1.
  unfold m_bind at 1. unfold m_lift at 1.
  destruct (Py.getitem _ _) as [call|e]; [|by intros [= <- _]].
  unfold m_bind at 1. unfold m_lift at 1.
  destruct (Py.len arr) as [n|e]; [|by intros [= <- _]].
  destruct (_ && _); [by apply mistral_start_new_tool_flags|].
  destruct (_ && _); [|unfold m_ret; by intros [= <- _]].
  unfold m_bind at 1.
  destruct (Mistral.update_tool x call st) as [st2 [delta|e]] eqn:Eu.
  - apply (mistral_update_tool_flags _ _ _ _ _ Hinv) in Eu.
    unfold m_bind, m_modify, m_ret. by intros [= <- _].
  - apply (mistral_update_tool_flags _ _ _ _ _ Hinv) in Eu.
    by intros [= <- _].
Qed.

Lemma hermes_classify_flags x ps pe cs ce st st' r :
  flags_invariant st →
  Hermes.classify x ps pe cs ce st = (st', r) →
  flags_invariant st'.
Proof.
  intros Hinv. unfold Hermes.classify.
  destruct (_ && _).
  { set (block := (if bool_decide (1 < length (delta_token_ids x))
                   then _ else _) : M _).
    assert (Hk : keeps_flags block).
    { subst block. repeat flags_step. }
    unfold m_bind at 1.
    destruct (block st) as [st1 [portion|e]] eqn:E.
    - unfold m_bind, m_get, m_modify, streamed_args_append_empty, m_modify,
        m_ret.
      intros [= <- _]. unfold flags_invariant. by cbn.
    - intros [= <- _]. eapply flags_invariant_of_flags; [|exact Hinv].
      exact (Hk _ _ _ E). }
  intros E. eapply flags_invariant_of_flags; [|exact Hinv].
  revert E. generalize st, st', r.
  change (keeps_flags
    (if bool_decide (ce < cs) && bool_decide (cs = ps) then
       p <- m_lift (list_getitem
                      (PyStr.split (current_text x)
                                   Hermes.tool_call_start_token) (-1)%Z) ;;
       m_ret (Hermes.Portion (Some p))
     else if bool_decide (cs = ce) && bool_decide (pe < ce) then
       st <- m_get ;;
       prev_call <- m_lift (Py.getitem (prev_tool_call_arr st)
                                       (current_tool_id st)) ;;
       diff <- m_lift (Py.get prev_call (py "arguments")) ;;
       if Py.truthy diff then
         streamed <- m_lift (list_getitem (streamed_args_for_tool st)
                                          (current_tool_id st)) ;;
         let diff := PyStr.replace (json_dumps diff) streamed [] None in
         m_ret (Hermes.Return
                  (Some (arguments_delta (current_tool_id st) diff)))
       else m_lift (Raise UnboundLocalError)
     else m_ret (Hermes.Return None))%parser).
  repeat flags_step.
Qed.

Lemma flags_update_arguments x current_tool_call :
  keeps_flags (Hermes.update_arguments x current_tool_call).
Proof. unfold Hermes.update_arguments. repeat flags_step. Qed.

Lemma hermes_emit_flags x flags portion st st' r :
  flags_invariant st →
  Hermes.emit x flags portion st = (st', r) →
  flags_invariant st'.
Proof.
  intros Hinv. unfold Hermes.emit.
  set (load := (match portion with
                | Some (c :: p) => _
                | _ => _
                end) : M json).
  assert (Hk : keeps_flags load).
  { subst load. repeat flags_step. }
  unfold m_bind at 1.
  destruct (load st) as [st1 [call|e]] eqn:E.
  2:{ intros [= <- _]. eapply flags_invariant_of_flags; [|exact Hinv].
      exact (Hk _ _ _ E). }
  assert (Hinv1 : flags_invariant st1).
  { eapply flags_invariant_of_flags; [|exact Hinv]. exact (Hk _ _ _ E). }
  clear E Hk Hinv load.
  unfold m_bind at 1. unfold m_get at 1.
  destruct (current_tool_initial_sent st1) eqn:Hinit; cbn [negb].
  { destruct (current_tool_name_sent st1) eqn:Hname; cbn [negb].
    - intros E. eapply flags_invariant_of_flags; [|exact Hinv1].
      revert E. destruct portion.
      + apply flags_update_arguments.
      + apply flags_ret.
    - unfold m_bind at 1. unfold m_lift at 1.
      destruct (Py.get call _) as [fname|e]; [|intros [= <- _]; done].
      destruct (Py.truthy fname); [|unfold m_ret; intros [= <- _]; done].
      unfold m_bind at 1. unfold m_modify at 1.
      unfold m_bind at 1. unfold m_lift at 1.
      destruct (as_str fname) as [name|e];
        [unfold m_ret|]; intros [= <- _]; unfold flags_invariant; by cbn. }
  unfold m_bind, m_modify, m_ret. intros [= <- _].
  unfold flags_invariant. by cbn.
Qed.

Lemma hermes_step_flags start_id end_id x st st' d :
  flags_invariant st →
  Hermes.extract_tool_calls_streaming start_id end_id x st = (st', d) →
  flags_invariant st'.
Proof.
  intros Hinv. unfold Hermes.extract_tool_calls_streaming.
  destruct (negb _); [by intros [= <- _]|].
  unfold run_try.
  destruct (Hermes.streaming_body _ _ _ st) as [st1 r] eqn:E.
  intros Hst. assert (st' = st1) as -> by (destruct r; by injection Hst).
  clear Hst. revert E. unfold Hermes.streaming_body.
  destruct (_ && _); [unfold m_ret; by intros [= <- _]|].
  unfold m_bind at 1. unfold m_get at 1.
  unfold m_bind at 1.
  destruct (Hermes.classify _ _ _ _ _ st) as [st2 [c|e]] eqn:Ec.
  - apply (hermes_classify_flags _ _ _ _ _ _ _ _ Hinv) in Ec.
    destruct c as [delta|portion].
    + unfold m_ret. by intros [= <- _].
    + by apply hermes_emit_flags.
  - apply (hermes_classify_flags _ _ _ _ _ _ _ _ Hinv) in Ec.
    by intros [= <- _].
Qed.

(** X15. At every step boundary of a stream, in both dialects,
    [current_tool_name_sent] implies [current_tool_initial_sent]: the name
    of a tool is never flagged as sent before its initial stub (index, id,
    type) is. *)
Theorem stream_flags_invariant (start_id end_id : Z) (xs : list Step) :
  flags_invariant
    (run_steps Mistral.extract_tool_calls_streaming xs initial_state).1
  ∧ flags_invariant
      (run_steps (Hermes.extract_tool_calls_streaming start_id end_id) xs
                 initial_state).1.
Proof.
  split.
  - apply run_steps_invariant; [|done].
    intros x st st' d. apply mistral_step_flags.
  - apply run_steps_invariant; [|done].
    intros x st st' d. apply hermes_step_flags.
Qed.
End FlagsInvariant.

(** The step that opens the first tool of the Mistral example stream moves
    the cursor from -1 to 0 and appends one string. *)
Lemma mistral_step_keeps_length_invariant_witness :
  let lib := table_lib [] Streams.mistral_partial in
  let x :=
    {| previous_text := py "[TOOL_CALLS]";
       current_text := py "[TOOL_CALLS][{'name': 'f'";
       delta_text := py "[{'name': 'f'";
       previous_token_ids := [5%Z]; current_token_ids := [5%Z; 10%Z];
       delta_token_ids := [10%Z] |} in
  length_invariant
    (@Mistral.extract_tool_calls_streaming lib x initial_state).1
  ∧ current_tool_id
      (@Mistral.extract_tool_calls_streaming lib x initial_state).1 = 0%Z.
Proof.
  intros lib x.
  destruct (@Mistral.extract_tool_calls_streaming lib x initial_state)
    as [st' d] eqn:E.
  split.
  - apply (@mistral_step_keeps_length_invariant lib x initial_state st' d).
    + reflexivity.
    + exact E.
    + vm_compute in E. injection E as <- <-. vm_compute. discriminate.
  - vm_compute in E. by injection E as <- <-.
Defined.

(** Two steps of plain text, in both dialects. *)
Lemma stream_without_marker_is_content_witness :
  let lib := table_lib [] [] in
  let xs := steps_of [] [] [(py "Hel", [10%Z]); (py "lo", [11%Z])] in
  run_steps (@Mistral.extract_tool_calls_streaming lib) xs initial_state
  = (initial_state,
     [Some (content_delta (py "Hel")); Some (content_delta (py "lo"))])
  ∧ run_steps (@Hermes.extract_tool_calls_streaming lib 7 8) xs initial_state
    = (initial_state,
       [Some (content_delta (py "Hel")); Some (content_delta (py "lo"))]).
Proof.
  intros lib xs. split.
  - apply (proj1 (@stream_without_marker_is_content lib 7 8 xs
                    initial_state)).
    repeat constructor; by vm_compute; intros Hin;
      repeat (apply elem_of_cons in Hin as [Hin|Hin]; [discriminate Hin|]);
      inversion Hin.
  - apply (proj2 (@stream_without_marker_is_content lib 7 8 xs
                    initial_state)).
    repeat constructor; by vm_compute; intros Hin;
      repeat (apply elem_of_cons in Hin as [Hin|Hin]; [discriminate Hin|]);
      inversion Hin.
Defined.

(** ** The stream generator over the outputs of the engine *)

Section StreamGenerator.
Context `{JsonLib}.
Import Serving.

Lemma final_choice_index i dm output reason tp c :
  final_choice i dm output reason tp = Ok c →
  choice_index c = i ∧ choice_finish_reason c ≠ None.
Proof.
  unfold final_choice.
  destruct (final_delta _ _ _) as [d|e]; [|done].
  destruct (final_finish_reason _ _) as [r|e]; [|done].
  cbn. intros [= <-]. by cbn.
Qed.

(** What a chunk says about the step that yielded it. *)
Lemma handle_output_chunk self request output s s' c :
  handle_output self request output s = (s', Ok (Some c)) →
  choice_index c = index output
  ∧ (choice_finish_reason c ≠ None →
     finish_reason_sent s' !! index output = Some true).
Proof.
  unfold handle_output.
  destruct (finish_reason_sent s !! index output) as [[|]|] eqn:Hsent;
    [done| |done].
  destruct (previous_num_tokens s !! index output) as [k|]; [|done].
  destruct (previous_texts s !! index output) as [t|]; [|done].
  destruct (output_delta _ _ _ _ _ _ _) as [tp' [dm|]]; [|done].
  destruct (finish_reason output) as [reason|].
  - destruct (final_choice _ _ _ _ _) as [c'|e] eqn:Ec; [|done].
    intros [= <- <-]. apply final_choice_index in Ec as [-> _].
    split; [done|]. intros _. cbn.
    apply list_lookup_insert_eq. by eapply lookup_lt_Some.
  - intros [= <- <-]. cbn. done.
Qed.

(** [finish_reason_sent[i]] is never reset. *)
Lemma handle_output_sent_mono self request output s s' r i :
  finish_reason_sent s !! i = Some true →
  handle_output self request output s = (s', r) →
  finish_reason_sent s' !! i = Some true.
Proof.
  intros Hi. unfold handle_output.
  destruct (finish_reason_sent s !! index output) as [[|]|] eqn:Hsent;
    [by intros [= <- _]| |by intros [= <- _]].
  destruct (previous_num_tokens s !! index output) as [k|];
    [|by intros [= <- _]].
  destruct (previous_texts s !! index output) as [t|];
    [|by intros [= <- _]].
  destruct (output_delta _ _ _ _ _ _ _) as [tp' [dm|]];
    [|by intros [= <- _]].
  destruct (finish_reason output) as [reason|]; [|by intros [= <- _]].
  destruct (final_choice _ _ _ _ _) as [c'|e]; intros [= <- _]; cbn;
    [|done].
  destruct (decide (index output = i)) as [->|Hne].
  - apply list_lookup_insert_eq. by eapply lookup_lt_Some.
  - by rewrite list_lookup_insert_ne.
Qed.

(** A choice whose finish reason was sent yields nothing more. *)
Lemma handle_output_silent self request output s :
  finish_reason_sent s !! index output = Some true →
  handle_output self request output s = (s, Ok None).
Proof. intros Hi. unfold handle_output. by rewrite Hi. Qed.

Lemma run_outputs_silent self request outputs s i :
  finish_reason_sent s !! i = Some true →
  Forall (λ c, choice_index c ≠ i) (run_outputs self request outputs s).1.2.
Proof.
  revert s. induction outputs as [|o rest IH]; intros s Hi; [by cbn|].
  cbn [run_outputs].
  destruct (handle_output self request o s) as [s1 [c|e]] eqn:E; [|by cbn].
  pose proof (handle_output_sent_mono _ _ _ _ _ _ _ Hi E) as Hi1.
  specialize (IH s1 Hi1).
  destruct (run_outputs self request rest s1) as [[s2 cs] e2]. cbn in *.
  destruct c as [c|]; cbn; [|done].
  constructor; [|done].
  intros Hc. pose proof E as E'.
  apply handle_output_chunk in E' as [Hidx _]. rewrite Hidx in Hc.
  subst i. rewrite (handle_output_silent _ _ _ _ Hi) in E. discriminate E.
Qed.

(** X16. Whatever the outputs of the engine and the state of the locals, the
    chunk that carries a finish reason is the last chunk of its choice:
    [finish_reason_sent[i]] is set with it and never reset, and an output of
    a choice so marked is skipped. *)
Theorem stream_terminal_chunk_is_last (self : OpenAIServingChat)
    (request : ChatCompletionRequest) (outputs : list CompletionOutput)
    (s : StreamState) :
  terminal_last (run_outputs self request outputs s).1.2.
Proof.
  revert s. induction outputs as [|o rest IH]; intros s; [by cbn|].
  cbn [run_outputs].
  destruct (handle_output self request o s) as [s1 [c|e]] eqn:E; [|by cbn].
  specialize (IH s1).
  pose proof (run_outputs_silent self request rest s1) as Hsilent.
  destruct (run_outputs self request rest s1) as [[s2 cs] e2]. cbn in *.
  destruct c as [c|]; cbn; [|done].
  split; [|done]. intros Hfin.
  apply handle_output_chunk in E as [-> Hsent].
  apply Hsilent, Hsent, Hfin.
Qed.







End StreamGenerator.


(** ** Log probabilities *)

Lemma list_getitem_nat {A} (l : list A) (j : nat) :
  list_getitem l (Z.of_nat j)
  = match l !! j with Some x => Ok x | None => Raise IndexError end.
Proof.
  unfold list_getitem, norm_index.
  destruct (Z.ltb_spec (Z.of_nat j) 0); [lia|].
  destruct (Z.leb_spec 0 (Z.of_nat j)); [|lia]. cbn [andb].
  destruct (Z.ltb_spec (Z.of_nat j) (Z.of_nat (length l))).
  - by rewrite Nat2Z.id.
  - rewrite lookup_ge_None_2; [done|lia].
Qed.

Lemma mapM_total {A B} (f : A -> result B) (l : list A) :
  Forall (λ x, ∃ y, f x = Ok y) l → ∃ ys, Py.mapM f l = Ok ys.
Proof.
  induction 1 as [|x l [y Hy] _ [ys IH]]; [by exists []|].
  exists (y :: ys). cbn. unfold mbind, result_mbind, result_bind.
  by rewrite Hy, IH.
Qed.

Lemma mapM_length {A B} (f : A -> result B) (l : list A) ys :
  Py.mapM f l = Ok ys → length ys = length l.
Proof.
  intros Hm. apply mapM_Forall2 in Hm. symmetry.
  by eapply Forall2_length.
Qed.

Lemma enumerate_lookup {A} (l : list A) (i0 : Z) (j : nat) :
  Logprobs.enumerate i0 l !! j = (λ x, ((i0 + Z.of_nat j)%Z, x)) <$> l !! j.
Proof.
  revert i0 j. induction l as [|x l IH]; intros i0 j; [done|].
  destruct j as [|j]; cbn.
  - by rewrite Z.add_0_r.
  - rewrite IH. by replace (i0 + 1 + Z.of_nat j)%Z with (i0 + Z.pos (Pos.of_succ_nat j))%Z by lia.
Qed.

Lemma enumerate_length {A} (l : list A) (i0 : Z) :
  length (Logprobs.enumerate i0 l) = length l.
Proof.
  revert i0. induction l as [|x l IH]; intros i0; [done|].
  cbn. by rewrite IH.
Qed.

Lemma py_max_floor (x : spec_float) :
  SFltb (Logprobs.py_max x Logprobs.floor_logprob) Logprobs.floor_logprob
  = false.
Proof.
  unfold Logprobs.py_max.
  destruct (SFltb x Logprobs.floor_logprob) eqn:E; [|done].
  by vm_compute.
Qed.

Lemma omap_none {A B} (f : A -> option B) (l : list A) :
  (∀ x, f x = None) → omap f l = [].
Proof.
  intros Hf. induction l as [|x l IH]; [done|]. cbn. by rewrite Hf.
Qed.

Section LogprobFacts.
Import Logprobs.
Variable decode : Z -> str.
Variable get_decoded_token : Logprob -> Z -> str.
Variable encode_utf8 : str -> list Z.
Variable return_tokens_as_token_ids : bool.

Lemma get_top_logprobs_from (logprobs : list (Z * Logprob)) (k i0 : Z) :
  k ≠ 0%Z →
  omap (λ ip : Z * (Z * Logprob),
          if negb (k =? 0)%Z && (ip.1 <? k)%Z
          then Some (top_logprob_entry get_decoded_token encode_utf8 ip.2)
          else None)
       (enumerate i0 logprobs)
  = top_logprob_entry get_decoded_token encode_utf8
    <$> take (Z.to_nat (k - i0)) logprobs.
Proof.
  intros Hk. revert i0. induction logprobs as [|p l IH]; intros i0.
  { by rewrite take_nil. }
  cbn [enumerate omap list_omap fst snd].
  destruct (Z.eqb_spec k 0); [done|]. cbn [negb andb].
  destruct (Z.ltb_spec i0 k) as [Hlt|Hge].
  - replace (Z.to_nat (k - i0)) with (S (Z.to_nat (k - (i0 + 1)))) by lia.
    cbn [take fmap list_fmap]. f_equal.
    specialize (IH (i0 + 1)%Z).
    destruct (Z.eqb_spec k 0); [done|]. exact IH.
  - replace (Z.to_nat (k - i0)) with 0 by lia. cbn [take fmap list_fmap].
    specialize (IH (i0 + 1)%Z).
    destruct (Z.eqb_spec k 0); [done|]. cbn [negb andb] in IH.
    rewrite IH. by replace (Z.to_nat (k - (i0 + 1))) with 0 by lia.
Qed.

Lemma get_top_logprobs_take (logprobs : list (Z * Logprob))
    (top_logprobs : option Z) :
  _get_top_logprobs get_decoded_token encode_utf8 logprobs top_logprobs
  = top_logprob_entry get_decoded_token encode_utf8
    <$> take (Z.to_nat (default 0%Z top_logprobs)) logprobs.
Proof.
  unfold _get_top_logprobs. destruct top_logprobs as [k|].
  - destruct (decide (k = 0%Z)) as [->|Hk].
    + by rewrite omap_none.
    + rewrite (get_top_logprobs_from logprobs k 0 Hk).
      by rewrite Z.sub_0_r.
  - by rewrite omap_none.
Qed.

(** X18. [_get_top_logprobs] returns the entries of the first
    [top_logprobs] items of the dictionary, in its order: all of them when
    the dictionary is shorter, none when [top_logprobs] is [None], zero or
    negative. *)
Theorem get_top_logprobs_first_items (logprobs : list (Z * Logprob))
    (top_logprobs : option Z) :
  _get_top_logprobs get_decoded_token encode_utf8 logprobs top_logprobs
  = top_logprob_entry get_decoded_token encode_utf8
    <$> take (Z.to_nat (default 0%Z top_logprobs)) logprobs
  ∧ length (_get_top_logprobs get_decoded_token encode_utf8 logprobs
                              top_logprobs)
    = Z.to_nat (default 0%Z top_logprobs) `min` length logprobs.
Proof.
  split; [apply get_top_logprobs_take|].
  by rewrite get_top_logprobs_take, length_fmap, length_take.
Qed.

Lemma chat_logprobs_content_ok top k (j : nat) (token_id : Z) :
  (∃ c, chat_logprobs_content decode get_decoded_token encode_utf8
          return_tokens_as_token_ids top k (Z.of_nat j, token_id) = Ok c)
  ↔ ∃ step, top !! j = Some step
            ∧ ∀ d, step = Some d →
                   ∃ lp t, dict_getitem d token_id = Ok lp
                           ∧ decoded_token lp = Some t.
Proof.
  unfold chat_logprobs_content. rewrite list_getitem_nat.
  destruct (top !! j) as [[d|]|] eqn:Hj; cbn.
  - destruct (dict_getitem d token_id) as [lp|e] eqn:Hd; cbn.
    + destruct (decoded_token lp) as [t|] eqn:Ht; cbn.
      * split; [|by eauto]. intros _. exists (Some d). split; [done|].
        intros d' [= <-]. rewrite Hd. by exists lp, t.
      * split; [by intros [c Hc]|].
        intros (step & [= <-] & Hstep).
        destruct (Hstep d eq_refl) as (lp' & t & Hlp & Ht').
        rewrite Hd in Hlp. injection Hlp as <-. congruence.
    + split; [by intros [c Hc]|].
      intros (step & [= <-] & Hstep).
      destruct (Hstep d eq_refl) as (lp' & t & Hlp & Ht').
      rewrite Hd in Hlp. discriminate Hlp.
  - split; [|by eauto]. intros _. exists None. split; [done|]. done.
  - split; [by intros [c Hc]|]. by intros (step & Hs & _).
Qed.

(** X19. [_create_chat_logprobs] returns exactly when [top_logprobs] has an
    entry for every token and each entry that is not [None] holds the
    sampled token with a decoded text; it then returns one content item per
    token. In the other cases it raises: [top_logprobs[i]] is out of range,
    the dictionary has no key [token_id], or [decoded_token] is [None]. *)
Theorem create_chat_logprobs_ok_iff (token_ids : list Z)
    (top_logprobs : list (option (list (Z * Logprob))))
    (num_output_top_logprobs : option Z) :
  ((∃ content,
      _create_chat_logprobs decode get_decoded_token encode_utf8
        return_tokens_as_token_ids token_ids top_logprobs
        num_output_top_logprobs = Ok content)
   ↔ length token_ids ≤ length top_logprobs
     ∧ ∀ i token_id d,
         token_ids !! i = Some token_id →
         top_logprobs !! i = Some (Some d) →
         ∃ lp t, dict_getitem d token_id = Ok lp
                 ∧ decoded_token lp = Some t)
  ∧ ∀ content,
      _create_chat_logprobs decode get_decoded_token encode_utf8
        return_tokens_as_token_ids token_ids top_logprobs
        num_output_top_logprobs = Ok content →
      length content = length token_ids.
Proof.
  unfold _create_chat_logprobs. split.
  2:{ intros content Hc. apply mapM_length in Hc.
      by rewrite enumerate_length in Hc. }
  split.
  - intros [content Hc]. apply mapM_Forall2 in Hc.
    assert (Hall : ∀ i token_id, token_ids !! i = Some token_id →
              ∃ step, top_logprobs !! i = Some step
                      ∧ ∀ d, step = Some d →
                             ∃ lp t, dict_getitem d token_id = Ok lp
                                     ∧ decoded_token lp = Some t).
    { intros i token_id Hi.
      assert (Hen : enumerate 0 token_ids !! i = Some (Z.of_nat i, token_id)).
      { rewrite enumerate_lookup, Hi. done. }
      destruct (Forall2_lookup_l _ _ _ _ _ Hc Hen) as (c & _ & Hok).
      apply (proj1 (chat_logprobs_content_ok top_logprobs
                      num_output_top_logprobs i token_id)).
      by exists c. }
    split.
    + destruct (decide (length token_ids ≤ length top_logprobs)) as [|Hgt];
        [done|].
      destruct (lookup_lt_is_Some_2 token_ids (length top_logprobs))
        as [token_id Ht]; [lia|].
      destruct (Hall _ _ Ht) as (step & Hs & _).
      apply lookup_lt_Some in Hs. lia.
    + intros i token_id d Hi Hd.
      destruct (Hall _ _ Hi) as (step & Hs & Hstep).
      rewrite Hd in Hs. injection Hs as <-. by apply Hstep.
  - intros [Hlen Hall]. apply mapM_total. apply Forall_lookup.
    intros i [i' token_id]. rewrite enumerate_lookup.
    destruct (token_ids !! i) as [t|] eqn:Hi; [|done].
    cbn. intros [= <- <-]. rewrite Z.add_0_l.
    apply (proj2 (chat_logprobs_content_ok top_logprobs
                    num_output_top_logprobs i t)).
    destruct (lookup_lt_is_Some_2 top_logprobs i) as [step Hs].
    { apply lookup_lt_Some in Hi. lia. }
    exists step. split; [done|]. intros d ->. by eapply Hall.
Qed.

(** X20. No log probability that [_create_chat_logprobs] reports, for a
    token or among its top entries, is below [-9999.0]: a [-inf] or a lower
    value comes out as [-9999.0]. *)
Theorem chat_logprobs_floor (token_ids : list Z)
    (top_logprobs : list (option (list (Z * Logprob))))
    (num_output_top_logprobs : option Z)
    (content : list ChatCompletionLogProbsContent) :
  _create_chat_logprobs decode get_decoded_token encode_utf8
    return_tokens_as_token_ids token_ids top_logprobs
    num_output_top_logprobs = Ok content →
  Forall (λ x, SFltb x floor_logprob = false) (reported_logprobs content)
  ∧ S754_infinity true ∉ reported_logprobs content.
Proof.
  intros Hc.
  assert (Hall : Forall (λ x, SFltb x floor_logprob = false)
                        (reported_logprobs content)).
  { unfold _create_chat_logprobs in Hc. apply mapM_Forall2 in Hc.
    unfold reported_logprobs. apply Forall_bind.
    apply Forall_forall. intros c Hin.
    apply list_elem_of_lookup in Hin as [j Hj].
    destruct (Forall2_lookup_r _ _ _ _ _ Hc Hj) as ([i token_id] & _ & Hok).
    revert Hok. unfold chat_logprobs_content.
    destruct (list_getitem top_logprobs i) as [[d|]|]; cbn; [| |done].
    - destruct (dict_getitem d token_id) as [lp|]; cbn; [|done].
      destruct (decoded_token lp); cbn; [|done].
      intros [= <-]. cbn. constructor; [apply py_max_floor|].
      rewrite get_top_logprobs_take.
      apply Forall_fmap, Forall_fmap, Forall_forall. intros p _. cbn.
      apply py_max_floor.
    - intros [= <-]. cbn. constructor. }
  split; [exact Hall|].
  intros Hin. rewrite Forall_forall in Hall. specialize (Hall _ Hin).
  by vm_compute in Hall.
Qed.
End LogprobFacts.

(** A log probability of minus infinity for the sampled token and for one of
    two top entries. *)
Lemma chat_logprobs_floor_witness :
  let decode := λ _ : Z, py "?" in
  let get_decoded_token :=
    λ (lp : Logprobs.Logprob) (_ : Z),
      default (py "?") (Logprobs.decoded_token lp) in
  let encode_utf8 := λ s : str, (λ c, Z.of_nat (nat_of_ascii c)) <$> s in
  let step :=
    [ (3%Z, {| Logprobs.logprob := S754_infinity true;
               Logprobs.decoded_token := Some (py "a") |});
      (4%Z, {| Logprobs.logprob := S754_finite true (2 ^ 52) (-52);
               Logprobs.decoded_token := Some (py "b") |}) ] in
  ∃ content,
    Logprobs._create_chat_logprobs decode get_decoded_token encode_utf8
      false [3%Z] [Some step] (Some 2%Z) = Ok content
    ∧ Logprobs.reported_logprobs content
      = [ Logprobs.floor_logprob; Logprobs.floor_logprob;
          S754_finite true (2 ^ 52) (-52) ]
    ∧ Forall (λ x, SFltb x Logprobs.floor_logprob = false)
             (Logprobs.reported_logprobs content)
    ∧ S754_infinity true ∉ Logprobs.reported_logprobs content.
Proof.
  intros decode get_decoded_token encode_utf8 step.
  eexists. split; [by vm_compute|]. split; [by vm_compute|].
  eapply (chat_logprobs_floor decode get_decoded_token encode_utf8 false
            [3%Z] [Some step] (Some 2%Z)).
  by vm_compute.
Defined.

(** ** The full generator *)

Section FullGeneratorFacts.
Context `{JsonLib}.
Import FullGenerator.
Variable decode : Z -> str.
Variable get_decoded_token : Logprobs.Logprob -> Z -> str.
Variable encode_utf8 : str -> list Z.
Variable return_tokens_as_token_ids : bool.

Lemma class_extract_tool_calls_ok cls model_output :
  ∃ info, class_extract_tool_calls cls model_output = Ok info.
Proof.
  destruct cls; cbn [class_extract_tool_calls].
  - unfold Mistral.extract_tool_calls. destruct (negb _); [by eauto|].
    destruct (Mistral.extract_tool_calls_body _); cbn; by eauto.
  - unfold Hermes.extract_tool_calls. destruct (negb _); [by eauto|].
    destruct (Hermes.extract_tool_calls_body _); cbn; by eauto.
Qed.

Lemma choice_message_ok self request role text :
  ∃ message called, choice_message self request role text
                    = Ok (message, called).
Proof.
  unfold choice_message.
  destruct (Serving.tool_choice request) as [|c|name]; [| |by eauto].
  - destruct (negb _); [by eauto|]. destruct (_ || _); [by eauto|].
    destruct (_ && _); [|by eauto].
    destruct (Serving.tool_parser self) as [cls|]; [|by eauto].
    destruct (class_extract_tool_calls_ok cls text) as [info ->]. cbn.
    destruct (tools_called info); by eauto.
  - destruct (negb _); [by eauto|]. destruct (_ || _); [by eauto|].
    destruct (_ && _); [|by eauto].
    destruct (Serving.tool_parser self) as [cls|]; [|by eauto].
    destruct (class_extract_tool_calls_ok cls text) as [info ->]. cbn.
    destruct (tools_called info); by eauto.
Qed.

Lemma for_each_Forall2 {A B} (f : A -> outcome B) l ys :
  for_each f l = Returned ys ↔ Forall2 (λ x y, f x = Returned y) l ys.
Proof.
  revert ys. induction l as [|x l IH]; intros ys; cbn.
  - split.
    + intros [= <-]. constructor.
    + intros Hf. by inversion Hf.
  - destruct (f x) as [y| |] eqn:Hx; cbn.
    + destruct (for_each f l) as [ys'| |] eqn:Hl; cbn.
      * split.
        -- intros [= <-]. constructor; [done|]. by apply IH.
        -- intros Hf. inversion Hf as [|? y' ? ys'' Hy Hrest]; subst.
           apply IH in Hrest. congruence.
      * split; [done|]. intros Hf.
        inversion Hf as [|? y' ? ys'' Hy Hrest]; subst.
        apply IH in Hrest. congruence.
      * split; [done|]. intros Hf.
        inversion Hf as [|? y' ? ys'' Hy Hrest]; subst.
        apply IH in Hrest. congruence.
    + split; [done|]. intros Hf. inversion Hf; congruence.
    + split; [done|]. intros Hf. inversion Hf; congruence.
Qed.

Lemma for_each_total {A B} (f : A -> outcome B) l :
  (∀ x, ∃ y, f x = Returned y) → ∃ ys, for_each f l = Returned ys.
Proof.
  intros Hf. induction l as [|x l [ys IH]]; [by exists []|].
  destruct (Hf x) as [y Hy]. exists (y :: ys). cbn. by rewrite Hy, IH.
Qed.

Lemma last_result_connected raw_request k results acc :
  (∀ d, raw_request = Some d → ∀ k, d k = false) →
  last_result raw_request k results acc
  = Some (match last results with Some r => Some r | None => acc end).
Proof.
  intros Hd. revert k acc. induction results as [|res rest IH];
    intros k acc; [done|].
  cbn [last_result].
  assert (match raw_request with Some d => d k | None => false end = false)
    as ->.
  { destruct raw_request as [d|]; [by apply Hd|done]. }
  rewrite IH, last_cons. by destruct (last rest).
Qed.

Lemma last_result_Some raw_request k results acc final_res :
  last_result raw_request k results acc = Some (Some final_res) →
  match last results with Some r => Some r | None => acc end
  = Some final_res.
Proof.
  revert k acc. induction results as [|res rest IH]; intros k acc.
  { by intros [= ->]. }
  cbn [last_result].
  destruct (match raw_request with Some d => d k | None => false end);
    [done|].
  intros Hl. apply IH in Hl. rewrite last_cons. by destruct (last rest).
Qed.

(** What a returned response was built from. *)
Lemma full_generator_inv self response_role request options raw_request
    results conversation response :
  chat_completion_full_generator decode get_decoded_token encode_utf8
    return_tokens_as_token_ids self response_role request options
    raw_request results conversation = Returned (Completion response) →
  ∃ final_res role cs,
    last results = Some final_res
    ∧ get_chat_request_role response_role options = Ok role
    ∧ Forall2 (λ o c, choice_data decode get_decoded_token encode_utf8
                        return_tokens_as_token_ids self request options
                        role o = Returned c)
              (outputs final_res) cs
    ∧ choices response
      = (if echo options
         then echo_choice (last_msg_content conversation role) <$> cs
         else cs)
    ∧ usage response
      = {| prompt_tokens := length (prompt_token_ids final_res);
           completion_tokens :=
             sum_list_with (λ o, length (Serving.token_ids (output o)))
                           (outputs final_res);
           total_tokens :=
             length (prompt_token_ids final_res)
             + sum_list_with (λ o, length (Serving.token_ids (output o)))
                             (outputs final_res) |}.
Proof.
  unfold chat_completion_full_generator.
  destruct (last_result raw_request 0 results None)
    as [[final_res|]|] eqn:Hlast; [|done|done].
  apply last_result_Some in Hlast.
  destruct (get_chat_request_role response_role options) as [role|e];
    [|done].
  cbn [of_result outcome_bind].
  destruct (for_each _ _) as [cs| |] eqn:Hcs; [|done|done].
  cbn [outcome_bind]. intros [= <-].
  exists final_res, role, cs. split.
  { by destruct (last results). }
  split; [done|]. split; [by apply for_each_Forall2|]. done.
Qed.

Lemma choice_data_inv self request options role o c :
  choice_data decode get_decoded_token encode_utf8
    return_tokens_as_token_ids self request options role o = Returned c →
  ∃ message called,
    choice_message self request role (Serving.text (output o))
    = Ok (message, called)
    ∧ rc_index c = Serving.index (output o)
    ∧ rc_message c = message
    ∧ rc_finish_reason c
      = choice_finish_reason called (Serving.finish_reason (output o)).
Proof.
  unfold choice_data.
  destruct (if logprobs options && _ then _ else _) as [l| |];
    [|done|done].
  cbn [outcome_bind].
  destruct (choice_message _ _ _ _) as [[message called]|e]; [|done].
  cbn [of_result outcome_bind]. intros [= <-].
  by exists message, called.
Qed.

Lemma choice_data_total self request options role o :
  logprobs options = false ∨ top_logprobs options = None →
  ∃ c, choice_data decode get_decoded_token encode_utf8
         return_tokens_as_token_ids self request options role o
       = Returned c.
Proof.
  intros Hoff. unfold choice_data.
  assert (logprobs options
          && match top_logprobs options with
             | Some _ => true
             | None => false
             end = false) as ->.
  { destruct Hoff as [-> | ->]; [done|]. by destruct (logprobs options). }
  cbn [outcome_bind].
  destruct (choice_message_ok self request role (Serving.text (output o)))
    as (message & called & ->).
  cbn [of_result outcome_bind]. by eauto.
Qed.

Lemma choice_finish_reason_nonempty called reason :
  choice_finish_reason called reason ≠ [].
Proof.
  unfold choice_finish_reason. destruct called; [done|].
  by destruct reason as [[|??]|].
Qed.

Lemma list_getitem_last {A} (l : list A) :
  l ≠ [] → ∃ x, list_getitem l (-1)%Z = Ok x.
Proof.
  intros Hl. unfold list_getitem, norm_index.
  assert (0 < length l) by (destruct l; [done|cbn; lia]).
  change (-1 <? 0)%Z with true. cbv beta iota.
  destruct (Z.leb_spec 0 (-1 + Z.of_nat (length l))); [|lia].
  destruct (Z.ltb_spec (-1 + Z.of_nat (length l)) (Z.of_nat (length l)));
    [|lia].
  cbn [andb].
  destruct (lookup_lt_is_Some_2 l (Z.to_nat (-1 + Z.of_nat (length l))))
    as [x ->]; [lia|]. by exists x.
Qed.

(** X21. With log probabilities not requested, a result stream that is not
    empty, a client that stays connected and a role to be had, the full
    generator returns a response, whatever the model wrote: the tool parsers
    cannot make it raise. The response has one choice per output of the
    last result, with the indices of the outputs, each with a finish reason
    that is not empty, and a usage whose total is the sum of its parts. *)
Theorem full_generator_returns (self : Serving.OpenAIServingChat)
    (response_role : str) (request : Serving.ChatCompletionRequest)
    (options : RequestOptions) (raw_request : option (nat -> bool))
    (results : list RequestOutput) (conversation : list ConversationMessage)
    (final_res : RequestOutput) :
  logprobs options = false ∨ top_logprobs options = None →
  last results = Some final_res →
  (∀ d, raw_request = Some d → ∀ k, d k = false) →
  add_generation_prompt options = true ∨ messages_roles options ≠ [] →
  ∃ response,
    chat_completion_full_generator decode get_decoded_token encode_utf8
      return_tokens_as_token_ids self response_role request options
      raw_request results conversation = Returned (Completion response)
    ∧ rc_index <$> choices response
      = (λ o, Serving.index (output o)) <$> outputs final_res
    ∧ Forall (λ c, rc_finish_reason c ≠ []) (choices response)
    ∧ completion_tokens (usage response)
      = sum_list_with (λ o, length (Serving.token_ids (output o)))
                      (outputs final_res)
    ∧ total_tokens (usage response)
      = prompt_tokens (usage response) + completion_tokens (usage response).
Proof.
  intros Hoff Hlast Hconn Hrole.
  assert (∃ response,
    chat_completion_full_generator decode get_decoded_token encode_utf8
      return_tokens_as_token_ids self response_role request options
      raw_request results conversation = Returned (Completion response))
    as [response Hresp].
  { unfold chat_completion_full_generator.
    rewrite (last_result_connected _ _ _ _ Hconn), Hlast.
    assert (∃ role, get_chat_request_role response_role options = Ok role)
      as [role ->].
    { unfold get_chat_request_role.
      destruct (add_generation_prompt options); [by eauto|].
      destruct Hrole as [|Hne]; [done|]. by apply list_getitem_last. }
    cbn [of_result outcome_bind].
    destruct (for_each_total
                (choice_data decode get_decoded_token encode_utf8
                   return_tokens_as_token_ids self request options role)
                (outputs final_res)) as [cs ->].
    { intros o. by apply choice_data_total. }
    cbn [outcome_bind]. by eauto. }
  exists response. split; [exact Hresp|].
  apply full_generator_inv in Hresp
    as (final_res' & role & cs & Hlast' & _ & Hcs & Hchoices & Husage).
  assert (final_res' = final_res) as -> by congruence.
  rewrite Hchoices, Husage. cbn [completion_tokens total_tokens prompt_tokens].
  split; [|split; [|done]].
  - assert (rc_index <$> cs
            = (λ o, Serving.index (output o)) <$> outputs final_res) as <-.
    { clear -Hcs. induction Hcs as [|o c os cs' Hc _ IH]; [done|].
      apply choice_data_inv in Hc as (? & ? & _ & Hidx & _).
      cbn. by rewrite Hidx, IH. }
    destruct (echo options); [|done].
    rewrite <- list_fmap_compose. by apply list_fmap_ext.
  - assert (Forall (λ c, rc_finish_reason c ≠ []) cs) as Hfin.
    { clear -Hcs. induction Hcs as [|o c os cs' Hc _ IH]; [done|].
      constructor; [|done].
      apply choice_data_inv in Hc as (? & ? & _ & _ & _ & ->).
      apply choice_finish_reason_nonempty. }
    destruct (echo options); [|done].
    apply Forall_fmap. eapply Forall_impl; [exact Hfin|]. done.
Qed.

(** X22. With a named tool choice every choice of a returned response is
    the call of the named function: [content] is the empty string, the one
    tool call has the name of the request and the whole text of the output
    as its arguments, and the finish reason is ['tool_calls'], whatever
    reason the engine gave (a text cut at the length limit included) and
    whatever the server's tool settings are. *)
Theorem full_generator_named_choice (self : Serving.OpenAIServingChat)
    (response_role : str) (request : Serving.ChatCompletionRequest)
    (options : RequestOptions) (raw_request : option (nat -> bool))
    (results : list RequestOutput) (conversation : list ConversationMessage)
    (name : str) (response : ChatCompletionResponse) :
  Serving.tool_choice request = Serving.ChoiceNamed name →
  chat_completion_full_generator decode get_decoded_token encode_utf8
    return_tokens_as_token_ids self response_role request options
    raw_request results conversation = Returned (Completion response) →
  ∃ final_res,
    last results = Some final_res
    ∧ Forall2
        (λ o c,
           msg_content (rc_message c) = Some []
           ∧ msg_tool_calls (rc_message c)
             = [ {| tc_type := py "function";
                    tc_function :=
                      {| fc_name := name;
                         fc_arguments := Serving.text (output o) |} |} ]
           ∧ rc_finish_reason c = py "tool_calls")
        (outputs final_res) (choices response).
Proof.
  intros Hnamed Hresp.
  apply full_generator_inv in Hresp
    as (final_res & role & cs & Hlast & _ & Hcs & -> & _).
  exists final_res. split; [done|].
  assert (Hall : Forall2
    (λ o c,
       msg_content (rc_message c) = Some []
       ∧ msg_tool_calls (rc_message c)
         = [ {| tc_type := py "function";
                tc_function :=
                  {| fc_name := name;
                     fc_arguments := Serving.text (output o) |} |} ]
       ∧ rc_finish_reason c = py "tool_calls")
    (outputs final_res) cs).
  { eapply Forall2_impl; [exact Hcs|]. intros o c Hc.
    apply choice_data_inv in Hc as (m & called & Hm & _ & -> & ->).
    unfold choice_message in Hm. rewrite Hnamed in Hm.
    by injection Hm as <- <-. }
  destruct (echo options); [|done].
  apply Forall2_fmap_r. eapply Forall2_impl; [exact Hall|].
  intros o c (Hc & Ht & Hf). cbn. by rewrite Hc.
Qed.

(** X23. With [tool_choice] absent, empty or ['none'], no choice of a
    returned response has tool calls and the tool parser is not consulted,
    tools and auto tool choice or not: [content] is the text of the output,
    with the echoed message in front when [echo] is set and the text is not
    empty, and the finish reason is the one of the output, or ['stop']. *)
Theorem full_generator_no_tool_choice (self : Serving.OpenAIServingChat)
    (response_role : str) (request : Serving.ChatCompletionRequest)
    (options : RequestOptions) (raw_request : option (nat -> bool))
    (results : list RequestOutput) (conversation : list ConversationMessage)
    (response : ChatCompletionResponse) :
  choice_truthy (Serving.tool_choice request) = false
  ∨ Serving.tool_choice request = Serving.ChoiceStr (py "none") →
  chat_completion_full_generator decode get_decoded_token encode_utf8
    return_tokens_as_token_ids self response_role request options
    raw_request results conversation = Returned (Completion response) →
  ∃ final_res role,
    last results = Some final_res
    ∧ get_chat_request_role response_role options = Ok role
    ∧ Forall2
        (λ o c,
           msg_tool_calls (rc_message c) = []
           ∧ msg_content (rc_message c)
             = Some (if echo options
                     then echo_content (last_msg_content conversation role)
                                       (Some (Serving.text (output o)))
                     else Serving.text (output o))
           ∧ rc_finish_reason c
             = choice_finish_reason false
                 (Serving.finish_reason (output o)))
        (outputs final_res) (choices response).
Proof.
  intros Hchoice Hresp.
  apply full_generator_inv in Hresp
    as (final_res & role & cs & Hlast & Hrole & Hcs & -> & _).
  exists final_res, role. split; [done|]. split; [done|].
  assert (Hall : Forall2
    (λ o c,
       rc_message c = {| msg_role := role;
                         msg_content := Some (Serving.text (output o));
                         msg_tool_calls := [] |}
       ∧ rc_finish_reason c
         = choice_finish_reason false (Serving.finish_reason (output o)))
    (outputs final_res) cs).
  { eapply Forall2_impl; [exact Hcs|]. intros o c Hc.
    apply choice_data_inv in Hc as (m & called & Hm & _ & -> & ->).
    revert Hm. unfold choice_message.
    destruct (Serving.tool_choice request) as [|ch|nm] eqn:Htc.
    - destruct (negb _); [by intros [= <- <-]|].
      cbn [choice_truthy negb orb]. by intros [= <- <-].
    - destruct (negb _); [by intros [= <- <-]|].
      assert (negb (choice_truthy (Serving.ChoiceStr ch))
              || Serving.choice_is (Serving.ChoiceStr ch) (py "none")
              = true) as ->.
      { destruct Hchoice as [Hf|[= ->]].
        - by rewrite Hf.
        - apply orb_true_iff. right. cbn [Serving.choice_is].
          by apply bool_decide_eq_true_2. }
      by intros [= <- <-].
    - by destruct Hchoice. }
  destruct (echo options).
  - apply Forall2_fmap_r. eapply Forall2_impl; [exact Hall|].
    intros o c (Hm & Hf). cbn. by rewrite Hm.
  - eapply Forall2_impl; [exact Hall|].
    intros o c (Hm & Hf). by rewrite Hm.
Qed.

(** X24. On a server with the Hermes parser and auto tool choice, for a
    request with tools and [tool_choice == 'auto']: an output in the Hermes
    format, made of well-formed calls, comes back as a choice holding
    exactly these calls, in order, with the finish reason ['tool_calls']. *)
Theorem full_generator_hermes_tool_calls
    (self : Serving.OpenAIServingChat) (response_role : str)
    (request : Serving.ChatCompletionRequest) (options : RequestOptions)
    (raw_request : option (nat -> bool)) (results : list RequestOutput)
    (conversation : list ConversationMessage)
    (response : ChatCompletionResponse) :
  Serving.enable_auto_tools self = true →
  Serving.tool_parser self = Some Serving.HermesClass →
  Serving.tools request = true →
  Serving.tool_choice request = Serving.ChoiceStr (py "auto") →
  chat_completion_full_generator decode get_decoded_token encode_utf8
    return_tokens_as_token_ids self response_role request options
    raw_request results conversation = Returned (Completion response) →
  ∃ final_res,
    last results = Some final_res
    ∧ Forall2
        (λ o c,
           ∀ c0 rest tail,
             Forall hermes_call_ok (c0 :: rest) →
             PyStr.contains tail Hermes.tool_call_start_token = false →
             Serving.text (output o)
             = hermes_output (hermes_segment <$> (c0 :: rest)) tail →
             msg_tool_calls (rc_message c)
             = hermes_tool_call <$> (c0 :: rest)
             ∧ rc_finish_reason c = py "tool_calls")
        (outputs final_res) (choices response).
Proof.
  intros Henable Hparser Htools Hauto Hresp.
  apply full_generator_inv in Hresp
    as (final_res & role & cs & Hlast & _ & Hcs & -> & _).
  exists final_res. split; [done|].
  assert (Hall : Forall2
    (λ o c,
       ∀ c0 rest tail,
         Forall hermes_call_ok (c0 :: rest) →
         PyStr.contains tail Hermes.tool_call_start_token = false →
         Serving.text (output o)
         = hermes_output (hermes_segment <$> (c0 :: rest)) tail →
         msg_tool_calls (rc_message c) = hermes_tool_call <$> (c0 :: rest)
         ∧ rc_finish_reason c = py "tool_calls")
    (outputs final_res) cs).
  { eapply Forall2_impl; [exact Hcs|]. intros o c Hc c0 rest tail Hok Htail Ht.
    apply choice_data_inv in Hc as (m & called & Hm & _ & -> & ->).
    revert Hm. unfold choice_message, Serving.has_parser.
    rewrite Hauto, Henable, Hparser, Htools.
    cbn [negb orb andb choice_truthy Serving.choice_is].
    rewrite bool_decide_eq_true_2 by done.
    rewrite bool_decide_eq_false_2 by done.
    rewrite bool_decide_eq_true_2 by done.
    cbn [negb orb andb class_extract_tool_calls].
    rewrite Ht, (hermes_extract_output c0 rest tail Hok Htail).
    cbn [mbind result_mbind result_bind tools_called tool_calls content].
    by intros [= <- <-]. }
  destruct (echo options); [|done].
  apply Forall2_fmap_r. eapply Forall2_impl; [exact Hall|].
  intros o c Hc c0 rest tail Hok Htail Ht. cbn.
  by apply (Hc c0 rest tail).
Qed.
End FullGeneratorFacts.

(** A plain server, a text cut at the length limit: the response echoes the
    assistant message in front of the text and keeps the reason. *)
Lemma full_generator_returns_witness :
  ∃ response,
    FullExamples.run FullExamples.plain_server
      (FullExamples.request_with Serving.ChoiceNone)
      [FullExamples.result_of (py "Hi") (Some (py "length"))]
    = FullGenerator.Returned (FullGenerator.Completion response)
    ∧ FullGenerator.rc_index <$> FullGenerator.choices response = [0]
    ∧ Forall (λ c, FullGenerator.rc_finish_reason c ≠ [])
             (FullGenerator.choices response)
    ∧ FullGenerator.completion_tokens (FullGenerator.usage response) = 2
    ∧ FullGenerator.total_tokens (FullGenerator.usage response)
      = FullGenerator.prompt_tokens (FullGenerator.usage response)
        + FullGenerator.completion_tokens (FullGenerator.usage response).
Proof.
  apply (@full_generator_returns hermes_example_lib FullExamples.decode
           FullExamples.get_decoded_token FullExamples.encode_utf8 false
           FullExamples.plain_server (py "assistant")
           (FullExamples.request_with Serving.ChoiceNone)
           FullExamples.options None
           [FullExamples.result_of (py "Hi") (Some (py "length"))]
           FullExamples.conversation
           (FullExamples.result_of (py "Hi") (Some (py "length")))).
  - left. reflexivity.
  - reflexivity.
  - intros d Hd. discriminate Hd.
  - left. reflexivity.
Defined.

(** A named tool choice and arguments cut at the length limit: the finish
    reason is ['tool_calls']. *)
Lemma full_generator_named_choice_witness :
  ∃ response,
    FullExamples.run FullExamples.plain_server
      (FullExamples.request_with (Serving.ChoiceNamed (py "f")))
      [FullExamples.result_of (pyq "{'x': 1") (Some (py "length"))]
    = FullGenerator.Returned (FullGenerator.Completion response)
    ∧ ∃ final_res,
        last [FullExamples.result_of (pyq "{'x': 1") (Some (py "length"))]
        = Some final_res
        ∧ Forall2
            (λ o c,
               FullGenerator.msg_content (FullGenerator.rc_message c)
               = Some []
               ∧ FullGenerator.msg_tool_calls (FullGenerator.rc_message c)
                 = [ {| tc_type := py "function";
                        tc_function :=
                          {| fc_name := py "f";
                             fc_arguments :=
                               Serving.text (FullGenerator.output o) |} |} ]
               ∧ FullGenerator.rc_finish_reason c = py "tool_calls")
            (FullGenerator.outputs final_res)
            (FullGenerator.choices response).
Proof.
  eexists. split; [by vm_compute|].
  eapply (@full_generator_named_choice hermes_example_lib
            FullExamples.decode FullExamples.get_decoded_token
            FullExamples.encode_utf8 false
            FullExamples.plain_server (py "assistant")
            (FullExamples.request_with (Serving.ChoiceNamed (py "f")))
            FullExamples.options None
            [FullExamples.result_of (pyq "{'x': 1") (Some (py "length"))]
            FullExamples.conversation (py "f")).
  - reflexivity.
  - by vm_compute.
Defined.

(** No tool choice on a server with the Hermes parser, tools in the request
    and a tool call in the text: the text comes back as content, behind the
    echoed message. *)
Lemma full_generator_no_tool_choice_witness :
  ∃ response,
    FullExamples.run FullExamples.hermes_server
      (FullExamples.request_with Serving.ChoiceNone)
      [FullExamples.result_of FullExamples.hermes_text None]
    = FullGenerator.Returned (FullGenerator.Completion response)
    ∧ ∃ final_res role,
        last [FullExamples.result_of FullExamples.hermes_text None]
        = Some final_res
        ∧ FullGenerator.get_chat_request_role (py "assistant")
            FullExamples.options = Ok role
        ∧ Forall2
            (λ o c,
               FullGenerator.msg_tool_calls (FullGenerator.rc_message c)
               = []
               ∧ FullGenerator.msg_content (FullGenerator.rc_message c)
                 = Some (if FullGenerator.echo FullExamples.options
                         then FullGenerator.echo_content
                                (FullGenerator.last_msg_content
                                   FullExamples.conversation role)
                                (Some (Serving.text (FullGenerator.output o)))
                         else Serving.text (FullGenerator.output o))
               ∧ FullGenerator.rc_finish_reason c
                 = FullGenerator.choice_finish_reason false
                     (Serving.finish_reason (FullGenerator.output o)))
            (FullGenerator.outputs final_res)
            (FullGenerator.choices response).
Proof.
  eexists. split; [by vm_compute|].
  eapply (@full_generator_no_tool_choice hermes_example_lib
            FullExamples.decode FullExamples.get_decoded_token
            FullExamples.encode_utf8 false
            FullExamples.hermes_server (py "assistant")
            (FullExamples.request_with Serving.ChoiceNone)
            FullExamples.options None
            [FullExamples.result_of FullExamples.hermes_text None]
            FullExamples.conversation).
  - left. reflexivity.
  - by vm_compute.
Defined.

(** The same text under [tool_choice == 'auto']: the two calls come back. *)
Lemma full_generator_hermes_tool_calls_witness :
  ∃ response c,
    FullExamples.run FullExamples.hermes_server
      (FullExamples.request_with (Serving.ChoiceStr (py "auto")))
      [FullExamples.result_of FullExamples.hermes_text None]
    = FullGenerator.Returned (FullGenerator.Completion response)
    ∧ FullGenerator.choices response = [c]
    ∧ FullGenerator.msg_tool_calls (FullGenerator.rc_message c)
      = hermes_tool_call <$> hermes_example_calls
    ∧ FullGenerator.rc_finish_reason c = py "tool_calls".
Proof.
  destruct (FullExamples.run FullExamples.hermes_server
              (FullExamples.request_with (Serving.ChoiceStr (py "auto")))
              [FullExamples.result_of FullExamples.hermes_text None])
    as [[|response]| |] eqn:Hrun; try (by vm_compute in Hrun).
  destruct (@full_generator_hermes_tool_calls hermes_example_lib
              FullExamples.decode FullExamples.get_decoded_token
              FullExamples.encode_utf8 false
              FullExamples.hermes_server (py "assistant")
              (FullExamples.request_with (Serving.ChoiceStr (py "auto")))
              FullExamples.options None
              [FullExamples.result_of FullExamples.hermes_text None]
              FullExamples.conversation response)
    as (final_res & Hlast & Hall); try reflexivity; [exact Hrun|].
  injection Hlast as <-.
  cbn [FullExamples.result_of FullGenerator.outputs] in Hall.
  apply Forall2_cons_inv_l in Hall as (c & cs & Hc & Hnil & Hchoices).
  apply Forall2_nil_inv_l in Hnil as ->.
  exists response, c. split; [done|]. split; [exact Hchoices|].
  destruct hermes_example_calls as [|c0 rest] eqn:Hcalls;
    [discriminate Hcalls|].
  apply (Hc c0 rest []).
  - rewrite <- Hcalls. apply hermes_example_calls_ok.
  - reflexivity.
  - cbn [FullGenerator.output Serving.text].
    unfold FullExamples.hermes_text. by rewrite Hcalls.
Defined.

(** ** The stream generator as a whole *)

Section StreamFrame.
Context `{JsonLib}.
Import StreamGenerator.

Lemma handle_outputs_payload self request stream_options res outs loc :
  Forall (λ item, is_payload item ∧ ∀ u, item ≠ UsageChunk u)
         (handle_outputs self request stream_options res outs loc).1.2.
Proof.
  revert loc. induction outs as [|o rest IH]; intros loc; [by cbn|].
  cbn [handle_outputs].
  destruct (Serving.handle_output self request o (stream_state loc))
    as [s' [c|e]]; [|by cbn].
  match goal with
  | |- context [handle_outputs _ _ _ _ rest ?l] => specialize (IH l);
      destruct (handle_outputs self request stream_options res rest l)
        as [[loc'' items] e']
  end.
  cbn [fst snd] in *. destruct c as [c|]; cbn; [|done].
  constructor; [|done]. by split.
Qed.

Lemma first_iteration_chunks_payload options stream_options conversation
    role num_choices res loc :
  Forall (λ item, is_payload item ∧ ∀ u, item ≠ UsageChunk u)
         (first_iteration_chunks options stream_options conversation role
            num_choices res loc).2.
Proof.
  unfold first_iteration_chunks. cbn [snd]. apply Forall_app. split.
  - apply Forall_fmap, Forall_forall. intros i _. by split.
  - destruct (_ && _); [|done].
    apply Forall_fmap, Forall_forall. intros i _. by split.
Qed.

Lemma handle_results_payload self response_role request options
    stream_options conversation num_choices first results loc :
  Forall (λ item, is_payload item ∧ ∀ u, item ≠ UsageChunk u)
         (handle_results self response_role request options stream_options
            conversation num_choices first results loc).1.2.
Proof.
  revert first loc. induction results as [|res rest IH]; intros first loc;
    [by cbn|].
  cbn [handle_results].
  set (start := if first then _ else _).
  assert (Hstart : ∀ loc1 items, start = Ok (loc1, items) →
            Forall (λ item, is_payload item ∧ ∀ u, item ≠ UsageChunk u)
                   items).
  { subst start. intros loc1 items. destruct first.
    - destruct (FullGenerator.get_chat_request_role _ _) as [role|e];
        [|done].
      cbn [mbind result_mbind result_bind]. intros [= _ <-].
      exact (first_iteration_chunks_payload options stream_options
               conversation role num_choices res loc).
    - by intros [= <- <-]. }
  destruct start as [[loc1 items1]|e]; [|by cbn].
  specialize (Hstart _ _ eq_refl).
  pose proof (handle_outputs_payload self request stream_options res
                (outputs res) loc1) as Houts.
  destruct (handle_outputs self request stream_options res (outputs res)
              loc1) as [[loc2 items2] [e|]]; cbn [fst snd] in *.
  - apply Forall_app. by split.
  - specialize (IH false loc2).
    destruct (handle_results self response_role request options
                stream_options conversation num_choices false rest loc2)
      as [[loc3 items3] e3]. cbn [fst snd] in *.
    apply Forall_app. split; [done|]. apply Forall_app. by split.
Qed.

Lemma try_body_payload self response_role request options stream_options
    conversation num_choices tool_parser results engine_error :
  Forall is_payload
         (try_body self response_role request options stream_options
            conversation num_choices tool_parser results engine_error).1.
Proof.
  unfold try_body.
  match goal with
  | |- context [handle_results ?a ?b ?c ?d ?e ?f ?g ?h ?i ?l] =>
    pose proof (handle_results_payload a b c d e f g h i l) as Hp;
    destruct (handle_results a b c d e f g h i l) as [[loc items] e0]
  end.
  cbn [fst snd] in Hp.
  assert (Hitems : Forall is_payload items).
  { eapply Forall_impl; [exact Hp|]. by intros item [? _]. }
  destruct e0 as [e0|]; [done|].
  destruct engine_error as [e1|]; [done|].
  destruct (include_usage stream_options); [|done].
  destruct (local_prompt_tokens loc) as [p|]; [|done].
  destruct (local_i loc) as [i|]; [|done].
  destruct (Serving.previous_num_tokens (stream_state loc) !! i) as [k|];
    [|done].
  cbn [fst]. apply Forall_app. split; [done|]. by repeat constructor.
Qed.

(** X25. What the generator yields is a run of chunks of the response
    (role, echo, choice and usage chunks) and then either [[DONE]], or the
    error payload of a [ValueError] and [[DONE]]; or the generator breaks
    off after such a run, with neither an error payload nor [[DONE]], on an
    exception that is not a [ValueError], or on the exception, a
    [ValueError] included, that the constructor of the tool parser raises
    before the [try] is entered. *)
Theorem stream_generator_protocol (self : Serving.OpenAIServingChat)
    (response_role : str) (request : Serving.ChatCompletionRequest)
    (n : option nat) (options : FullGenerator.RequestOptions)
    (stream_options : StreamOptions)
    (conversation : list FullGenerator.ConversationMessage)
    (tokenizer : option Hermes.Tokenizer)
    (results : list RequestOutput) (engine_error : option exn) :
  match chat_completion_stream_generator self response_role request n
          options stream_options conversation tokenizer results
          engine_error with
  | (items, None) =>
    ∃ payload,
      Forall is_payload payload
      ∧ (items = payload ++ [Done]
         ∨ ∃ e, is_ValueError e = true
                ∧ items = payload ++ [ErrorChunk e; Done])
  | (items, Some e) =>
    Forall is_payload items
    ∧ (is_ValueError e = false
       ∨ (items = [] ∧ Serving.make_parser self tokenizer = Raise e))
  end.
Proof.
  unfold chat_completion_stream_generator.
  destruct (Serving.make_parser self tokenizer) as [tool_parser|e].
  2:{ split; [done|]. by right. }
  pose proof (try_body_payload self response_role request options
                stream_options conversation (default 1 n) tool_parser
                results engine_error) as Hp.
  destruct (try_body _ _ _ _ _ _ _ _ _ _) as [items [e|]]; cbn [fst] in Hp.
  - destruct (is_ValueError e) eqn:He.
    + exists items. split; [done|]. right. by exists e.
    + split; [done|]. by left.
  - exists items. split; [done|]. by left.
Qed.







End StreamFrame.


(** ** What the chat endpoint raises *)

Lemma choice_is_true c s :
  Serving.choice_is c s = true ↔ c = Serving.ChoiceStr s.
Proof.
  destruct c as [|s'|name]; cbn; [done| |done].
  rewrite bool_decide_eq_true. split; [by intros ->|by intros [= ->]].
Qed.

(** X27. [create_chat_completion] raises in two cases only: the preparation
    of the engine call, or the full generator of a request that does not
    stream, raises an exception that is not a [ValueError]; the request has
    then passed the model check, the chat template, the loading of
    multi-modal data and the [tool_choice] check, so its [tool_choice] is
    ['required']. In particular it never raises a [ValueError]: those, like
    every exception of the chat template and of the multi-modal data, come
    back as error responses. *)
Theorem create_chat_completion_raises_iff (self : Serving.OpenAIServingChat)
    (env : Serving.Collaborators) (request : Serving.ChatCompletionRequest)
    (e : exn) :
  Serving.create_chat_completion self env request = Raise e
  ↔ is_ValueError e = false
    ∧ Serving.check_model env = None
    ∧ (∃ mm_futures, Serving.apply_chat_template env = Ok mm_futures
                     ∧ Serving.load_mm_data env mm_futures = None)
    ∧ Serving.tool_choice request = Serving.ChoiceStr (py "required")
    ∧ (Serving.prepare_generation env = Raise e
       ∨ ((∃ u, Serving.prepare_generation env = Ok u)
          ∧ Serving.stream request = false
          ∧ Serving.full_generator env = Raise e)).
Proof.
  unfold Serving.create_chat_completion.
  destruct (Serving.check_model env) as [m|].
  { split; [done|]. by intros (_ & ? & _). }
  destruct (Serving.apply_chat_template env) as [k|e0].
  2:{ split; [done|]. by intros (_ & _ & (? & ? & _) & _). }
  destruct (Serving.load_mm_data env k) as [r|] eqn:Hmm.
  { split; [done|]. intros (_ & _ & (k' & [= <-] & Hk') & _). congruence. }
  destruct (Serving.choice_is (Serving.tool_choice request) (py "required"))
    eqn:Hreq; cbn [negb].
  2:{ split; [done|]. intros (_ & _ & _ & Hc & _).
      apply choice_is_true in Hc. congruence. }
  apply choice_is_true in Hreq. rewrite Hreq.
  assert (Serving.choice_is (Serving.ChoiceStr (py "required")) (py "auto")
          = false) as -> by (by apply bool_decide_eq_false_2).
  cbn [andb].
  destruct (Serving.prepare_generation env) as [u|e1].
  - destruct (Serving.stream request).
    { split; [done|]. intros (_ & _ & _ & _ & [?|(_ & ? & _)]); done. }
    destruct (Serving.full_generator env) as [[|]|e2].
    + split; [done|]. intros (_ & _ & _ & _ & [?|(_ & _ & ?)]); done.
    + split; [done|]. intros (_ & _ & _ & _ & [?|(_ & _ & ?)]); done.
    + destruct (is_ValueError e2) eqn:He2.
      * split; [done|].
        intros (He & _ & _ & _ & [?|(_ & _ & [= ->])]); [done|congruence].
      * split.
        -- intros [= <-]. repeat split; try done; [by exists k|].
           right. repeat split; try done. by exists u.
        -- intros (_ & _ & _ & _ & [?|(_ & _ & [= ->])]); done.
  - destruct (is_ValueError e1) eqn:He1.
    + split; [done|].
      intros (He & _ & _ & _ & [[= ->]|((? & ?) & _)]); [congruence|done].
    + split.
      * intros [= <-]. repeat split; try done; [by exists k|]. by left.
      * intros (_ & _ & _ & _ & [[= ->]|((? & ?) & _)]); done.
Qed.
